(** * CâmbioTrack: exchange-rate dashboard (src/project/src/App.tsx)

    A shallow embedding of the data pipeline of [App.tsx]: the rate fetcher
    ([fetchExchangeRates]), the synthetic history ([generateHistoricalData]),
    the converter ([calculateConversion]) and the alert list
    ([handleCreateAlert], the remove-alert handler); and of the component
    around them: what it renders, the handlers of its controls and its two
    effects, as events on the state.

    JavaScript numbers are IEEE 754 binary64 values.  They are modelled by
    [spec_float] of the standard library, with its round-to-nearest-even
    operations at precision 53 and maximal exponent 1024, so every
    arithmetic step of the program is evaluated exactly as the engine
    evaluates it. *)

From Stdlib Require Import ZArith String Ascii List Lia Bool.
From Stdlib Require Import Reals Lra.
From Stdlib Require Import Decimal DecimalString DecimalN DecimalPos.
From Stdlib Require Import Floats.SpecFloat.
From stdpp Require Import gmap strings.
Import ListNotations.

Open Scope Z_scope.
Open Scope string_scope.

(** ** JavaScript numbers *)

Module JS.

Definition prec : Z := 53.
Definition emax : Z := 1024.

(** The type [number] of the program. *)
Abbreviation number := spec_float.

Definition NaN : number := S754_nan.
Definition Infinity : number := S754_infinity false.
Definition pos_zero : number := S754_zero false.

Definition add : number -> number -> number := SFadd prec emax.
Definition sub : number -> number -> number := SFsub prec emax.
Definition mul : number -> number -> number := SFmul prec emax.
Definition div : number -> number -> number := SFdiv prec emax.

Definition leb : number -> number -> bool := SFleb.
Definition ltb : number -> number -> bool := SFltb.

(** The binary64 value nearest to [n * 2^e / d] (ties to even), with the
    sign [s]: the rounding of decimal literals and of [Number(string)]. *)
Definition of_ratio (s : bool) (n : positive) (e : Z) (d : positive) : number :=
  let '(q, e', l) := SFdiv_core_binary prec emax (Zpos n) e (Zpos d) 0 in
  binary_round_aux prec emax s q e' l.

Definition of_Z (z : Z) : number := binary_normalize prec emax z 0 false.

(** [m * 10^k] rounded to binary64; [m = 0] keeps the sign of the literal. *)
Definition of_decimal (s : bool) (m : Z) (k : Z) : number :=
  match m with
  | Zpos p =>
      match k with
      | Zneg q => of_ratio s p 0 (Pos.pow 10 q)
      | _ => of_ratio s (p * Z.to_pos (10 ^ k)) 0 1
      end
  | _ => S754_zero s
  end.

(** ToBoolean on numbers: [0], [-0] and [NaN] are falsy. *)
Definition truthy (x : number) : bool :=
  match x with
  | S754_zero _ | S754_nan => false
  | _ => true
  end.

(** [x || d] on an optional number ([undefined] is falsy). *)
Definition or_default (x : option number) (d : number) : number :=
  match x with
  | Some v => if truthy v then v else d
  | None => d
  end.

(** The global [isNaN] on a number. *)
Definition isNaN (x : number) : bool :=
  match x with
  | S754_nan => true
  | _ => false
  end.

(** ToNumber of a property read that may be [undefined]. *)
Definition to_number (x : option number) : number :=
  match x with
  | Some v => v
  | None => NaN
  end.

(** ToBoolean on strings: only the empty string is falsy. *)
Definition truthy_string (s : string) : bool :=
  match s with
  | EmptyString => false
  | _ => true
  end.

(** *** Decimal digits *)

Definition digits_of_Z (n : Z) : string :=
  NilZero.string_of_uint (N.to_uint (Z.to_N n)).

Fixpoint zeros (k : nat) : string :=
  match k with
  | O => ""
  | S k' => String "0" (zeros k')
  end.

(** *** Number.prototype.toFixed *)

(** The integer [n] for which [n / 10^f - m * 2^e] is closest to zero, the
    larger one when two are as close. *)
Definition fixed_scaled (f : nat) (m : positive) (e : Z) : Z :=
  let a := Zpos m * 10 ^ Z.of_nat f in
  match e with
  | Zneg p => (2 * a + 2 ^ Zpos p) / 2 ^ (Zpos p + 1)
  | _ => a * 2 ^ e
  end.

(** The digits of [n] with a point before the last [f] of them, padded
    with zeros on the left up to [f + 1] digits. *)
Definition fixed_digits (f : nat) (n : Z) : string :=
  let m := digits_of_Z n in
  let k := String.length m in
  let m := if (k <=? f)%nat then zeros (f + 1 - k) ++ m else m in
  let k := String.length m in
  match f with
  | O => m
  | _ => substring 0 (k - f) m ++ "." ++ substring (k - f) f m
  end.

(** [10^21 <= m * 2^e] *)
Definition ge_1e21 (m : positive) (e : Z) : bool :=
  match e with
  | Zneg p => (10 ^ 21 * 2 ^ Zpos p <=? Zpos m)%Z
  | _ => (10 ^ 21 <=? Zpos m * 2 ^ e)%Z
  end.

(** Number::toString for a value of at least [10^21], an integer [M]: the
    shortest digit string [s] of length [k <= 17] with [s * 10^(n-k)]
    rounding to the value, the closest such [s], printed in exponent form. *)
Definition round_trips (x : number) (s p : Z) : bool :=
  match SFcompare (of_Z (s * 10 ^ p)) x with
  | Some Eq => true
  | _ => false
  end.

Definition shortest_at (x : number) (M : Z) (n : nat) (k : nat) : option (Z * Z) :=
  let p := Z.of_nat n - Z.of_nat k in
  let lo := M / 10 ^ p in
  let hi := lo + 1 in
  let ok_lo := (10 ^ (Z.of_nat k - 1) <=? lo)%Z && round_trips x lo p in
  let ok_hi := round_trips x hi p in
  let pick (s : Z) :=
    if (s =? 10 ^ Z.of_nat k)%Z then Some (10 ^ (Z.of_nat k - 1), Z.of_nat n + 1)
    else Some (s, Z.of_nat n) in
  match ok_lo, ok_hi with
  | true, false => pick lo
  | false, true => pick hi
  | false, false => None
  | true, true =>
      let dl := M - lo * 10 ^ p in
      let dh := hi * 10 ^ p - M in
      if (dl <? dh)%Z then pick lo
      else if (dh <? dl)%Z then pick hi
      else if Z.even lo then pick lo else pick hi
  end.

Fixpoint shortest_from (x : number) (M : Z) (n : nat) (k : nat) (fuel : nat)
  : option (Z * Z) :=
  match fuel with
  | O => None
  | S fuel' =>
      match shortest_at x M n k with
      | Some r => Some r
      | None => shortest_from x M n (S k) fuel'
      end
  end.

Definition toString_big (m : positive) (e : Z) : string :=
  let M := match e with
           | Zneg p => Zpos m / 2 ^ Zpos p
           | _ => Zpos m * 2 ^ e
           end in
  let x := S754_finite false m e in
  let n := String.length (digits_of_Z M) in
  match shortest_from x M n 1 17 with
  | Some (s, n') =>
      let d := digits_of_Z s in
      let mant := match d with
                  | String c EmptyString => d
                  | String c rest => String c ("." ++ rest)
                  | EmptyString => d
                  end in
      mant ++ "e+" ++ digits_of_Z (n' - 1)
  | None => digits_of_Z M
  end.

(** [x.toFixed(f)] for [0 <= f <= 100]; the program only passes [2]. *)
Definition toFixed (f : nat) (x : number) : string :=
  match x with
  | S754_nan => "NaN"
  | S754_infinity false => "Infinity"
  | S754_infinity true => "-Infinity"
  | S754_zero _ => fixed_digits f 0
  | S754_finite s m e =>
      (if s then "-" else "") ++
      (if ge_1e21 m e then toString_big m e
       else fixed_digits f (fixed_scaled f m e))
  end.

(** *** Number(string): StringToNumber *)

Definition code (c : ascii) : nat := nat_of_ascii c.

(** StrWhiteSpaceChar, on the UTF-8 bytes of the string: TAB, LF, VT, FF,
    CR, SP, and U+00A0, U+1680, U+2000..U+200A, U+2028, U+2029, U+202F,
    U+205F, U+3000, U+FEFF. *)
Definition white_prefix (cs : list ascii) : option (list ascii) :=
  match map code cs, cs with
  | (9 | 10 | 11 | 12 | 13 | 32)%nat :: _, _ :: r => Some r
  | 194%nat :: 160%nat :: _, _ :: _ :: r => Some r
  | 225%nat :: 154%nat :: 128%nat :: _, _ :: _ :: _ :: r => Some r
  | 226%nat :: 128%nat :: b :: _, _ :: _ :: _ :: r =>
      if ((128 <=? b) && (b <=? 138) || (b =? 168) || (b =? 169) || (b =? 175))%nat
      then Some r else None
  | 226%nat :: 129%nat :: 159%nat :: _, _ :: _ :: _ :: r => Some r
  | 227%nat :: 128%nat :: 128%nat :: _, _ :: _ :: _ :: r => Some r
  | 239%nat :: 187%nat :: 191%nat :: _, _ :: _ :: _ :: r => Some r
  | _, _ => None
  end.

Fixpoint skip_white (fuel : nat) (cs : list ascii) : list ascii :=
  match fuel with
  | O => cs
  | S fuel' =>
      match white_prefix cs with
      | Some r => skip_white fuel' r
      | None => cs
      end
  end.

Definition only_white (cs : list ascii) : bool :=
  match skip_white (List.length cs) cs with
  | [] => true
  | _ => false
  end.

Definition digit_value (radix : Z) (c : ascii) : option Z :=
  let n := Z.of_nat (code c) in
  let v := if (48 <=? n)%Z && (n <=? 57)%Z then Some (n - 48)
           else if (97 <=? n)%Z && (n <=? 102)%Z then Some (n - 87)
           else if (65 <=? n)%Z && (n <=? 70)%Z then Some (n - 55)
           else None in
  match v with
  | Some d => if (d <? radix)%Z then Some d else None
  | None => None
  end.

(** The longest prefix of digits: its value on top of [acc], the number of
    digits read, and the rest. *)
Fixpoint read_digits (radix : Z) (cs : list ascii) (acc : Z) (cnt : nat)
  : Z * nat * list ascii :=
  match cs with
  | c :: r =>
      match digit_value radix c with
      | Some d => read_digits radix r (acc * radix + d) (S cnt)
      | None => (acc, cnt, cs)
      end
  | [] => (acc, cnt, cs)
  end.

(** ExponentPart, optional: the exponent and the rest, [None] when an
    exponent indicator is not followed by digits. *)
Definition read_exponent (cs : list ascii) : option (Z * list ascii) :=
  match cs with
  | ("e" | "E")%char :: r =>
      let '(neg, r1) := match r with
                        | "-"%char :: r' => (true, r')
                        | "+"%char :: r' => (false, r')
                        | _ => (false, r)
                        end in
      let '(v, cnt, r2) := read_digits 10 r1 0 0 in
      match cnt with
      | O => None
      | _ => Some (if neg then - v else v, r2)
      end
  | _ => Some (0, cs)
  end.

(** StrUnsignedDecimalLiteral followed by white space only. *)
Definition read_unsigned_decimal (s : bool) (cs : list ascii) : number :=
  if String.eqb (string_of_list_ascii (firstn 8 cs)) "Infinity" then
    if only_white (skipn 8 cs) then S754_infinity s else NaN
  else
    let '(i, ci, r1) := read_digits 10 cs 0 0 in
    let '(m, cf, r2) := match r1 with
                        | "."%char :: r => read_digits 10 r i 0
                        | _ => (i, O, r1)
                        end in
    match (ci + cf)%nat with
    | O => NaN
    | _ =>
        match read_exponent r2 with
        | Some (ex, r3) =>
            if only_white r3 then of_decimal s m (ex - Z.of_nat cf) else NaN
        | None => NaN
        end
    end.

(** NonDecimalIntegerLiteral ([0x], [0o], [0b]) followed by white space. *)
Definition read_radix (radix : Z) (cs : list ascii) : number :=
  let '(v, cnt, r) := read_digits radix cs 0 0 in
  match cnt with
  | O => NaN
  | _ => if only_white r then of_Z v else NaN
  end.

(** [Number(s)] for a string [s]. *)
Definition Number (s : string) : number :=
  let cs := list_ascii_of_string s in
  match skip_white (List.length cs) cs with
  | [] => pos_zero
  | "0"%char :: ("x" | "X")%char :: r => read_radix 16 r
  | "0"%char :: ("o" | "O")%char :: r => read_radix 8 r
  | "0"%char :: ("b" | "B")%char :: r => read_radix 2 r
  | "-"%char :: r => read_unsigned_decimal true r
  | "+"%char :: r => read_unsigned_decimal false r
  | r => read_unsigned_decimal false r
  end.

(** Numeric literals of the program text. *)
Definition lit (s : string) : number := Number s.

End JS.

(** ** Data model (the interfaces of [App.tsx]) *)

Import JS.

Record ExchangeRate := mkExchangeRate {
  currency : string;
  symbol : option string;   (* [CURRENCY_SYMBOLS[currency]], [None] = undefined *)
  rate : number;
  change : number
}.

Inductive AlertType := above | below.

Module Alert.
Record t := mk {
  currency : string;
  targetRate : number;
  type : AlertType
}.
End Alert.

(** The state of the alert form: [targetRate] is the text of the input. *)
Module AlertForm.
Record t := mk {
  currency : string;
  targetRate : string;
  type : AlertType
}.
End AlertForm.

Module HistoricalData.
Record t := mk {
  date : string;
  rate : number
}.
End HistoricalData.

(** What [response.data.conversion_rates] holds at run time: the object
    that the interface declares, read by key (a key that is missing reads
    [undefined]; a value is taken as the number that the division of line
    79 makes of it), or nothing ([undefined] or [null]).  Reading a key of
    nothing raises a TypeError, whose message is the engine's. *)
Inductive Rates :=
  | Table (entries : gmap string number)
  | Absent (typeError : string).

Record APIResponse := mkAPIResponse {
  result : string;
  base_code : string;
  conversion_rates : Rates;
  time_last_update_unix : number
}.

(** A [Date] object, by the millisecond value it was constructed from. *)
Record Date := mkDate { date_ms : number }.

Inductive TimeRange := R24h | R7d | R30d | R1y.

Definition CURRENCY_SYMBOLS : gmap string string :=
  <["USD" := "$"]> (<["EUR" := "€"]> (<["GBP" := "£"]> (<["BRL" := "R$"]> ∅))).

Definition SUPPORTED_CURRENCIES : list string := ["USD"; "EUR"; "GBP"; "BRL"].

(** ** Component state: the [useState] cells of [App] *)

Record AppState := mkAppState {
  darkMode : bool;
  selectedCurrency : string;
  timeRange : TimeRange;
  rates : list ExchangeRate;
  historicalData : list HistoricalData.t;
  alerts : list Alert.t;
  showConverter : bool;
  convertAmount : string;
  convertFrom : string;
  convertTo : string;
  loading : bool;
  error : option string;
  lastUpdate : option Date;
  alertForm : AlertForm.t
}.

(** The state at mount (lines 46-63). *)
Definition initialState : AppState :=
  {| darkMode := false; selectedCurrency := "USD"; timeRange := R7d;
     rates := []; historicalData := []; alerts := [];
     showConverter := false; convertAmount := ""; convertFrom := "USD";
     convertTo := "BRL"; loading := true; error := None; lastUpdate := None;
     alertForm := AlertForm.mk "USD" "" above |}.

Definition setRates (v : list ExchangeRate) (s : AppState) : AppState :=
  mkAppState (darkMode s) (selectedCurrency s) (timeRange s) v
    (historicalData s) (alerts s) (showConverter s) (convertAmount s)
    (convertFrom s) (convertTo s) (loading s) (error s) (lastUpdate s)
    (alertForm s).

Definition setHistoricalData (v : list HistoricalData.t) (s : AppState) : AppState :=
  mkAppState (darkMode s) (selectedCurrency s) (timeRange s) (rates s)
    v (alerts s) (showConverter s) (convertAmount s)
    (convertFrom s) (convertTo s) (loading s) (error s) (lastUpdate s)
    (alertForm s).

Definition setAlerts (v : list Alert.t) (s : AppState) : AppState :=
  mkAppState (darkMode s) (selectedCurrency s) (timeRange s) (rates s)
    (historicalData s) v (showConverter s) (convertAmount s)
    (convertFrom s) (convertTo s) (loading s) (error s) (lastUpdate s)
    (alertForm s).

Definition setLoading (v : bool) (s : AppState) : AppState :=
  mkAppState (darkMode s) (selectedCurrency s) (timeRange s) (rates s)
    (historicalData s) (alerts s) (showConverter s) (convertAmount s)
    (convertFrom s) (convertTo s) v (error s) (lastUpdate s)
    (alertForm s).

Definition setError (v : option string) (s : AppState) : AppState :=
  mkAppState (darkMode s) (selectedCurrency s) (timeRange s) (rates s)
    (historicalData s) (alerts s) (showConverter s) (convertAmount s)
    (convertFrom s) (convertTo s) (loading s) v (lastUpdate s)
    (alertForm s).

Definition setLastUpdate (v : option Date) (s : AppState) : AppState :=
  mkAppState (darkMode s) (selectedCurrency s) (timeRange s) (rates s)
    (historicalData s) (alerts s) (showConverter s) (convertAmount s)
    (convertFrom s) (convertTo s) (loading s) (error s) v
    (alertForm s).

Definition setAlertForm (v : AlertForm.t) (s : AppState) : AppState :=
  mkAppState (darkMode s) (selectedCurrency s) (timeRange s) (rates s)
    (historicalData s) (alerts s) (showConverter s) (convertAmount s)
    (convertFrom s) (convertTo s) (loading s) (error s) (lastUpdate s)
    v.

(** ** Statements that update the state and may throw *)

(** A thrown value: an [Error] object with its message, or anything else. *)
Inductive Thrown :=
  | ErrorObject (message : string)
  | OtherValue.

Definition Stmt (A : Type) : Type := AppState -> (A + Thrown) * AppState.

Definition ret {A} (a : A) : Stmt A := fun s => (inl a, s).

Definition bind {A B} (c : Stmt A) (k : A -> Stmt B) : Stmt B :=
  fun s =>
    match c s with
    | (inl a, s') => k a s'
    | (inr t, s') => (inr t, s')
    end.

Definition throw {A} (t : Thrown) : Stmt A := fun s => (inr t, s).

Definition update (f : AppState -> AppState) : Stmt unit :=
  fun s => (inl tt, f s).

(** [try { body } catch (err) { handler } finally { final }] *)
Definition try_catch_finally (body : Stmt unit) (handler : Thrown -> Stmt unit)
    (final : Stmt unit) : Stmt unit :=
  fun s =>
    let r := match body s with
             | (inl a, s') => (inl a, s')
             | (inr t, s') => handler t s'
             end in
    match final (snd r) with
    | (inl _, s'') => (fst r, s'')
    | (inr t, s'') => (inr t, s'')
    end.

Declare Scope stmt_scope.
Delimit Scope stmt_scope with stmt.
Notation "x <- c ;; k" := (bind c (fun x => k))
  (at level 100, c at next level, right associativity) : stmt_scope.
Notation "c ;; k" := (bind c (fun _ => k))
  (at level 100, right associativity) : stmt_scope.

(** ** RateSnapshotFetcher: [fetchExchangeRates] (lines 65-95) *)

(** The outcome of [await axios.get(...)]: the promise is rejected with a
    thrown value, or resolved with a response whose [data] is given.  A
    response without [data] raises a TypeError at line 72, inside the
    [try]: it is the outcome [inl] of that TypeError.  The [console.error]
    call of the [catch] block (line 91) writes to the console only and
    leaves the state alone. *)
Definition AxiosOutcome : Type := Thrown + APIResponse.

Definition axios_get (o : AxiosOutcome) : Stmt APIResponse :=
  fun s =>
    match o with
    | inl t => (inr t, s)
    | inr d => (inl d, s)
    end.

(** Lines 76-81. *)
Definition normalize (conversion_rates : gmap string number) (currency : string)
  : ExchangeRate :=
  {| currency := currency;
     symbol := CURRENCY_SYMBOLS !! currency;
     rate := if String.eqb currency "BRL" then lit "1"
             else div (lit "1") (to_number (conversion_rates !! currency));
     change := lit "0" |}.

(** [conversion_rates[currency]] is first read for USD, the first of the
    supported currencies (line 79): nothing has been set by then. *)
Definition read (conversion_rates : Rates) : Stmt (gmap string number) :=
  match conversion_rates with
  | Table entries => ret entries
  | Absent typeError => throw (ErrorObject typeError)
  end.

Definition fetchExchangeRates (o : AxiosOutcome) : Stmt unit :=
  (try_catch_finally
     (update (setLoading true) ;;
      update (setError None) ;;
      data <- axios_get o ;;
      if String.eqb (result data) "success" then
        conversion_rates <- read (conversion_rates data) ;;
        let newRates := map (normalize conversion_rates) SUPPORTED_CURRENCIES in
        update (setRates newRates) ;;
        update (setLastUpdate
                  (Some (mkDate (mul (time_last_update_unix data) (lit "1000")))))
      else
        throw (ErrorObject "Failed to fetch exchange rates"))
     (fun err =>
        let errorMessage := match err with
                            | ErrorObject message => message
                            | OtherValue => "Failed to fetch exchange rates"
                            end in
        update (setError (Some ("Erro ao carregar taxas de câmbio: " ++ errorMessage))))
     (update (setLoading false)))%stmt.

(** The state after one fetch cycle. *)
Definition fetch (o : AxiosOutcome) (s : AppState) : AppState :=
  snd (fetchExchangeRates o s).

(** The fetch fails when the [catch] block runs. *)
Definition fetch_fails (o : AxiosOutcome) : bool :=
  match o with
  | inl _ => true
  | inr d =>
      negb (String.eqb (result d) "success" &&
            match conversion_rates d with
            | Table _ => true
            | Absent _ => false
            end)
  end.

(** ** HistorySynthesizer: [generateHistoricalData] (lines 104-128) *)

(** [Math.random]: the draws of the engine's generator and how many of
    them were consumed. *)
Record Random := mkRandom {
  draws : nat -> number;
  position : nat
}.

Definition Math_random (g : Random) : number * Random :=
  (draws g (position g), mkRandom (draws g) (S (position g))).

(** [rates.find(r => r.currency === code)?.rate] *)
Definition rate_of (rs : list ExchangeRate) (code : string) : option number :=
  option_map rate (find (fun r => String.eqb (currency r) code) rs).

Definition days (r : TimeRange) : nat :=
  match r with
  | R24h => 1
  | R7d => 7
  | R30d => 30
  | R1y => 365
  end.

Section DateFns.

(** The clock and date-fns are outside the program: [new_Date i] is the
    [Date] that [new Date()] yields in the iteration with counter [i]. *)
Variable new_Date : nat -> Date.
Variable subDays : Date -> number -> Date.
Variable format : Date -> string -> string.

Definition number_of_nat (i : nat) : number := of_Z (Z.of_nat i).

(** One point (lines 112-120). *)
Definition history_point (timeRange : TimeRange) (baseRate : number)
    (i : nat) (r : number) : HistoricalData.t :=
  let date := match timeRange with
              | R24h => format (subDays (new_Date i)
                                  (div (number_of_nat i) (lit "24"))) "HH:mm"
              | _ => format (subDays (new_Date i) (number_of_nat i)) "dd/MM"
              end in
  let randomVariation := mul (sub r (lit "0.5")) (lit "0.2") in
  {| HistoricalData.date := date;
     HistoricalData.rate := Number (toFixed 2 (add baseRate randomVariation)) |}.

(** [for (let i = days; i >= 0; i--)], entered with counter [i]. *)
Fixpoint history_loop (timeRange : TimeRange) (baseRate : number) (i : nat)
    (g : Random) (data : list HistoricalData.t) : list HistoricalData.t * Random :=
  let '(r, g') := Math_random g in
  let data' := (data ++ [history_point timeRange baseRate i r])%list in
  match i with
  | O => (data', g')
  | S i' => history_loop timeRange baseRate i' g' data'
  end.

(** The array handed to [setHistoricalData], from explicit inputs. *)
Definition synthesize (baseRate : number) (timeRange : TimeRange) (g : Random)
  : list HistoricalData.t * Random :=
  history_loop timeRange baseRate (days timeRange) g [].

Definition baseRate (s : AppState) : number :=
  or_default (rate_of (rates s) (selectedCurrency s)) (lit "5").

Definition generateHistoricalData (s : AppState) (g : Random)
  : AppState * Random :=
  let '(data, g') := synthesize (baseRate s) (timeRange s) g in
  (setHistoricalData data s, g').

(** The effect on [selectedCurrency, timeRange, rates] (lines 125-127). *)
Definition historyEffect (s : AppState) (g : Random) : AppState * Random :=
  if (0 <? List.length (rates s))%nat then generateHistoricalData s g
  else (s, g).

End DateFns.

(** ** AlertRegistry: [handleCreateAlert] (lines 130-139) and the remove
    button (line 429) *)

Definition handleCreateAlert (s : AppState) : AppState :=
  let alertForm := alertForm s in
  if truthy_string (AlertForm.targetRate alertForm) then
    setAlertForm
      (AlertForm.mk (AlertForm.currency alertForm) "" (AlertForm.type alertForm))
      (setAlerts
         (alerts s ++
          [Alert.mk (AlertForm.currency alertForm)
                    (Number (AlertForm.targetRate alertForm))
                    (AlertForm.type alertForm)])%list
         s)
  else s.

(** [l.filter((x, i) => p(x, i))], the positions counted from [i]. *)
Fixpoint filter_indexed {A : Type} (p : A -> Z -> bool) (i : Z) (l : list A)
  : list A :=
  match l with
  | [] => []
  | x :: r =>
      if p x i then x :: filter_indexed p (i + 1) r
      else filter_indexed p (i + 1) r
  end.

(** [setAlerts(alerts.filter((_, i) => i !== index))] *)
Definition removeAlert (index : Z) (s : AppState) : AppState :=
  setAlerts (filter_indexed (fun _ i => negb (i =? index)%Z) 0 (alerts s)) s.

(** ** ConversionCalculator: [calculateConversion] (lines 141-149) *)

Definition calculateConversion (s : AppState) : string :=
  let fromRate := or_default (rate_of (rates s) (convertFrom s)) (lit "1") in
  let toRate := or_default (rate_of (rates s) (convertTo s)) (lit "1") in
  let amount := Number (convertAmount s) in
  if truthy amount && negb (isNaN amount) then
    toFixed 2 (div (mul amount fromRate) toRate)
  else "0.00".

(** The converter inputs set through the form. *)
Definition withConversion (amount from to : string) (s : AppState) : AppState :=
  mkAppState (darkMode s) (selectedCurrency s) (timeRange s) (rates s)
    (historicalData s) (alerts s) (showConverter s) amount from to
    (loading s) (error s) (lastUpdate s) (alertForm s).

(** ** The component around the handlers: state setters, the screens, the
    event handlers of the JSX and the effects *)

Definition setDarkMode (v : bool) (s : AppState) : AppState :=
  mkAppState v (selectedCurrency s) (timeRange s) (rates s)
    (historicalData s) (alerts s) (showConverter s) (convertAmount s)
    (convertFrom s) (convertTo s) (loading s) (error s) (lastUpdate s)
    (alertForm s).

Definition setSelectedCurrency (v : string) (s : AppState) : AppState :=
  mkAppState (darkMode s) v (timeRange s) (rates s)
    (historicalData s) (alerts s) (showConverter s) (convertAmount s)
    (convertFrom s) (convertTo s) (loading s) (error s) (lastUpdate s)
    (alertForm s).

Definition setTimeRange (v : TimeRange) (s : AppState) : AppState :=
  mkAppState (darkMode s) (selectedCurrency s) v (rates s)
    (historicalData s) (alerts s) (showConverter s) (convertAmount s)
    (convertFrom s) (convertTo s) (loading s) (error s) (lastUpdate s)
    (alertForm s).

Definition setShowConverter (v : bool) (s : AppState) : AppState :=
  mkAppState (darkMode s) (selectedCurrency s) (timeRange s) (rates s)
    (historicalData s) (alerts s) v (convertAmount s)
    (convertFrom s) (convertTo s) (loading s) (error s) (lastUpdate s)
    (alertForm s).

Definition setConvertAmount (v : string) (s : AppState) : AppState :=
  mkAppState (darkMode s) (selectedCurrency s) (timeRange s) (rates s)
    (historicalData s) (alerts s) (showConverter s) v
    (convertFrom s) (convertTo s) (loading s) (error s) (lastUpdate s)
    (alertForm s).

Definition setConvertFrom (v : string) (s : AppState) : AppState :=
  mkAppState (darkMode s) (selectedCurrency s) (timeRange s) (rates s)
    (historicalData s) (alerts s) (showConverter s) (convertAmount s)
    v (convertTo s) (loading s) (error s) (lastUpdate s)
    (alertForm s).

Definition setConvertTo (v : string) (s : AppState) : AppState :=
  mkAppState (darkMode s) (selectedCurrency s) (timeRange s) (rates s)
    (historicalData s) (alerts s) (showConverter s) (convertAmount s)
    (convertFrom s) v (loading s) (error s) (lastUpdate s)
    (alertForm s).

(** *** [fetchExchangeRates] on both sides of its [await] *)

(** The function runs up to [await axios.get(...)] when it is called
    (lines 67-70), by the mount effect, the timer or the retry button. *)
Definition fetchExchangeRates_call : Stmt unit :=
  (update (setLoading true) ;;
   update (setError None))%stmt.

(** It runs from there on when the request settles with the outcome [o]:
    the rest of the [try] block, [catch] and [finally] (lines 72-94). *)
Definition fetchExchangeRates_resume (o : AxiosOutcome) : Stmt unit :=
  (try_catch_finally
     (data <- axios_get o ;;
      if String.eqb (result data) "success" then
        conversion_rates <- read (conversion_rates data) ;;
        let newRates := map (normalize conversion_rates) SUPPORTED_CURRENCIES in
        update (setRates newRates) ;;
        update (setLastUpdate
                  (Some (mkDate (mul (time_last_update_unix data) (lit "1000")))))
      else
        throw (ErrorObject "Failed to fetch exchange rates"))
     (fun err =>
        let errorMessage := match err with
                            | ErrorObject message => message
                            | OtherValue => "Failed to fetch exchange rates"
                            end in
        update (setError (Some ("Erro ao carregar taxas de câmbio: " ++ errorMessage))))
     (update (setLoading false)))%stmt.

(** The entries of [conversion_rates], none when it is absent. *)
Definition entries_of (d : APIResponse) : gmap string number :=
  match conversion_rates d with
  | Table entries => entries
  | Absent _ => ∅
  end.

(** The response of the last fetch that did not fail, in a list of
    outcomes in the order they settled. *)
Definition lastSuccess (os : list AxiosOutcome) : option APIResponse :=
  fold_left (fun acc o => match o with
                          | inr d => if fetch_fails o then acc else Some d
                          | inl _ => acc
                          end) os None.

(** The state after the fetch cycles of a list of outcomes, one after the
    other. *)
Definition poll (os : list AxiosOutcome) (s : AppState) : AppState :=
  fold_left (fun s o => fetch o s) os s.

(** The text shown on the error screen after the outcome [o]. *)
Definition errorText (o : AxiosOutcome) : string :=
  "Erro ao carregar taxas de câmbio: " ++
  match o with
  | inl (ErrorObject message) => message
  | inl OtherValue => "Failed to fetch exchange rates"
  | inr d =>
      match String.eqb (result d) "success", conversion_rates d with
      | true, Absent typeError => typeError
      | _, _ => "Failed to fetch exchange rates"
      end
  end.

(** *** What [App] renders *)

(** The three [return]s of the component (lines 151-180). *)
Inductive View :=
  | LoadingScreen
  | ErrorScreen (message : string)
  | Dashboard.

Definition view (s : AppState) : View :=
  if loading s && (List.length (rates s) =? 0)%nat then LoadingScreen
  else match error s with
       | Some message =>
           if truthy_string message then ErrorScreen message else Dashboard
       | None => Dashboard
       end.

(** One card of the rate grid (lines 292-299): the class and the text of
    the change badge, and the price. *)
Definition changeClass (r : ExchangeRate) : string :=
  if ltb (lit "0") (change r) then "text-green-600" else "text-red-600".

Definition changeLabel (r : ExchangeRate) : string :=
  (if ltb (lit "0") (change r) then "+" else "") ++ toFixed 2 (change r) ++ "%".

Definition priceLabel (r : ExchangeRate) : string :=
  "R$ " ++ toFixed 2 (rate r).

(** The options of the three currency [<select>]s (lines 242, 259, 373). *)
Definition currencyOptions (s : AppState) : list string :=
  map currency (rates s).

(** *** Events *)

(** What can happen to the mounted component: the timer of the mount
    effect fires, a pending request settles, or a control of the page is
    used.  The payload of a change event is [e.target.value].  Events are
    handled one at a time, each on the state of the latest render. *)
Inductive Event :=
  | Tick                                    (* line 100 *)
  | Settle (o : AxiosOutcome)               (* line 70 *)
  | ClickRetry                              (* line 170 *)
  | ClickConverter                          (* line 190 *)
  | ClickDarkMode                           (* line 196 *)
  | ChangeAmount (value : string)           (* line 223 *)
  | ChangeFrom (value : string)             (* line 235 *)
  | ChangeTo (value : string)               (* line 252 *)
  | ClickCard (currency : string)           (* line 282 *)
  | ClickRange (range : TimeRange)          (* line 315 *)
  | ChangeAlertCurrency (value : string)    (* line 366 *)
  | ChangeAlertType (value : AlertType)     (* line 381 *)
  | ChangeAlertTarget (value : string)      (* line 394 *)
  | ClickCreate                             (* line 404 *)
  | ClickRemove (index : nat).              (* line 429 *)

(** The handler of each event, on the state of the render it belongs to. *)
Definition handle (e : Event) (s : AppState) : AppState :=
  match e with
  | Tick | ClickRetry => snd (fetchExchangeRates_call s)
  | Settle o => snd (fetchExchangeRates_resume o s)
  | ClickConverter => setShowConverter (negb (showConverter s)) s
  | ClickDarkMode => setDarkMode (negb (darkMode s)) s
  | ChangeAmount value => setConvertAmount value s
  | ChangeFrom value => setConvertFrom value s
  | ChangeTo value => setConvertTo value s
  | ClickCard currency => setSelectedCurrency currency s
  | ClickRange range => setTimeRange range s
  | ChangeAlertCurrency value =>
      setAlertForm (AlertForm.mk value (AlertForm.targetRate (alertForm s))
                                 (AlertForm.type (alertForm s))) s
  | ChangeAlertType value =>
      setAlertForm (AlertForm.mk (AlertForm.currency (alertForm s))
                                 (AlertForm.targetRate (alertForm s)) value) s
  | ChangeAlertTarget value =>
      setAlertForm (AlertForm.mk (AlertForm.currency (alertForm s)) value
                                 (AlertForm.type (alertForm s))) s
  | ClickCreate => handleCreateAlert s
  | ClickRemove index => removeAlert (Z.of_nat index) s
  end.

Definition TimeRange_eqb (a b : TimeRange) : bool :=
  match a, b with
  | R24h, R24h | R7d, R7d | R30d, R30d | R1y, R1y => true
  | _, _ => false
  end.

(** Whether the dependencies [selectedCurrency, timeRange, rates] of the
    history effect (line 128) differ between two renders: [setRates] is
    only called with a new array (line 83), when the fetch does not fail;
    the two others are compared by value. *)
Definition depsChanged (e : Event) (s s' : AppState) : bool :=
  match e with
  | Settle o => negb (fetch_fails o)
  | _ => false
  end
  || negb (String.eqb (selectedCurrency s) (selectedCurrency s'))
  || negb (TimeRange_eqb (timeRange s) (timeRange s')).

(** The component and what surrounds it: the generator of [Math.random],
    the requests that have not settled, and the events handled so far. *)
Record World := mkWorld {
  state : AppState;
  random : Random;
  pending : nat;
  elapsed : nat
}.

(** Whether the event can occur: a request settles only while one is
    pending, and a control is used only while it is on the page, with a
    value that the control offers. *)
Definition offered (w : World) (e : Event) : bool :=
  let s := state w in
  let dashboard := match view s with Dashboard => true | _ => false end in
  match e with
  | Tick => true
  | Settle _ => (0 <? pending w)%nat
  | ClickRetry => match view s with ErrorScreen _ => true | _ => false end
  | ClickConverter | ClickDarkMode | ClickRange _
  | ChangeAlertType _ | ChangeAlertTarget _ | ClickCreate => dashboard
  | ChangeAmount _ => dashboard && showConverter s
  | ChangeFrom value | ChangeTo value =>
      dashboard && showConverter s &&
      existsb (String.eqb value) (currencyOptions s)
  | ClickCard value | ChangeAlertCurrency value =>
      dashboard && existsb (String.eqb value) (currencyOptions s)
  | ClickRemove index => dashboard && (index <? List.length (alerts s))%nat
  end.

Section Component.

(** [now t i] is what [new Date()] yields in the iteration with counter
    [i] of the history effect that runs after the event number [t]. *)
Variable now : nat -> nat -> Date.
Variable subDays : Date -> number -> Date.
Variable format : Date -> string -> string.

(** The component after mount (lines 97-102 and 125): the first effect has
    called [fetchExchangeRates], whose request is pending; the second one
    found no rates. *)
Definition mount (g : Random) : World :=
  {| state := fst (historyEffect (now 0) subDays format
                     (snd (fetchExchangeRates_call initialState)) g);
     random := snd (historyEffect (now 0) subDays format
                      (snd (fetchExchangeRates_call initialState)) g);
     pending := 1;
     elapsed := 0 |}.

(** One event: its handler, and then the history effect when the render
    that follows changed one of its dependencies. *)
Definition step (e : Event) (w : World) : World :=
  let s' := handle e (state w) in
  let r := if depsChanged e (state w) s'
           then historyEffect (now (S (elapsed w))) subDays format s' (random w)
           else (s', random w) in
  {| state := fst r;
     random := snd r;
     pending := match e with
                | Tick | ClickRetry => S (pending w)
                | Settle _ => Nat.pred (pending w)
                | _ => pending w
                end;
     elapsed := S (elapsed w) |}.

Definition run (es : list Event) (w : World) : World :=
  fold_left (fun w e => step e w) es w.

(** The worlds that the mounted component can be in. *)
Inductive reachable : World -> Prop :=
  | reachable_mount (g : Random) : reachable (mount g)
  | reachable_step (w : World) (e : Event) :
      reachable w -> offered w e = true -> reachable (step e w).

End Component.

(** What every world of the mounted component satisfies (shown below). *)
Definition consistent (w : World) : Prop :=
  let s := state w in
  (rates s = [] \/
   exists quotes, rates s = map (normalize quotes) SUPPORTED_CURRENCIES) /\
  (lastUpdate s = None <-> rates s = []) /\
  List.length (historicalData s) =
    match rates s with
    | [] => 0%nat
    | _ :: _ => S (days (timeRange s))
    end /\
  (loading s = false -> error s = None -> rates s <> []) /\
  (error s = None \/
   exists cause, error s = Some ("Erro ao carregar taxas de câmbio: " ++ cause)) /\
  (loading s = true -> (0 < pending w)%nat) /\
  In (selectedCurrency s) SUPPORTED_CURRENCIES /\
  In (convertFrom s) SUPPORTED_CURRENCIES /\
  In (convertTo s) SUPPORTED_CURRENCIES /\
  In (AlertForm.currency (alertForm s)) SUPPORTED_CURRENCIES /\
  Forall (fun a => In (Alert.currency a) SUPPORTED_CURRENCIES) (alerts s).

(** Whether each event of a list can occur in turn, from the world [w]. *)
Fixpoint allowed (now : nat -> nat -> Date) (subDays : Date -> number -> Date)
    (format : Date -> string -> string) (es : list Event) (w : World) : bool :=
  match es with
  | [] => true
  | e :: es' => offered w e && allowed now subDays format es' (step now subDays format e w)
  end.

Arguments lit : simpl never.
Arguments Number : simpl never.
Arguments toFixed : simpl never.
Arguments add : simpl never.
Arguments sub : simpl never.
Arguments mul : simpl never.
Arguments div : simpl never.

(** ** Sample data *)

Definition one : number := S754_finite false 4503599627370496 (-52).
Definition five : number := S754_finite false 5629499534213120 (-50).
Definition hundred : number := S754_finite false 7036874417766400 (-46).

(** A well-formed quote: 0.2 USD, 0.16 EUR and 0.125 GBP per BRL. *)
Definition goodResponse : APIResponse :=
  {| result := "success"; base_code := "BRL";
     conversion_rates :=
       Table (<["USD" := lit "0.2"]> (<["EUR" := lit "0.16"]>
                (<["GBP" := lit "0.125"]> (<["BRL" := lit "1"]> ∅))));
     time_last_update_unix := lit "1700000000" |}.

(** A quote that reports success with USD at zero, EUR negative and GBP
    absent. *)
Definition badResponse : APIResponse :=
  {| result := "success"; base_code := "BRL";
     conversion_rates :=
       Table (<["USD" := lit "0"]> (<["EUR" := lit "-0.16"]> (<["BRL" := lit "1"]> ∅)));
     time_last_update_unix := lit "1700000300" |}.

(** A response that reports success and carries no conversion_rates; the
    message is the one of V8. *)
Definition bareResponse : APIResponse :=
  {| result := "success"; base_code := "BRL";
     conversion_rates := Absent "Cannot read properties of undefined (reading 'USD')";
     time_last_update_unix := lit "1700000400" |}.

(** A quote that the upstream rejects. *)
Definition rejectedResponse : APIResponse :=
  {| result := "error"; base_code := "BRL"; conversion_rates := Table ∅;
     time_last_update_unix := lit "0" |}.

(** The state after a first, successful fetch. *)
Definition loadedState : AppState := fetch (inr goodResponse) initialState.

(** A state with three alerts, in creation order. *)
Definition threeAlerts : AppState :=
  setAlerts [Alert.mk "USD" five above; Alert.mk "EUR" one below;
             Alert.mk "GBP" hundred above] initialState.


Definition constantRandom (r : number) : Random := mkRandom (fun _ => r) 0.

(** A quote that reports success with USD at 2^-1023, a subnormal binary64
    value (1.1125369292536007e-308). *)
Definition tinyResponse : APIResponse :=
  {| result := "success"; base_code := "BRL";
     conversion_rates :=
       Table (<["USD" := lit "1.1125369292536007e-308"]> (<["BRL" := lit "1"]> ∅));
     time_last_update_unix := lit "1700000600" |}.

(** A quote with USD at 0.19976 per BRL (a USD rate of about 5.006), the
    state after fetching it, and a generator whose draws are all 511/512. *)
Definition skewedResponse : APIResponse :=
  {| result := "success"; base_code := "BRL";
     conversion_rates :=
       Table (<["USD" := lit "0.19976"]> (<["EUR" := lit "0.16"]>
                (<["GBP" := lit "0.125"]> (<["BRL" := lit "1"]> ∅))));
     time_last_update_unix := lit "1700000900" |}.

Definition skewedState : AppState := fetch (inr skewedResponse) initialState.

Definition highDraws : Random := constantRandom (lit "0.998046875").

(** A session: the first request succeeds, the user selects EUR, creates
    an alert at 5.5 and opens the converter on the amount 10. *)
Definition sampleClock : nat -> nat -> Date := fun _ _ => mkDate (lit "1700000000000").
Definition sampleSubDays : Date -> number -> Date :=
  fun d n => mkDate (sub (date_ms d) (mul n (lit "86400000"))).
Definition sampleFormat : Date -> string -> string := fun _ pattern => pattern.

Definition sampleEvents : list Event :=
  [Settle (inr goodResponse); ClickCard "EUR"; ChangeAlertTarget "5.5"; ClickCreate;
   ClickConverter; ChangeAmount "10"].

Definition sampleSession : World :=
  run sampleClock sampleSubDays sampleFormat sampleEvents
    (mount sampleClock sampleSubDays sampleFormat (constantRandom (lit "0.5"))).

(** A session whose only request fails. *)
Definition failedSession : World :=
  run sampleClock sampleSubDays sampleFormat [Settle (inl OtherValue)]
    (mount sampleClock sampleSubDays sampleFormat (constantRandom (lit "0.5"))).

(** ** Real values of binary64 numbers *)

Definition bpow (e : Z) : R := powerRZ 2 e.

(** The real value of [S754_finite _ m e], without its sign. *)
Definition F2R (m : positive) (e : Z) : R := (IZR (Zpos m) * bpow e)%R.

(** Position of a real [x] with respect to the integer [m] below it, as
    the rounding of [spec_float] records it. *)
Definition inbetween (m : Z) (x : R) (l : location) : Prop :=
  match l with
  | loc_Exact => x = IZR m
  | loc_Inexact Lt => (IZR m < x < IZR m + / 2)%R
  | loc_Inexact Eq => x = (IZR m + / 2)%R
  | loc_Inexact Gt => (IZR m + / 2 < x < IZR m + 1)%R
  end.

Definition located (mrs : shr_record) (x : R) : Prop :=
  (0 <= shr_m mrs)%Z /\ inbetween (shr_m mrs) x (loc_of_shr_record mrs).

(** The real value of a number; [0] for the non-finite ones. *)
Definition SF2R (x : spec_float) : R :=
  match x with
  | S754_finite s m e => if s then (- F2R m e)%R else F2R m e
  | _ => 0%R
  end.

(** Zero or finite non-zero. *)
Definition is_finite (x : spec_float) : bool :=
  match x with
  | S754_zero _ | S754_finite _ _ _ => true
  | _ => false
  end.

Definition signed (s : bool) (x : R) : R := if s then (- x)%R else x.

(** ** Decimal digit strings *)

(** Value of a list of decimal digits read from the left on top of [acc]. *)
Definition dec_digit (c : ascii) : bool :=
  match digit_value 10 c with
  | Some _ => true
  | None => false
  end.

Definition digits_value (l : list ascii) (acc : Z) : Z :=
  fold_left (fun a c => a * 10 + match digit_value 10 c with
                                 | Some d => d
                                 | None => 0
                                 end) l acc.

Definition no_digit_ahead (rest : list ascii) : Prop :=
  match rest with
  | [] => True
  | c :: _ => dec_digit c = false
  end.

(** ** Facts about the fetcher *)

Lemma lit_1 : lit "1" = one.
Proof. vm_compute. reflexivity. Qed.

Lemma fetch_success (s : AppState) (d : APIResponse) (entries : gmap string number) :
  result d = "success" ->
  conversion_rates d = Table entries ->
  fetch (inr d) s =
  setLoading false
    (setLastUpdate (Some (mkDate (mul (time_last_update_unix d) (lit "1000"))))
       (setRates (map (normalize entries) SUPPORTED_CURRENCIES)
          (setError None (setLoading true s)))).
Proof.
  intros H Ht. unfold fetch, fetchExchangeRates, try_catch_finally, bind, update, axios_get.
  cbn [fst snd]. rewrite H, Ht. reflexivity.
Qed.

Lemma fetch_absent (s : AppState) (d : APIResponse) (typeError : string) :
  result d = "success" ->
  conversion_rates d = Absent typeError ->
  fetch (inr d) s =
  setLoading false
    (setError (Some ("Erro ao carregar taxas de câmbio: " ++ typeError))
       (setError None (setLoading true s))).
Proof.
  intros H Ht. unfold fetch, fetchExchangeRates, try_catch_finally, bind, update, axios_get.
  cbn [fst snd]. rewrite H, Ht. reflexivity.
Qed.

Lemma fetch_rejected (s : AppState) (t : Thrown) :
  fetch (inl t) s =
  setLoading false
    (setError
       (Some ("Erro ao carregar taxas de câmbio: " ++
              match t with
              | ErrorObject message => message
              | OtherValue => "Failed to fetch exchange rates"
              end))
       (setError None (setLoading true s))).
Proof. reflexivity. Qed.

Lemma fetch_not_success (s : AppState) (d : APIResponse) :
  String.eqb (result d) "success" = false ->
  fetch (inr d) s =
  setLoading false
    (setError
       (Some "Erro ao carregar taxas de câmbio: Failed to fetch exchange rates")
       (setError None (setLoading true s))).
Proof.
  intros H. unfold fetch, fetchExchangeRates, try_catch_finally, bind, update, axios_get, throw.
  cbn [fst snd]. rewrite H. reflexivity.
Qed.

Lemma normalize_supported (cr : gmap string number) :
  map (normalize cr) SUPPORTED_CURRENCIES =
  [ {| currency := "USD"; symbol := Some "$";
       rate := div (lit "1") (to_number (cr !! "USD")); change := lit "0" |};
    {| currency := "EUR"; symbol := Some "€";
       rate := div (lit "1") (to_number (cr !! "EUR")); change := lit "0" |};
    {| currency := "GBP"; symbol := Some "£";
       rate := div (lit "1") (to_number (cr !! "GBP")); change := lit "0" |};
    {| currency := "BRL"; symbol := Some "R$";
       rate := lit "1"; change := lit "0" |} ].
Proof. reflexivity. Qed.



Lemma rate_of_supported (cr : gmap string number) (c : string) :
  In c ["USD"; "EUR"; "GBP"] ->
  rate_of (map (normalize cr) SUPPORTED_CURRENCIES) c =
  Some (div one (to_number (cr !! c))).
Proof.
  rewrite normalize_supported, lit_1.
  intros [<- | [<- | [<- | []]]]; reflexivity.
Qed.


(** ** Facts about the alert list *)

Lemma setAlerts_same (s : AppState) : setAlerts (alerts s) s = s.
Proof. destruct s; reflexivity. Qed.

Lemma filter_indexed_miss {A : Type} (l : list A) (i index : Z) :
  (index < i \/ i + Z.of_nat (List.length l) <= index)%Z ->
  filter_indexed (fun _ j => negb (j =? index)%Z) i l = l.
Proof.
  revert i. induction l as [| x r IH]; intros i H; [reflexivity |].
  cbn [filter_indexed]. cbn [List.length] in H.
  destruct (Z.eqb_spec i index) as [-> | Hne]; [lia |].
  cbn [negb]. f_equal. apply IH. lia.
Qed.


(** ** Facts about the converter *)

Lemma calculateConversion_guard (s : AppState) :
  calculateConversion s =
  if truthy (Number (convertAmount s)) then
    toFixed 2
      (div (mul (Number (convertAmount s))
                (or_default (rate_of (rates s) (convertFrom s)) one))
           (or_default (rate_of (rates s) (convertTo s)) one))
  else "0.00".
Proof.
  unfold calculateConversion. rewrite lit_1.
  destruct (Number (convertAmount s)); reflexivity.
Qed.

(** ** Facts about the history synthesizer *)

Section History.

Variable new_Date : nat -> Date.
Variable subDays : Date -> number -> Date.
Variable format : Date -> string -> string.

Lemma history_loop_spec (timeRange : TimeRange) (baseRate : number) (i : nat) :
  forall (g : Random) (data : list HistoricalData.t),
    history_loop new_Date subDays format timeRange baseRate i g data =
    ((data ++ map (fun j => history_point new_Date subDays format
                               timeRange baseRate (i - j)%nat
                               (draws g (position g + j)%nat))
                  (seq 0 (S i)))%list,
     mkRandom (draws g) (position g + S i)%nat).
Proof.
  induction i as [| i IH]; intros g data.
  - cbn [history_loop Math_random seq map]. rewrite !Nat.add_0_r, Nat.add_1_r.
    reflexivity.
  - cbn [history_loop Math_random]. rewrite IH.
    cbn [draws position]. f_equal.
    + rewrite <- app_assoc. f_equal.
      change (seq 0 (S (S i))) with (0%nat :: seq 1 (S i)).
      rewrite <- seq_shift. cbn [map app]. rewrite map_map.
      rewrite Nat.add_0_r. f_equal.
      apply map_ext. intros j.
      replace (S i - S j)%nat with (i - j)%nat by lia.
      replace (S (position g) + j)%nat with (position g + S j)%nat by lia.
      reflexivity.
    + f_equal. lia.
Qed.

Lemma synthesize_spec (baseRate : number) (timeRange : TimeRange) (g : Random) :
  fst (synthesize new_Date subDays format baseRate timeRange g) =
  map (fun j => history_point new_Date subDays format
                timeRange baseRate (days timeRange - j)%nat
                  (draws g (position g + j)%nat))
      (seq 0 (S (days timeRange))).
Proof. unfold synthesize. rewrite history_loop_spec. reflexivity. Qed.

End History.

(** ** Rounding of binary64 operations

    The operations of [spec_float] shift a mantissa to the target exponent
    and round it to nearest, ties to even.  The lemmas below bound what is
    lost, in real numbers. *)

Open Scope R_scope.

Lemma bpow_pos e : 0 < bpow e.
Proof. apply powerRZ_lt. lra. Qed.

Lemma bpow_add a b : bpow (a + b) = bpow a * bpow b.
Proof. apply powerRZ_add. lra. Qed.

Lemma bpow_0 : bpow 0 = 1.
Proof. reflexivity. Qed.

Lemma bpow_1 : bpow 1 = 2.
Proof. unfold bpow. simpl. lra. Qed.

Lemma bpow_m1 : bpow (-1) = / 2.
Proof. unfold bpow. simpl. rewrite Rmult_1_r. reflexivity. Qed.

Lemma bpow_succ e : bpow (e + 1) = 2 * bpow e.
Proof. rewrite bpow_add, bpow_1. lra. Qed.

Lemma bpow_opp e : bpow (- e) = / bpow e.
Proof.
  apply Rmult_eq_reg_l with (bpow e); [| pose proof (bpow_pos e); lra].
  rewrite <- bpow_add, Z.add_opp_diag_r, bpow_0.
  rewrite Rinv_r; [reflexivity | pose proof (bpow_pos e); lra].
Qed.

Lemma bpow_ge_1 e : (0 <= e)%Z -> 1 <= bpow e.
Proof.
  intros H. pattern e. apply natlike_ind; [rewrite bpow_0; lra | | exact H].
  intros x Hx IH. unfold Z.succ. rewrite bpow_succ. lra.
Qed.

Lemma bpow_le a b : (a <= b)%Z -> bpow a <= bpow b.
Proof.
  intros H. replace b with (a + (b - a))%Z by lia. rewrite bpow_add.
  pose proof (bpow_ge_1 (b - a) ltac:(lia)). pose proof (bpow_pos a). nra.
Qed.

Lemma bpow_lt a b : (a < b)%Z -> bpow a < bpow b.
Proof.
  intros H. replace b with (a + 1 + (b - a - 1))%Z by lia.
  rewrite bpow_add, bpow_succ.
  pose proof (bpow_ge_1 (b - a - 1) ltac:(lia)). pose proof (bpow_pos a). nra.
Qed.

Lemma bpow_IZR e : (0 <= e)%Z -> bpow e = IZR (2 ^ e).
Proof.
  intros H. pattern e. apply natlike_ind; [reflexivity | | exact H].
  intros x Hx IH. unfold Z.succ. rewrite bpow_succ, Z.pow_add_r, mult_IZR, IH by lia.
  change (IZR (2 ^ 1)) with 2. lra.
Qed.

Lemma IZR_xO p : IZR (Zpos p~0) = 2 * IZR (Zpos p).
Proof. rewrite Pos2Z.inj_xO, mult_IZR. reflexivity. Qed.

Lemma IZR_xI p : IZR (Zpos p~1) = 2 * IZR (Zpos p) + 1.
Proof. rewrite Pos2Z.inj_xI, plus_IZR, mult_IZR. reflexivity. Qed.

Lemma inbetween_bounds m x l : inbetween m x l -> IZR m <= x < IZR m + 1.
Proof. destruct l as [| []]; cbn; lra. Qed.

Lemma located_of_loc m x l :
  (0 <= m)%Z -> inbetween m x l -> located (shr_record_of_loc m l) x.
Proof. intros Hm H. destruct l as [| []]; split; cbn; assumption. Qed.

Lemma shr_1_located mrs x : located mrs x -> located (shr_1 mrs) (x / 2).
Proof.
  destruct mrs as [m r s]. intros [Hm H].
  destruct m as [| [p | p |] | p]; destruct r, s;
    cbv [located shr_1 shr_m loc_of_shr_record inbetween orb] in *;
    try rewrite IZR_xO in H; try rewrite IZR_xI in H;
    try (exfalso; lia); (split; [lia | lra]).
Qed.

Lemma iter_located p : forall mrs x,
  located mrs x -> located (SpecFloat.iter_pos shr_1 p mrs) (x * bpow (- Zpos p)).
Proof.
  induction p as [p IH | p IH |]; intros mrs x H; cbn [SpecFloat.iter_pos].
  - replace (x * bpow (- Zpos p~1)) with
      (x / 2 * bpow (- Zpos p) * bpow (- Zpos p)).
    + apply IH, IH, shr_1_located, H.
    + rewrite Pos2Z.inj_xI.
      replace (- (2 * Zpos p + 1))%Z with (-1 + (- Zpos p + - Zpos p))%Z by lia.
      rewrite !bpow_add, bpow_m1. lra.
  - replace (x * bpow (- Zpos p~0)) with (x * bpow (- Zpos p) * bpow (- Zpos p)).
    + apply IH, IH, H.
    + rewrite Pos2Z.inj_xO.
      replace (- (2 * Zpos p))%Z with (- Zpos p + - Zpos p)%Z by lia.
      rewrite !bpow_add. lra.
  - change (- Z.pos 1)%Z with (-1)%Z. rewrite bpow_m1. apply shr_1_located, H.
Qed.

Lemma shr_located mrs e n x :
  located mrs x ->
  snd (shr mrs e n) = (e + Z.max n 0)%Z /\
  located (fst (shr mrs e n)) (x * bpow (- Z.max n 0)).
Proof.
  intros H. destruct n as [| p | p]; cbn [shr fst snd].
  - rewrite Z.add_0_r. split; [reflexivity |]. cbn. rewrite Rmult_1_r. exact H.
  - split; [reflexivity |]. rewrite Z.max_l by lia. apply iter_located, H.
  - rewrite Z.max_r by lia. rewrite Z.add_0_r. split; [reflexivity |].
    cbn. rewrite Rmult_1_r. exact H.
Qed.

Lemma round_nearest_even_near m x l :
  inbetween m x l ->
  x - / 2 <= IZR (round_nearest_even m l) <= x + / 2.
Proof.
  destruct l as [| []]; cbn [inbetween round_nearest_even]; intros H.
  - lra.
  - destruct (Z.even m); [| rewrite plus_IZR]; lra.
  - lra.
  - rewrite plus_IZR. lra.
Qed.

Lemma digits2_size p : digits2_pos p = Pos.size p.
Proof. induction p; cbn; congruence. Qed.

Lemma digits_upper m : (0 <= m)%Z -> IZR m + 1 <= bpow (Zdigits2 m).
Proof.
  intros H. destruct m as [| p | p]; [cbn; lra | | lia].
  cbn [Zdigits2]. rewrite digits2_size, bpow_IZR by lia.
  rewrite <- plus_IZR. apply IZR_le.
  pose proof (Pos.size_gt p) as Hs.
  apply Pos2Z.pos_lt_pos in Hs. rewrite Pos2Z.inj_pow in Hs. lia.
Qed.

Lemma digits_lower p : bpow (Zdigits2 (Zpos p) - 1) <= IZR (Zpos p).
Proof.
  cbn [Zdigits2]. rewrite digits2_size.
  apply Rmult_le_reg_l with 2; [lra |].
  rewrite <- bpow_succ. replace (Z.pos (Pos.size p) - 1 + 1)%Z with (Zpos (Pos.size p)) by lia.
  rewrite bpow_IZR by lia. rewrite <- mult_IZR. apply IZR_le.
  pose proof (Pos.size_le p) as Hs.
  apply Pos2Z.pos_le_pos in Hs. rewrite Pos2Z.inj_pow in Hs. lia.
Qed.

Lemma digits_le m k : (0 <= k)%Z -> (0 <= m)%Z -> IZR m < bpow k -> (Zdigits2 m <= k)%Z.
Proof.
  intros Hk Hm H. destruct m as [| p | p]; [exact Hk | | lia].
  destruct (Z_le_gt_dec (Zdigits2 (Zpos p)) k) as [Hle | Hgt]; [exact Hle |].
  pose proof (digits_lower p) as Hl.
  pose proof (bpow_le k (Zdigits2 (Zpos p) - 1) ltac:(lia)). lra.
Qed.

Lemma round_nearest_even_range m l :
  (m <= round_nearest_even m l <= m + 1)%Z.
Proof. destruct l as [| []]; cbn; try lia. destruct (Z.even m); lia. Qed.

Lemma fexp_ge_emin e : (emin prec emax <= fexp prec emax e)%Z.
Proof. unfold fexp. lia. Qed.

(** What [binary_round_aux] returns, for a real [x * 2^ex] located by
    [(mx, lx)]: the integer [m2] nearest to [x] scaled to the exponent
    [e1], possibly renormalized by one bit. *)
Lemma binary_round_aux_spec sx mx ex lx x :
  (0 <= mx)%Z -> inbetween mx x lx ->
  let e1 := Z.max (fexp prec emax (Zdigits2 mx + ex)) ex in
  exists m2 : Z,
    (0 <= m2)%Z /\
    x * bpow (ex - e1) - / 2 <= IZR m2 <= x * bpow (ex - e1) + / 2 /\
    match binary_round_aux prec emax sx mx ex lx with
    | S754_zero s => s = sx /\ m2 = 0%Z
    | S754_finite s m3 e3 =>
        s = sx /\ IZR (Zpos m3) * bpow e3 = IZR m2 * bpow e1 /\
        (e1 <= e3 <= e1 + 1)%Z /\ (e3 <= emax - prec)%Z
    | S754_infinity s => s = sx /\ (emax - prec <= e1)%Z
    | S754_nan => False
    end.
Proof.
  intros Hmx Hin e1.
  set (n1 := (fexp prec emax (Zdigits2 mx + ex) - ex)%Z).
  assert (He1 : e1 = (ex + Z.max n1 0)%Z) by (unfold e1, n1; lia).
  destruct (shr_located (shr_record_of_loc mx lx) ex n1 x
              (located_of_loc mx x lx Hmx Hin)) as [Hs1 [Hm1 Hl1]].
  unfold binary_round_aux, shr_fexp. fold n1.
  destruct (shr (shr_record_of_loc mx lx) ex n1) as [mrs1 e1'].
  cbn [fst snd] in Hs1, Hm1, Hl1.
  rewrite <- He1 in Hs1. subst e1'.
  replace (- Z.max n1 0)%Z with (ex - e1)%Z in Hl1 by lia.
  set (m1 := shr_m mrs1) in *.
  set (m2 := round_nearest_even m1 (loc_of_shr_record mrs1)).
  pose proof (round_nearest_even_near _ _ _ Hl1) as Hnear. fold m2 in Hnear.
  pose proof (round_nearest_even_range m1 (loc_of_shr_record mrs1)) as Hrange.
  fold m2 in Hrange.
  exists m2. split; [lia |]. split; [exact Hnear |].
  (* m1 has at most 53 bits *)
  assert (Hm1lt : (m1 < 2 ^ 53)%Z).
  { apply lt_IZR. rewrite <- bpow_IZR by lia.
    pose proof (inbetween_bounds _ _ _ Hl1) as Hb.
    pose proof (inbetween_bounds _ _ _ Hin) as Hb0.
    pose proof (digits_upper mx Hmx) as Hd.
    pose proof (bpow_pos (ex - e1)) as Hp.
    assert (bpow (Zdigits2 mx) * bpow (ex - e1) <= bpow 53).
    { rewrite <- bpow_add. apply bpow_le. unfold n1, fexp, prec in *. lia. }
    nra. }
  assert (Hemin : (emin prec emax <= e1)%Z).
  { pose proof (fexp_ge_emin (Zdigits2 mx + ex)). lia. }
  destruct (Z.eq_dec m2 (2 ^ 53)%Z) as [Heq | Hne].
  - (* the rounding carried into bit 54 *)
    rewrite Heq.
    assert (Hn2 : (fexp prec emax (Zdigits2 (2 ^ 53) + e1) - e1)%Z = 1%Z).
    { change (Zdigits2 (2 ^ 53)) with 54%Z. unfold fexp, prec, emin, emax in *. lia. }
    rewrite Hn2. cbn [shr SpecFloat.iter_pos]. cbv [shr_1 Z.pow Z.pow_pos Pos.iter Z.mul Pos.mul shr_m].
    destruct (e1 + 1 <=? emax - prec)%Z eqn:Hle.
    + apply Z.leb_le in Hle. repeat split; try lia.
      rewrite bpow_succ. change (IZR (2 ^ 53)) with (2 * IZR 4503599627370496). lra.
    + apply Z.leb_gt in Hle. split; [reflexivity | lia].
  - assert (Hd2 : (Zdigits2 m2 <= 53)%Z).
    { apply digits_le; [lia | lia |]. rewrite bpow_IZR by lia. apply IZR_lt. lia. }
    assert (Hn2 : (fexp prec emax (Zdigits2 m2 + e1) - e1 <= 0)%Z).
    { unfold fexp, prec in *. lia. }
    assert (Hshr : shr (shr_record_of_loc m2 loc_Exact) e1
                     (fexp prec emax (Zdigits2 m2 + e1) - e1) =
                   (shr_record_of_loc m2 loc_Exact, e1)).
    { destruct (fexp prec emax (Zdigits2 m2 + e1) - e1)%Z; try reflexivity. lia. }
    rewrite Hshr. cbn [shr_record_of_loc shr_m].
    destruct m2 as [| p | p]; [split; reflexivity | | lia].
    destruct (e1 <=? emax - prec)%Z eqn:Hle.
    + apply Z.leb_le in Hle. repeat split; lia.
    + apply Z.leb_gt in Hle. split; [reflexivity | lia].
Qed.

Lemma new_location_inbetween (d q r : Z) :
  (0 < d)%Z -> (0 <= r < d)%Z ->
  inbetween q (IZR q + IZR r / IZR d) (new_location d r).
Proof.
  intros Hd Hr.
  assert (Hd' : 0 < IZR d) by (apply IZR_lt; exact Hd).
  assert (Hq : forall a b : Z, (a < b)%Z -> IZR a / IZR d < IZR b / IZR d).
  { intros a b Hab. apply Rmult_lt_compat_r; [apply Rinv_0_lt_compat; exact Hd' |].
    apply IZR_lt. exact Hab. }
  assert (Hhalf : IZR d / IZR d = 1) by (field; lra).
  assert (H0 : IZR 0 / IZR d = 0) by (field; lra).
  assert (Hdbl : forall a : Z, IZR (2 * a) / IZR d = 2 * (IZR a / IZR d)).
  { intros a. rewrite mult_IZR. field. lra. }
  unfold new_location, new_location_even, new_location_odd.
  change (IntDef.Z.even d) with (Z.even d).
  destruct (Z.even d) eqn:Heven; cbv beta;
    change (IntDef.Z.eqb r 0) with (Z.eqb r 0);
    destruct (Z.eqb_spec r 0) as [-> | Hr0];
    try (rewrite H0; cbn [inbetween]; lra).
  - assert (Hrpos : 0 < IZR r / IZR d) by (rewrite <- H0; apply Hq; lia).
    change (IntDef.Z.compare (IntDef.Z.mul 2 r) d) with (Z.compare (2 * r) d).
    destruct (Z.compare_spec (2 * r) d) as [He | Hl | Hg]; cbn [inbetween].
    + rewrite <- He in Hhalf at 1. rewrite Hdbl in Hhalf. lra.
    + pose proof (Hq _ _ Hl) as H1. rewrite Hdbl in H1. lra.
    + pose proof (Hq _ _ Hg) as H1. rewrite Hdbl in H1.
      pose proof (Hq r d ltac:(lia)). lra.
  - assert (Hrpos : 0 < IZR r / IZR d) by (rewrite <- H0; apply Hq; lia).
    assert (Hodd : (2 * r <> d)%Z).
    { intros E. rewrite <- E, Z.even_mul in Heven. discriminate Heven. }
    change (IntDef.Z.compare (IntDef.Z.add (IntDef.Z.mul 2 r) 1) d)
      with (Z.compare (2 * r + 1) d).
    destruct (Z.compare_spec (2 * r + 1) d) as [He | Hl | Hg]; cbn [inbetween].
    + pose proof (Hq (2 * r)%Z d ltac:(lia)) as H1. rewrite Hdbl in H1. lra.
    + pose proof (Hq (2 * r)%Z d ltac:(lia)) as H1. rewrite Hdbl in H1. lra.
    + pose proof (Hq d (2 * r)%Z ltac:(lia)) as H1. rewrite Hdbl in H1.
      pose proof (Hq r d ltac:(lia)). lra.
Qed.

(** The quotient computed by [SFdiv_core_binary], located with respect to
    the exact quotient of the two values scaled to the exponent [e']. *)
Lemma div_core_located (m1 m2 : positive) (e1 e2 : Z) :
  let '(q, e', l) := SFdiv_core_binary prec emax (Zpos m1) e1 (Zpos m2) e2 in
  (0 <= q)%Z /\
  inbetween q (IZR (Zpos m1) * bpow e1 / (IZR (Zpos m2) * bpow e2) * bpow (- e')) l /\
  (e' <= fexp prec emax (Zdigits2 (Zpos m1) + e1 - (Zdigits2 (Zpos m2) + e2)))%Z.
Proof.
  unfold SFdiv_core_binary.
  set (e' := Z.min (fexp prec emax (Zdigits2 (Zpos m1) + e1 - (Zdigits2 (Zpos m2) + e2)))
                   (e1 - e2)).
  set (s := (e1 - e2 - e')%Z).
  assert (Hs : (0 <= s)%Z) by (unfold s, e'; lia).
  set (m' := match s with
             | Zpos _ => Z.shiftl (Zpos m1) s
             | Z0 => Zpos m1
             | Zneg _ => 0%Z
             end).
  assert (Hm' : m' = (Zpos m1 * 2 ^ s)%Z).
  { unfold m'. destruct s as [| p | p]; [lia | | lia].
    rewrite Z.shiftl_mul_pow2 by lia. reflexivity. }
  pose proof (Z_div_mod m' (Zpos m2) ltac:(lia)) as Hdiv.
  destruct (Z.div_eucl m' (Zpos m2)) as [q r]. destruct Hdiv as [Hqr Hr].
  assert (Hq0 : (0 <= q)%Z).
  { assert (0 <= m')%Z by (rewrite Hm'; apply Z.mul_nonneg_nonneg; [lia | apply Z.pow_nonneg; lia]).
    nia. }
  split; [exact Hq0 |]. split; [| unfold e'; lia].
  replace (IZR (Zpos m1) * bpow e1 / (IZR (Zpos m2) * bpow e2) * bpow (- e'))
    with (IZR q + IZR r / IZR (Zpos m2)).
  - apply new_location_inbetween; lia.
  - assert (Hp2 : 0 < IZR (Zpos m2)) by (apply IZR_lt; lia).
    pose proof (bpow_pos e2) as Hb2.
    assert (HR : IZR m' = IZR (Zpos m2) * IZR q + IZR r).
    { rewrite Hqr, plus_IZR, mult_IZR. reflexivity. }
    rewrite Hm', mult_IZR, <- bpow_IZR in HR by lia.
    replace (bpow e1) with (bpow s * bpow e2 * bpow e').
    + rewrite bpow_opp. pose proof (bpow_pos e'). pose proof (bpow_pos s).
      field_simplify_eq; [| lra]. nra.
    + rewrite <- !bpow_add. f_equal. unfold s. lia.
Qed.

Lemma F2R_pos m e : 0 < F2R m e.
Proof.
  unfold F2R. apply Rmult_lt_0_compat; [apply IZR_lt; lia | apply bpow_pos].
Qed.

Lemma IZR_near (a b : Z) : IZR b - / 2 <= IZR a <= IZR b + / 2 -> a = b.
Proof.
  intros [H1 H2].
  assert (IZR a < IZR (b + 1)) by (rewrite plus_IZR; lra).
  assert (IZR (b - 1) < IZR a) by (rewrite minus_IZR; lra).
  apply lt_IZR in H, H0. lia.
Qed.

Lemma bounded_emin m e : bounded prec emax m e = true -> (emin prec emax <= e)%Z.
Proof.
  unfold bounded, canonical_mantissa. intros H.
  apply andb_true_iff in H. destruct H as [H _].
  apply Z.eqb_eq in H. rewrite <- H. apply fexp_ge_emin.
Qed.

Lemma IZR_hundred_mantissa : IZR 7036874417766400 = 100 * IZR (2 ^ 46).
Proof. rewrite <- mult_IZR. reflexivity. Qed.

Lemma bpow_m53_small : bpow (-53) <= / 1000000000.
Proof.
  change (-53)%Z with (Z.opp 53). rewrite bpow_opp, bpow_IZR by lia.
  apply Rinv_le_contravar; [lra |]. apply IZR_le. vm_compute. discriminate.
Qed.

Lemma bpow_m47_small : bpow (-47) <= / 1000000000.
Proof.
  change (-47)%Z with (Z.opp 47). rewrite bpow_opp, bpow_IZR by lia.
  apply Rinv_le_contravar; [lra |]. apply IZR_le. vm_compute. discriminate.
Qed.

(** 100 * r is computed with a relative error of at most 2^-53, also when
    the product is subnormal (it is then exact), unless it overflows. *)
Lemma mul_hundred_accurate (m : positive) (e : Z) :
  bounded prec emax m e = true ->
  match mul hundred (S754_finite false m e) with
  | S754_finite sy my ey =>
      sy = false /\
      100 * F2R m e * (1 - bpow (-53)) <= F2R my ey
        <= 100 * F2R m e * (1 + bpow (-53))
  | S754_infinity sy => sy = false
  | _ => False
  end.
Proof.
  intros Hb. pose proof (bounded_emin m e Hb) as Hemin.
  unfold mul, hundred, SFmul. cbn [xorb].
  set (mx := Zpos (7036874417766400 * m)).
  set (ex := (-46 + e)%Z).
  destruct (binary_round_aux_spec false mx ex loc_Exact (IZR mx) ltac:(unfold mx; lia) eq_refl)
    as (m2 & Hm2 & Hnear & Hres).
  set (e1 := Z.max (fexp prec emax (Zdigits2 mx + ex)) ex) in *.
  assert (Hv : 100 * F2R m e = IZR mx * bpow ex).
  { unfold F2R, mx, ex. rewrite Pos2Z.inj_mul, mult_IZR, bpow_add.
    replace (bpow (-46)) with (/ IZR (2 ^ 46))
      by (change (-46)%Z with (Z.opp 46); rewrite bpow_opp, bpow_IZR by lia; reflexivity).
    rewrite IZR_hundred_mantissa.
    field. apply not_0_IZR. discriminate. }
  pose proof (F2R_pos m e) as Hpos. pose proof (bpow_pos (-53)) as Hp53.
  pose proof bpow_m53_small as Hsmall.
  assert (Hbounds : 100 * F2R m e * (1 - bpow (-53)) <= IZR m2 * bpow e1
                    <= 100 * F2R m e * (1 + bpow (-53))).
  { destruct (Z_le_gt_dec (e1 - ex) 46) as [Hexact | Hround].
    - (* no bit of the product is lost *)
      assert (Hint : IZR mx * bpow (ex - e1) = IZR (Zpos (100 * m) * 2 ^ (46 - (e1 - ex)))).
      { rewrite mult_IZR, <- bpow_IZR by (unfold e1; lia).
        unfold mx. rewrite (Pos2Z.inj_mul 7036874417766400 m), (Pos2Z.inj_mul 100 m), !mult_IZR.
        rewrite IZR_hundred_mantissa.
        rewrite <- (bpow_IZR 46) by lia.
        replace (bpow 46) with (bpow (46 - (e1 - ex)) * bpow (e1 - ex))
          by (rewrite <- bpow_add; f_equal; lia).
        replace (ex - e1)%Z with (- (e1 - ex))%Z by lia. rewrite bpow_opp.
        field. pose proof (bpow_pos (e1 - ex)). lra. }
      rewrite Hint in Hnear. apply IZR_near in Hnear.
      rewrite Hv, Hnear, <- Hint.
      replace (IZR mx * bpow (ex - e1) * bpow e1) with (IZR mx * bpow ex)
        by (rewrite Rmult_assoc, <- bpow_add; do 2 f_equal; lia).
      rewrite <- Hv. nra.
    - (* the product is rounded in the normal range *)
      assert (He1 : e1 = (Zdigits2 mx + ex - 53)%Z).
      { unfold e1, fexp, prec, emin, emax, ex in *. lia. }
      assert (Hlow : bpow (e1 + 52) <= IZR mx * bpow ex).
      { pose proof (digits_lower (7036874417766400 * m)) as Hd. fold mx in Hd.
        replace (e1 + 52)%Z with (Zdigits2 mx - 1 + ex)%Z by lia.
        rewrite bpow_add. pose proof (bpow_pos ex). nra. }
      assert (Herr : IZR mx * bpow ex - bpow e1 / 2 <= IZR m2 * bpow e1
                     <= IZR mx * bpow ex + bpow e1 / 2).
      { replace (IZR mx * bpow ex) with (IZR mx * bpow (ex - e1) * bpow e1)
          by (rewrite Rmult_assoc, <- bpow_add; do 2 f_equal; lia).
        pose proof (bpow_pos e1). nra. }
      assert (Hulp : bpow e1 / 2 = bpow (e1 + 52) * bpow (-53)).
      { rewrite <- bpow_add. replace (e1 + 52 + -53)%Z with (e1 + -1)%Z by lia.
        rewrite bpow_add, bpow_m1. lra. }
      rewrite Hv. rewrite Hulp in Herr. nra. }
  destruct (binary_round_aux prec emax false mx ex loc_Exact) as [s | s | | s my ey].
  - destruct Hres as [_ ->]. nra.
  - apply Hres.
  - exact Hres.
  - destruct Hres as (Hs & Hval & _ & _). split; [exact Hs |].
    change (F2R my ey) with (IZR (Zpos my) * bpow ey). rewrite Hval. exact Hbounds.
Qed.

Lemma fexp_small (k : Z) : (k <= 7)%Z -> (fexp prec emax k <= -46)%Z.
Proof. unfold fexp, prec, emin, emax. lia. Qed.

Lemma bpow_7 : bpow 7 = 128.
Proof. rewrite bpow_IZR by lia. reflexivity. Qed.

(** A quotient close to 100 is rounded with an absolute error of at most
    2^-47 to a finite value with a negative exponent. *)
Lemma div_near_hundred (my : positive) (ey : Z) (m : positive) (e : Z) :
  99 <= F2R my ey / F2R m e <= 101 ->
  exists (mz : positive) (ez : Z),
    div (S754_finite false my ey) (S754_finite false m e) = S754_finite false mz ez /\
    (ez < 0)%Z /\
    F2R my ey / F2R m e - bpow (-47) <= F2R mz ez <= F2R my ey / F2R m e + bpow (-47).
Proof.
  intros HX. set (X := F2R my ey / F2R m e) in *.
  unfold div, SFdiv. cbn [xorb].
  pose proof (div_core_located my m ey e) as Hcore.
  destruct (SFdiv_core_binary prec emax (Zpos my) ey (Zpos m) e) as [[q e'] l].
  destruct Hcore as (Hq & Hloc & He').
  fold (F2R my ey) (F2R m e) in Hloc. fold X in Hloc.
  pose proof (F2R_pos my ey) as Hy. pose proof (F2R_pos m e) as Hr.
  (* the exponent of the quotient *)
  assert (Hde : (Zdigits2 (Zpos my) + ey - (Zdigits2 (Zpos m) + e) <= 7)%Z).
  { destruct (Z_le_gt_dec (Zdigits2 (Zpos my) + ey - (Zdigits2 (Zpos m) + e)) 7) as [Hle | Hgt];
      [exact Hle | exfalso].
    pose proof (digits_lower my) as Hl. pose proof (digits_upper (Zpos m) ltac:(lia)) as Hu.
    assert (Hlt : bpow (Zdigits2 (Zpos m) + e + 7) <= bpow (Zdigits2 (Zpos my) - 1 + ey))
      by (apply bpow_le; lia).
    rewrite !bpow_add, bpow_7 in Hlt.
    pose proof (bpow_pos ey). pose proof (bpow_pos e).
    assert (HXr : F2R my ey = X * F2R m e) by (unfold X; field; lra).
    unfold F2R in HXr, Hr, Hy.
    assert (128 * (IZR (Zpos m) * bpow e) < IZR (Zpos my) * bpow ey) by nra.
    nra. }
  pose proof (fexp_small _ Hde) as Hfe.
  assert (He'46 : (e' <= -46)%Z) by lia.
  pose proof (inbetween_bounds _ _ _ Hloc) as Hqb.
  assert (Hdq : (Zdigits2 q + e' <= 7)%Z).
  { assert (Zdigits2 q <= 7 - e')%Z; [| lia].
    apply digits_le; [lia | exact Hq |].
    replace (7 - e')%Z with (7 + - e')%Z by lia. rewrite bpow_add, bpow_7.
    pose proof (bpow_pos (- e')). nra. }
  destruct (binary_round_aux_spec false q e' l (X * bpow (- e')) Hq Hloc)
    as (m2 & Hm2 & Hnear & Hres).
  set (e1 := Z.max (fexp prec emax (Zdigits2 q + e')) e') in *.
  assert (He1 : (e1 <= -46)%Z) by (pose proof (fexp_small _ Hdq); unfold e1; lia).
  replace (X * bpow (- e') * bpow (e' - e1)) with (X * bpow (- e1)) in Hnear
    by (rewrite Rmult_assoc, <- bpow_add; do 2 f_equal; lia).
  assert (Hbig : 1 <= bpow (- e1)) by (apply bpow_ge_1; lia).
  assert (Hm2pos : 0 < IZR m2) by nra.
  destruct (binary_round_aux prec emax false q e' l) as [s | s | | s mz ez].
  - destruct Hres as [_ ->]. lra.
  - destruct Hres as [_ Hover]. unfold emax, prec in Hover. lia.
  - contradiction.
  - destruct Hres as (-> & Hval & Hrange & _).
    exists mz, ez. split; [reflexivity |]. split; [lia |].
    unfold F2R. rewrite Hval.
    assert (Hulp : bpow e1 <= bpow (-46)) by (apply bpow_le; exact He1).
    assert (H47 : bpow (-46) = 2 * bpow (-47)).
    { change (-46)%Z with (-47 + 1)%Z. apply bpow_succ. }
    assert (Hone : bpow (- e1) * bpow e1 = 1).
    { rewrite <- bpow_add, Z.add_opp_diag_l. reflexivity. }
    pose proof (bpow_pos e1).
    assert (X * bpow (- e1) * bpow e1 = X) by (rewrite Rmult_assoc, Hone; lra).
    nra.
Qed.

(** Two decimals of a value within 0.005 of 100. *)
Lemma toFixed_near_hundred (mz : positive) (ez : Z) :
  (ez < 0)%Z ->
  99995 / 1000 <= F2R mz ez < 100005 / 1000 ->
  toFixed 2 (S754_finite false mz ez) = "100.00"%string.
Proof.
  intros Hez [Hlo Hhi]. destruct ez as [| p | p]; try lia.
  unfold F2R in Hlo, Hhi. change (Z.neg p) with (- Zpos p)%Z in Hlo, Hhi.
  rewrite bpow_opp, bpow_IZR in Hlo, Hhi by lia.
  assert (Hp : 0 < IZR (2 ^ Zpos p)) by (apply IZR_lt; apply Z.pow_pos_nonneg; lia).
  assert (Hlo' : (19999 * 2 ^ Zpos p <= 200 * Zpos mz)%Z).
  { apply le_IZR. rewrite !mult_IZR.
    apply Rmult_le_reg_r with (/ IZR (2 ^ Zpos p)); [apply Rinv_0_lt_compat; exact Hp |].
    rewrite Rmult_assoc, Rinv_r by lra. lra. }
  assert (Hhi' : (200 * Zpos mz < 20001 * 2 ^ Zpos p)%Z).
  { apply lt_IZR. rewrite !mult_IZR.
    apply Rmult_lt_reg_r with (/ IZR (2 ^ Zpos p)); [apply Rinv_0_lt_compat; exact Hp |].
    rewrite (Rmult_assoc 20001), Rinv_r by lra. lra. }
  assert (Hpow : (0 < 2 ^ Zpos p)%Z) by (apply Z.pow_pos_nonneg; lia).
  unfold toFixed.
  assert (Hbig : ge_1e21 mz (Z.neg p) = false).
  { unfold ge_1e21. apply Z.leb_gt. change (10 ^ 21)%Z with 1000000000000000000000%Z. lia. }
  rewrite Hbig.
  assert (Hn : fixed_scaled 2 mz (Z.neg p) = 10000%Z).
  { unfold fixed_scaled. change (10 ^ Z.of_nat 2)%Z with 100%Z.
    rewrite Z.pow_add_r by lia. change (2 ^ 1)%Z with 2%Z.
    symmetry. apply (Z.div_unique_pos _ _ 10000 (2 * (Zpos mz * 100) + 2 ^ Zpos p - 10000 * (2 ^ Zpos p * 2))); lia. }
  rewrite Hn. reflexivity.
Qed.

Lemma Number_100 : Number "100" = hundred.
Proof. vm_compute. reflexivity. Qed.

Lemma self_conversion_of_hundred (r : spec_float) :
  valid_binary prec emax r = true ->
  ltb pos_zero r = true ->
  ltb (mul hundred r) Infinity = true ->
  toFixed 2 (div (mul hundred r) r) = "100.00"%string.
Proof.
  intros Hvalid Hpos Hfin.
  destruct r as [sg | sg | | sg m e]; try destruct sg; try discriminate Hpos;
    try discriminate Hfin.
  cbn [valid_binary] in Hvalid.
  pose proof (mul_hundred_accurate m e Hvalid) as Hy.
  destruct (mul hundred (S754_finite false m e)) as [sy | sy | | sy my ey];
    try contradiction.
  - subst sy. discriminate Hfin.
  - destruct Hy as [-> [Hlo Hhi]].
    pose proof (F2R_pos m e) as Hr. pose proof (bpow_pos (-53)) as Hp.
    pose proof bpow_m53_small as Hs53. pose proof bpow_m47_small as Hs47.
    assert (HX : 100 * (1 - bpow (-53)) <= F2R my ey / F2R m e <= 100 * (1 + bpow (-53))).
    { split.
      - apply Rmult_le_reg_r with (F2R m e); [exact Hr |].
        replace (F2R my ey / F2R m e * F2R m e) with (F2R my ey) by (field; lra). lra.
      - apply Rmult_le_reg_r with (F2R m e); [exact Hr |].
        replace (F2R my ey / F2R m e * F2R m e) with (F2R my ey) by (field; lra). lra. }
    destruct (div_near_hundred my ey m e ltac:(lra)) as (mz & ez & Hz & Hez & Hnear).
    rewrite Hz. apply toFixed_near_hundred; [exact Hez | lra].
Qed.

(** Rounding of an exact mantissa: relative error 2^-53 in the normal
    range, absolute error 2^-1075 below it, overflow only from 2^971 on. *)
Lemma round_exact_error (sx : bool) (mx : positive) (ex : Z) :
  let X := IZR (Zpos mx) * bpow ex in
  let z := binary_round_aux prec emax sx (Zpos mx) ex loc_Exact in
  (is_finite z = true /\
   Rabs (SF2R z - signed sx X) <= X * bpow (-53) + bpow (-1075)) \/
  (z = S754_infinity sx /\ bpow 971 <= X).
Proof.
  intros X z. subst z.
  destruct (binary_round_aux_spec sx (Zpos mx) ex loc_Exact (IZR (Zpos mx)) ltac:(lia) eq_refl)
    as (m2 & Hm2 & Hnear & Hres).
  set (e1 := Z.max (fexp prec emax (Zdigits2 (Zpos mx) + ex)) ex) in *.
  fold X in Hnear.
  assert (HXpos : 0 < X).
  { unfold X. apply Rmult_lt_0_compat; [apply IZR_lt; lia | apply bpow_pos]. }
  assert (HX1 : IZR (Zpos mx) * bpow (ex - e1) * bpow e1 = X).
  { unfold X. rewrite Rmult_assoc, <- bpow_add. do 2 f_equal. lia. }
  pose proof (bpow_pos e1) as He1pos. pose proof (bpow_pos (-53)) as H53.
  pose proof (bpow_pos (-1075)) as H1075.
  assert (HX53 : 0 <= X * bpow (-53)) by (apply Rmult_le_pos; lra).
  (* the error of the scaled integer *)
  assert (Herr : Rabs (IZR m2 * bpow e1 - X) <= X * bpow (-53) + bpow (-1075) /\
                 ((971 <= e1)%Z -> bpow 971 <= X)).
  { destruct (Z.eq_dec e1 ex) as [Heq | Hneq].
    - (* nothing is shifted out *)
      assert (Hm : m2 = Zpos mx).
      { apply IZR_near. rewrite Heq, Z.sub_diag, bpow_0, Rmult_1_r in Hnear. lra. }
      split.
      + rewrite Hm, Heq. fold X. rewrite Rminus_diag, Rabs_R0. lra.
      + intros Hbig. unfold X. rewrite <- Heq.
        pose proof (bpow_le 971 e1 Hbig).
        assert (1 <= IZR (Zpos mx)) by (apply IZR_le; lia). nra.
    - assert (Hhalf : Rabs (IZR m2 * bpow e1 - X) <= bpow e1 / 2).
      { rewrite <- HX1. apply Rabs_le.
        destruct Hnear as [Hn1 Hn2].
        apply (Rmult_le_compat_r (bpow e1)) in Hn1; [| lra].
        apply (Rmult_le_compat_r (bpow e1)) in Hn2; [| lra].
        generalize dependent (bpow e1). generalize (IZR (Z.pos mx) * bpow (ex - e1)).
        intros; lra. }
      destruct (Z.eq_dec e1 (emin prec emax)) as [Hmin | Hnorm].
      + (* subnormal *)
        split.
        * assert (Hb : bpow e1 = 2 * bpow (-1075)).
          { rewrite Hmin. change (emin prec emax) with (-1075 + 1)%Z. apply bpow_succ. }
          lra.
        * intros Hbig. rewrite Hmin in Hbig. unfold emin, prec, emax in Hbig. lia.
      + (* normal *)
        assert (He1 : e1 = (Zdigits2 (Zpos mx) + ex - 53)%Z).
        { unfold e1, fexp, prec in *. lia. }
        assert (Hlow : bpow (e1 + 52) <= X).
        { pose proof (digits_lower mx) as Hd.
          replace (e1 + 52)%Z with (Zdigits2 (Zpos mx) - 1 + ex)%Z by lia.
          rewrite bpow_add. unfold X. pose proof (bpow_pos ex). nra. }
        assert (Hulp : bpow e1 / 2 = bpow (e1 + 52) * bpow (-53)).
        { rewrite <- bpow_add. replace (e1 + 52 + -53)%Z with (e1 + -1)%Z by lia.
          rewrite bpow_add, bpow_m1. lra. }
        split.
        * rewrite Hulp in Hhalf.
          apply (Rmult_le_compat_r (bpow (-53))) in Hlow; [| lra]. lra.
        * intros Hbig. pose proof (bpow_le 971 (e1 + 52) ltac:(lia)). lra. }
  destruct Herr as [Herr Hover].
  destruct (binary_round_aux prec emax sx (Zpos mx) ex loc_Exact) as [s | s | | s m e].
  - left. destruct Hres as [-> ->]. split; [reflexivity |].
    cbn [SF2R]. rewrite Rmult_0_l in Herr.
    unfold signed. destruct sx; [| exact Herr].
    replace (0 - - X) with (- (0 - X)) by ring. rewrite Rabs_Ropp. exact Herr.
  - right. destruct Hres as [-> Hbig]. split; [reflexivity |].
    apply Hover. unfold emax, prec in Hbig. lia.
  - contradiction.
  - left. destruct Hres as (-> & Hval & _ & _). split; [reflexivity |].
    cbn [SF2R]. unfold F2R. rewrite Hval.
    unfold signed. destruct sx; [| exact Herr].
    replace (- (IZR m2 * bpow e1) - - X) with (- (IZR m2 * bpow e1 - X)) by ring.
    rewrite Rabs_Ropp. exact Herr.
Qed.

Lemma iter_xO_value (m d : positive) :
  IZR (Zpos (Pos.iter xO m d)) = IZR (Zpos m) * bpow (Zpos d).
Proof.
  change (Pos.iter xO m d) with (shift_pos d m).
  rewrite shift_pos_correct, mult_IZR, Zpower_pos_nat, Zpower_nat_Z,
    positive_nat_Z, <- bpow_IZR by lia. ring.
Qed.

Lemma shl_align_value (m : positive) (e e' : Z) :
  IZR (Zpos (fst (shl_align m e e'))) * bpow (snd (shl_align m e e')) =
  IZR (Zpos m) * bpow e.
Proof.
  unfold shl_align. destruct (e' - e)%Z as [| d | d] eqn:E; cbn [fst snd];
    try reflexivity.
  rewrite iter_xO_value, Rmult_assoc, <- bpow_add. do 2 f_equal. lia.
Qed.

Lemma shl_align_exponent (m : positive) (e e' : Z) :
  (e' <= e)%Z -> snd (shl_align m e e') = e'.
Proof.
  intros H. unfold shl_align. destruct (e' - e)%Z as [| d | d] eqn:E; cbn [snd]; lia.
Qed.

Lemma binary_round_error (sx : bool) (mx : positive) (ex : Z) :
  let X := IZR (Zpos mx) * bpow ex in
  let z := binary_round prec emax sx mx ex in
  (is_finite z = true /\
   Rabs (SF2R z - signed sx X) <= X * bpow (-53) + bpow (-1075)) \/
  (z = S754_infinity sx /\ bpow 971 <= X).
Proof.
  intros X z. subst z. unfold binary_round.
  pose proof (shl_align_value mx ex (fexp prec emax (Zpos (digits2_pos mx) + ex))) as Hv.
  destruct (shl_align mx ex (fexp prec emax (Zpos (digits2_pos mx) + ex))) as [mz ez].
  cbn [fst snd] in Hv. fold X in Hv. rewrite <- Hv.
  apply round_exact_error.
Qed.

Lemma binary_normalize_error (m e : Z) :
  let V := IZR m * bpow e in
  let z := binary_normalize prec emax m e false in
  (is_finite z = true /\
   Rabs (SF2R z - V) <= Rabs V * bpow (-53) + bpow (-1075)) \/
  (is_finite z = false /\ bpow 971 <= Rabs V).
Proof.
  intros V z. subst z V. pose proof (bpow_pos e) as He.
  pose proof (bpow_pos (-1075)) as H1075.
  destruct m as [| p | p]; cbn [binary_normalize].
  - left. split; [reflexivity |]. cbn [SF2R].
    rewrite Rmult_0_l, Rminus_diag, Rabs_R0, Rmult_0_l. lra.
  - assert (Hpos : 0 < IZR (Zpos p) * bpow e)
      by (apply Rmult_lt_0_compat; [apply IZR_lt; lia | exact He]).
    rewrite (Rabs_pos_eq (IZR (Zpos p) * bpow e)) by lra.
    destruct (binary_round_error false p e) as [[Hf Herr] | [Hinf Hbig]].
    + left. split; assumption.
    + right. rewrite Hinf. split; [reflexivity | exact Hbig].
  - assert (Hpos : 0 < IZR (Zpos p) * bpow e)
      by (apply Rmult_lt_0_compat; [apply IZR_lt; lia | exact He]).
    change (Z.neg p) with (- Zpos p)%Z. rewrite opp_IZR.
    replace (- IZR (Zpos p) * bpow e) with (- (IZR (Zpos p) * bpow e)) by ring.
    rewrite Rabs_Ropp, (Rabs_pos_eq (IZR (Zpos p) * bpow e)) by lra.
    destruct (binary_round_error true p e) as [[Hf Herr] | [Hinf Hbig]].
    + left. split; assumption.
    + right. rewrite Hinf. split; [reflexivity | exact Hbig].
Qed.

Lemma cond_Zopp_value (s : bool) (m : positive) (e e' : Z) :
  (e' <= e)%Z ->
  IZR (cond_Zopp s (Zpos (fst (shl_align m e e')))) * bpow e' =
  SF2R (S754_finite s m e).
Proof.
  intros H. pose proof (shl_align_value m e e') as Hv.
  rewrite (shl_align_exponent m e e' H) in Hv.
  cbn [SF2R]. unfold F2R. rewrite <- Hv.
  destruct s; cbn [cond_Zopp]; [| reflexivity].
  rewrite opp_IZR. ring.
Qed.

(** Addition and subtraction round the exact sum. *)
Lemma add_error (x y : spec_float) :
  is_finite x = true -> is_finite y = true ->
  let V := SF2R x + SF2R y in
  (is_finite (add x y) = true /\
   Rabs (SF2R (add x y) - V) <= Rabs V * bpow (-53) + bpow (-1075)) \/
  (is_finite (add x y) = false /\ bpow 971 <= Rabs V).
Proof.
  intros Hx Hy V. subst V.
  pose proof (bpow_pos (-1075)) as H1075. pose proof (bpow_pos (-53)) as H53.
  assert (Hexact : forall z v, is_finite z = true -> SF2R z = v ->
            (is_finite z = true /\
             Rabs (SF2R z - v) <= Rabs v * bpow (-53) + bpow (-1075)) \/
            (is_finite z = false /\ bpow 971 <= Rabs v)).
  { intros z v Hz <-. left. split; [exact Hz |].
    rewrite Rminus_diag, Rabs_R0. pose proof (Rabs_pos (SF2R z)). nra. }
  destruct x as [sx | sx | | sx mx ex]; try discriminate Hx;
    destruct y as [sy | sy | | sy my ey]; try discriminate Hy.
  - apply Hexact; [destruct sx, sy; reflexivity |].
    destruct sx, sy; cbv [add SFadd SF2R]; lra.
  - apply Hexact; [reflexivity | cbv [add SFadd SF2R]; lra].
  - apply Hexact; [reflexivity | cbv [add SFadd SF2R]; lra].
  - unfold add, SFadd.
    set (ez := Z.min ex ey).
    rewrite <- (cond_Zopp_value sx mx ex ez) by (unfold ez; lia).
    rewrite <- (cond_Zopp_value sy my ey ez) by (unfold ez; lia).
    rewrite <- Rmult_plus_distr_r, <- plus_IZR.
    apply binary_normalize_error.
Qed.

Lemma sub_error (x y : spec_float) :
  is_finite x = true -> is_finite y = true ->
  let V := SF2R x - SF2R y in
  (is_finite (sub x y) = true /\
   Rabs (SF2R (sub x y) - V) <= Rabs V * bpow (-53) + bpow (-1075)) \/
  (is_finite (sub x y) = false /\ bpow 971 <= Rabs V).
Proof.
  intros Hx Hy V. subst V.
  pose proof (bpow_pos (-1075)) as H1075. pose proof (bpow_pos (-53)) as H53.
  assert (Hexact : forall z v, is_finite z = true -> SF2R z = v ->
            (is_finite z = true /\
             Rabs (SF2R z - v) <= Rabs v * bpow (-53) + bpow (-1075)) \/
            (is_finite z = false /\ bpow 971 <= Rabs v)).
  { intros z v Hz <-. left. split; [exact Hz |].
    rewrite Rminus_diag, Rabs_R0. pose proof (Rabs_pos (SF2R z)). nra. }
  destruct x as [sx | sx | | sx mx ex]; try discriminate Hx;
    destruct y as [sy | sy | | sy my ey]; try discriminate Hy.
  - apply Hexact; [destruct sx, sy; reflexivity |].
    destruct sx, sy; cbv [sub SFsub SF2R]; lra.
  - apply Hexact; [reflexivity |]. cbv [sub SFsub SF2R negb]. destruct sy; lra.
  - apply Hexact; [reflexivity | cbv [sub SFsub SF2R]; lra].
  - unfold sub, SFsub.
    set (ez := Z.min ex ey).
    rewrite <- (cond_Zopp_value sx mx ex ez) by (unfold ez; lia).
    rewrite <- (cond_Zopp_value sy my ey ez) by (unfold ez; lia).
    rewrite <- Rmult_minus_distr_r, <- minus_IZR.
    apply binary_normalize_error.
Qed.

(** Multiplication rounds the exact product. *)
Lemma mul_error (x y : spec_float) :
  is_finite x = true -> is_finite y = true ->
  let V := SF2R x * SF2R y in
  (is_finite (mul x y) = true /\
   Rabs (SF2R (mul x y) - V) <= Rabs V * bpow (-53) + bpow (-1075)) \/
  (is_finite (mul x y) = false /\ bpow 971 <= Rabs V).
Proof.
  intros Hx Hy V. subst V.
  pose proof (bpow_pos (-1075)) as H1075. pose proof (bpow_pos (-53)) as H53.
  destruct x as [sx | sx | | sx mx ex]; try discriminate Hx;
    destruct y as [sy | sy | | sy my ey]; try discriminate Hy;
    try (left; split; [reflexivity |]; cbv [mul SFmul SF2R];
         rewrite ?Rmult_0_l, ?Rmult_0_r, Rminus_diag, Rabs_R0, Rmult_0_l; lra).
  unfold mul, SFmul.
  assert (HV : SF2R (S754_finite sx mx ex) * SF2R (S754_finite sy my ey) =
               signed (xorb sx sy) (IZR (Zpos (mx * my)) * bpow (ex + ey))).
  { cbn [SF2R]. unfold F2R, signed. rewrite Pos2Z.inj_mul, mult_IZR, bpow_add.
    destruct sx, sy; cbn [xorb]; ring. }
  assert (Hpos : 0 < IZR (Zpos (mx * my)) * bpow (ex + ey))
    by (apply Rmult_lt_0_compat; [apply IZR_lt; lia | apply bpow_pos]).
  assert (Habs : Rabs (SF2R (S754_finite sx mx ex) * SF2R (S754_finite sy my ey)) =
                 IZR (Zpos (mx * my)) * bpow (ex + ey)).
  { rewrite HV. unfold signed. destruct (xorb sx sy).
    - rewrite Rabs_Ropp. apply Rabs_pos_eq. lra.
    - apply Rabs_pos_eq. lra. }
  rewrite Habs, HV.
  destruct (round_exact_error (xorb sx sy) (mx * my) (ex + ey)) as [[Hf Herr] | [Hinf Hbig]].
  - left. split; assumption.
  - right. rewrite Hinf. split; [reflexivity | exact Hbig].
Qed.

(** The nearest binary64 value to a ratio in the normal range. *)
Lemma of_ratio_error (sg : bool) (p d : positive) :
  let X := IZR (Zpos p) / IZR (Zpos d) in
  bpow (-1000) <= X -> X <= bpow 900 ->
  is_finite (of_ratio sg p 0 d) = true /\
  Rabs (SF2R (of_ratio sg p 0 d) - signed sg X) <= X * bpow (-53).
Proof.
  intros X Hlo Hhi. unfold of_ratio.
  pose proof (div_core_located p d 0 0) as Hcore.
  destruct (SFdiv_core_binary prec emax (Zpos p) 0 (Zpos d) 0) as [[q e'] l].
  destruct Hcore as (Hq & Hloc & He').
  rewrite bpow_0, !Rmult_1_r in Hloc. fold X in Hloc.
  rewrite !Z.add_0_r in He'.
  assert (HXpos : 0 < X) by (pose proof (bpow_pos (-1000)); lra).
  pose proof (bpow_pos (-52)) as H52.
  (* every candidate exponent is at most 52 binades below X *)
  assert (Hmin : bpow (emin prec emax) <= X * bpow (-52)).
  { apply Rle_trans with (bpow (-1000) * bpow (-52)); [| nra].
    rewrite <- bpow_add. apply bpow_le. unfold emin, prec, emax. lia. }
  assert (Hquot : bpow (Zdigits2 (Zpos p) - Zdigits2 (Zpos d) - 53) <= X * bpow (-52)).
  { replace (Zdigits2 (Zpos p) - Zdigits2 (Zpos d) - 53)%Z
      with ((Zdigits2 (Zpos p) - 1) + - Zdigits2 (Zpos d) + -52)%Z by lia.
    rewrite !bpow_add, bpow_opp.
    pose proof (digits_lower p) as Hp. pose proof (digits_upper (Zpos d) ltac:(lia)) as Hd.
    assert (Hdpos : 0 < IZR (Zpos d)) by (apply IZR_lt; lia).
    pose proof (bpow_pos (Zdigits2 (Zpos d))) as Hbd.
    pose proof (bpow_pos (Zdigits2 (Zpos p) - 1)) as Hbp.
    apply Rmult_le_compat_r; [lra |].
    unfold X, Rdiv.
    apply Rmult_le_compat; try lra.
    - apply Rlt_le, Rinv_0_lt_compat. exact Hbd.
    - apply Rinv_le_contravar; lra. }
  assert (He'X : bpow e' <= X * bpow (-52)).
  { apply Rle_trans with (bpow (fexp prec emax (Zdigits2 (Zpos p) - Zdigits2 (Zpos d))));
      [apply bpow_le; exact He' |].
    unfold fexp. destruct (Z.max_spec (Zdigits2 (Zpos p) - Zdigits2 (Zpos d) - prec)
                             (emin prec emax)) as [[_ ->] | [_ ->]]; assumption. }
  pose proof (inbetween_bounds _ _ _ Hloc) as Hqb.
  assert (HqX : bpow (Zdigits2 q + e' - 53) <= X * bpow (-52)).
  { destruct q as [| pq | pq]; [| | lia].
    - cbn [Zdigits2]. apply Rle_trans with (bpow e'); [apply bpow_le; lia | exact He'X].
    - replace (Zdigits2 (Zpos pq) + e' - 53)%Z
        with ((Zdigits2 (Zpos pq) - 1) + e' + -52)%Z by lia.
      rewrite !bpow_add. pose proof (digits_lower pq) as Hd.
      assert (Hone : bpow (- e') * bpow e' = 1)
        by (rewrite <- bpow_add, Z.add_opp_diag_l; reflexivity).
      pose proof (bpow_pos e') as Hbe.
      apply Rmult_le_compat_r; [lra |].
      apply Rle_trans with (X * bpow (- e') * bpow e'); [| rewrite Rmult_assoc, Hone; lra].
      apply Rmult_le_compat_r; lra. }
  destruct (binary_round_aux_spec sg q e' l (X * bpow (- e')) Hq Hloc)
    as (m2 & Hm2 & Hnear & Hres).
  set (e1 := Z.max (fexp prec emax (Zdigits2 q + e')) e') in *.
  assert (He1X : bpow e1 <= X * bpow (-52)).
  { unfold e1, fexp.
    destruct (Z.max_spec (Z.max (Zdigits2 q + e' - prec) (emin prec emax)) e')
      as [[_ ->] | [_ ->]]; [exact He'X |].
    destruct (Z.max_spec (Zdigits2 q + e' - prec) (emin prec emax))
      as [[_ ->] | [_ ->]]; assumption. }
  replace (X * bpow (- e') * bpow (e' - e1)) with (X * bpow (- e1)) in Hnear
    by (rewrite Rmult_assoc, <- bpow_add; do 2 f_equal; lia).
  pose proof (bpow_pos e1) as Hbe1.
  assert (Hone : bpow (- e1) * bpow e1 = 1)
    by (rewrite <- bpow_add, Z.add_opp_diag_l; reflexivity).
  assert (H5253 : bpow (-52) = 2 * bpow (-53)).
  { change (-52)%Z with (-53 + 1)%Z. apply bpow_succ. }
  assert (Hscaled : X * bpow (- e1) * bpow e1 = X) by (rewrite Rmult_assoc, Hone; lra).
  assert (Herr : Rabs (IZR m2 * bpow e1 - X) <= X * bpow (-53)).
  { apply Rabs_le. destruct Hnear as [Hn1 Hn2].
    apply (Rmult_le_compat_r (bpow e1)) in Hn1; [| lra].
    apply (Rmult_le_compat_r (bpow e1)) in Hn2; [| lra].
    rewrite Rmult_minus_distr_r, Hscaled in Hn1.
    rewrite Rmult_plus_distr_r, Hscaled in Hn2.
    rewrite H5253 in He1X. lra. }
  assert (Hbig52 : 2 <= bpow 52).
  { rewrite bpow_IZR by lia. apply IZR_le. vm_compute. discriminate. }
  assert (Hm2big : 1 <= IZR m2).
  { assert (bpow 52 <= X * bpow (- e1)).
    { apply Rmult_le_reg_r with (bpow e1); [exact Hbe1 |].
      rewrite Hscaled.
      apply Rmult_le_reg_r with (bpow (-52)); [exact H52 |].
      replace (bpow 52 * bpow e1 * bpow (-52)) with (bpow e1 * (bpow 52 * bpow (-52))) by ring.
      rewrite <- bpow_add. change (52 + -52)%Z with 0%Z. rewrite bpow_0. lra. }
    lra. }
  destruct (binary_round_aux prec emax sg q e' l) as [s | s | | s m e].
  - destruct Hres as [_ ->]. lra.
  - destruct Hres as [_ Hover]. exfalso.
    pose proof (bpow_le 971 e1 ltac:(unfold emax, prec in Hover; lia)) as H971.
    assert (bpow 952 < bpow 971) by (apply bpow_lt; lia).
    assert (bpow 900 * bpow (-52) <= bpow 952).
    { rewrite <- bpow_add. apply bpow_le. lia. }
    assert (X * bpow (-52) <= bpow 900 * bpow (-52)) by (apply Rmult_le_compat_r; lra).
    lra.
  - contradiction.
  - destruct Hres as (-> & Hval & _ & _). split; [reflexivity |].
    cbn [SF2R]. unfold F2R. rewrite Hval. unfold signed.
    destruct sg; [| exact Herr].
    replace (- (IZR m2 * bpow e1) - - X) with (- (IZR m2 * bpow e1 - X)) by ring.
    rewrite Rabs_Ropp. exact Herr.
Qed.

(** A canonical mantissa has at most 53 bits, and exactly 53 above the
    smallest exponent. *)
Lemma bounded_mantissa (m : positive) (e : Z) :
  bounded prec emax m e = true ->
  IZR (Zpos m) < bpow 53 /\
  ((emin prec emax < e)%Z -> bpow 52 <= IZR (Zpos m)).
Proof.
  unfold bounded, canonical_mantissa. intros H.
  apply andb_true_iff in H. destruct H as [H _]. apply Z.eqb_eq in H.
  unfold fexp, prec in H. change IntDef.Z.max with Z.max in H.
  pose proof (digits_upper (Zpos m) ltac:(lia)) as Hu.
  pose proof (digits_lower m) as Hl. cbn [Zdigits2] in Hu, Hl.
  split.
  - pose proof (bpow_le (Zpos (digits2_pos m)) 53 ltac:(lia)) as Hle.
    apply Rlt_le_trans with (bpow (Zpos (digits2_pos m))); [lra | exact Hle].
  - intros He. unfold prec in He.
    replace 52%Z with (Zpos (digits2_pos m) - 1)%Z by lia. exact Hl.
Qed.

(** Canonical positive values are ordered by exponent, then mantissa. *)
Lemma F2R_lt_exponent (m1 m2 : positive) (e1 e2 : Z) :
  bounded prec emax m1 e1 = true -> bounded prec emax m2 e2 = true ->
  (e1 < e2)%Z -> F2R m1 e1 < F2R m2 e2.
Proof.
  intros H1 H2 He. pose proof (bounded_emin m1 e1 H1) as Hmin.
  destruct (bounded_mantissa m1 e1 H1) as [Hm1 _].
  destruct (bounded_mantissa m2 e2 H2) as [_ Hm2]. specialize (Hm2 ltac:(lia)).
  unfold F2R.
  pose proof (bpow_pos e1) as Hb1. pose proof (bpow_pos e2) as Hb2.
  assert (Hstep : bpow 53 * bpow e1 <= bpow 52 * bpow e2).
  { rewrite <- !bpow_add. apply bpow_le. lia. }
  apply Rlt_le_trans with (bpow 53 * bpow e1); [apply Rmult_lt_compat_r; lra |].
  apply Rle_trans with (bpow 52 * bpow e2); [exact Hstep |].
  apply Rmult_le_compat_r; lra.
Qed.

Lemma compare_positive (m1 m2 : positive) (e1 e2 : Z) :
  bounded prec emax m1 e1 = true -> bounded prec emax m2 e2 = true ->
  match SFcompare (S754_finite false m1 e1) (S754_finite false m2 e2) with
  | Some Lt => F2R m1 e1 < F2R m2 e2
  | Some Eq => F2R m1 e1 = F2R m2 e2
  | Some Gt => F2R m2 e2 < F2R m1 e1
  | None => False
  end.
Proof.
  intros H1 H2. cbn [SFcompare].
  change (IntDef.Z.compare e1 e2) with (Z.compare e1 e2).
  destruct (Z.compare_spec e1 e2) as [-> | Hlt | Hgt].
  - change (PosDef.Pos.compare_cont Eq m1 m2) with (Pos.compare m1 m2).
    unfold F2R. pose proof (bpow_pos e2) as Hb.
    destruct (Pos.compare_spec m1 m2) as [-> | Hlt | Hgt].
    + reflexivity.
    + apply Rmult_lt_compat_r; [exact Hb | apply IZR_lt; lia].
    + apply Rmult_lt_compat_r; [exact Hb | apply IZR_lt; lia].
  - apply F2R_lt_exponent; assumption.
  - apply F2R_lt_exponent; assumption || lia.
Qed.

(** On genuine binary64 values the comparisons of the program are those
    of the real values. *)
Lemma compare_real (x y : spec_float) :
  valid_binary prec emax x = true -> valid_binary prec emax y = true ->
  is_finite x = true -> is_finite y = true ->
  match SFcompare x y with
  | Some Lt => SF2R x < SF2R y
  | Some Eq => SF2R x = SF2R y
  | Some Gt => SF2R y < SF2R x
  | None => False
  end.
Proof.
  intros Vx Vy Fx Fy.
  destruct x as [sx | sx | | sx mx ex]; try discriminate Fx;
    destruct y as [sy | sy | | sy my ey]; try discriminate Fy;
    cbn [valid_binary] in Vx, Vy.
  - reflexivity.
  - pose proof (F2R_pos my ey). cbn [SFcompare SF2R]. destruct sy; lra.
  - pose proof (F2R_pos mx ex). cbn [SFcompare SF2R]. destruct sx; lra.
  - pose proof (F2R_pos mx ex). pose proof (F2R_pos my ey).
    destruct sx, sy.
    + pose proof (compare_positive my mx ey ex Vy Vx) as Hc.
      cbn [SFcompare SF2R] in *.
      change (IntDef.Z.compare ey ex) with (Z.compare ey ex) in Hc.
      change (IntDef.Z.compare ex ey) with (Z.compare ex ey).
      rewrite (Z.compare_antisym ey ex).
      change (PosDef.Pos.compare_cont Eq my mx) with (Pos.compare my mx) in Hc.
      change (PosDef.Pos.compare_cont Eq mx my) with (Pos.compare mx my).
      rewrite (Pos.compare_antisym my mx).
      destruct (Z.compare ey ex); cbn [CompOpp] in *; try lra.
      destruct (Pos.compare my mx); cbn [CompOpp] in *; lra.
    + cbn [SFcompare SF2R]. lra.
    + cbn [SFcompare SF2R]. lra.
    + exact (compare_positive mx my ex ey Vx Vy).
Qed.

Close Scope R_scope.

(** [toFixed] picks the integer nearest to the value scaled by [10^f], the
    larger one on a tie. *)
Lemma fixed_scaled_near (f : nat) (m : positive) (e : Z) :
  (- / 2 < IZR (fixed_scaled f m e) - IZR (10 ^ Z.of_nat f) * F2R m e <= / 2)%R.
Proof.
  unfold fixed_scaled, F2R.
  set (a := (Zpos m * 10 ^ Z.of_nat f)%Z).
  assert (Ha : (IZR (10 ^ Z.of_nat f) * (IZR (Zpos m) * bpow e) = IZR a * bpow e)%R).
  { unfold a. rewrite mult_IZR. ring. }
  rewrite Ha. clear Ha. clearbody a. destruct e as [| p | p].
  - change (2 ^ 0)%Z with 1%Z. rewrite Z.mul_1_r, bpow_0. lra.
  - rewrite mult_IZR, <- bpow_IZR by lia. lra.
  - assert (Hpow : (0 < 2 ^ Zpos p)%Z) by (apply Z.pow_pos_nonneg; lia).
    assert (Hp : (0 < IZR (2 ^ Zpos p))%R) by (apply IZR_lt; exact Hpow).
    change (Z.neg p) with (- Zpos p)%Z. rewrite bpow_opp, bpow_IZR by lia.
    rewrite Z.pow_add_r by lia. change (2 ^ 1)%Z with 2%Z.
    set (d := (2 ^ Zpos p)%Z) in *.
    pose proof (Z_div_mod_eq_full (2 * a + d) (d * 2)) as Hdiv.
    pose proof (Z.mod_pos_bound (2 * a + d) (d * 2) ltac:(lia)) as Hmod.
    set (n := ((2 * a + d) / (d * 2))%Z) in *.
    assert (H1 : (n * (d * 2) <= 2 * a + d)%Z) by lia.
    assert (H2 : (2 * a + d < (n + 1) * (d * 2))%Z) by lia.
    apply IZR_le in H1. apply IZR_lt in H2.
    repeat (rewrite plus_IZR in H1 || rewrite mult_IZR in H1).
    repeat (rewrite plus_IZR in H2 || rewrite mult_IZR in H2).
    assert (Hq : ((IZR n - IZR a * / IZR d) * IZR d = IZR n * IZR d - IZR a)%R)
      by (field; lra).
    split.
    + apply Rmult_lt_reg_r with (IZR d); [exact Hp |]. rewrite Hq. lra.
    + apply Rmult_le_reg_r with (IZR d); [exact Hp |]. rewrite Hq. lra.
Qed.

(** ** Reading back what [toFixed] prints *)

Lemma read_digits_all (l rest : list ascii) :
  forallb dec_digit l = true -> no_digit_ahead rest ->
  forall acc cnt,
    read_digits 10 (l ++ rest) acc cnt =
    (digits_value l acc, (cnt + List.length l)%nat, rest).
Proof.
  intros Hl Hrest. induction l as [| c l IH]; intros acc cnt.
  - cbn [app digits_value fold_left List.length]. rewrite Nat.add_0_r.
    destruct rest as [| c r]; [reflexivity |].
    unfold no_digit_ahead, dec_digit in Hrest.
    destruct (digit_value 10 c) eqn:E; [discriminate |].
    rewrite ?app_nil_l. cbn [read_digits]. rewrite E. reflexivity.
  - cbn [forallb] in Hl. apply andb_true_iff in Hl. destruct Hl as [Hc Hl].
    unfold dec_digit in Hc.
    destruct (digit_value 10 c) as [d |] eqn:E; [| discriminate].
    rewrite <- ?app_comm_cons. cbn [app read_digits]. rewrite E, (IH Hl).
    unfold digits_value. cbn [fold_left List.length]. rewrite E.
    do 2 f_equal. lia.
Qed.

Lemma digits_value_app (l1 l2 : list ascii) (acc : Z) :
  digits_value (l1 ++ l2) acc = digits_value l2 (digits_value l1 acc).
Proof. unfold digits_value. apply fold_left_app. Qed.

Lemma dec_digit_cases (c : ascii) :
  dec_digit c = true ->
  In c ["0"; "1"; "2"; "3"; "4"; "5"; "6"; "7"; "8"; "9"]%char.
Proof.
  destruct c as [[|] [|] [|] [|] [|] [|] [|] [|]]; intros H;
    try discriminate H; cbn; tauto.
Qed.

(** The digits of a [Decimal.uint]. *)
Lemma uint_digits (d : uint) :
  forallb dec_digit (list_ascii_of_string (NilEmpty.string_of_uint d)) = true /\
  forall acc : positive,
    digits_value (list_ascii_of_string (NilEmpty.string_of_uint d)) (Zpos acc) =
    Zpos (Pos.of_uint_acc d acc).
Proof.
  induction d as [| d [IH1 IH2] | d [IH1 IH2] | d [IH1 IH2] | d [IH1 IH2] | d [IH1 IH2]
                  | d [IH1 IH2] | d [IH1 IH2] | d [IH1 IH2] | d [IH1 IH2] | d [IH1 IH2]];
    (split; [try exact IH1; reflexivity |]); intros acc;
    try reflexivity;
    cbn [NilEmpty.string_of_uint list_ascii_of_string Pos.of_uint_acc];
    unfold digits_value; cbn [fold_left];
    change (fold_left ?f ?l ?a) with (digits_value l a);
    rewrite <- IH2; f_equal;
    match goal with
    | |- context [digit_value 10 ?c] =>
        let v := eval vm_compute in (digit_value 10 c) in
        change (digit_value 10 c) with v
    end; cbv iota; lia.
Qed.

Lemma uint_value (d : uint) :
  digits_value (list_ascii_of_string (NilEmpty.string_of_uint d)) 0 =
  Z.of_N (N.of_uint d).
Proof.
  induction d as [| d IH | d _ | d _ | d _ | d _ | d _ | d _ | d _ | d _ | d _];
    try reflexivity;
    cbn [NilEmpty.string_of_uint list_ascii_of_string N.of_uint Pos.of_uint Z.of_N];
    unfold digits_value; cbn [fold_left];
    change (fold_left ?f ?l ?a) with (digits_value l a);
    match goal with
    | |- context [digit_value 10 ?c] =>
        let v := eval vm_compute in (digit_value 10 c) in
        change (digit_value 10 c) with v
    end; cbv iota; change (0 * 10 + ?k) with k;
    [exact IH | ..]; apply (proj2 (uint_digits d)).
Qed.

(** The decimal digits printed for a natural number. *)
Lemma digits_of_Z_spec (n : Z) :
  (0 <= n)%Z ->
  let l := list_ascii_of_string (digits_of_Z n) in
  l <> [] /\ forallb dec_digit l = true /\ digits_value l 0 = n.
Proof.
  intros Hn l. subst l. unfold digits_of_Z.
  pose proof (DecimalN.Unsigned.of_to (Z.to_N n)) as Hof.
  assert (Hnz : NilZero.string_of_uint (N.to_uint (Z.to_N n)) =
                NilEmpty.string_of_uint (N.to_uint (Z.to_N n)) /\
                N.to_uint (Z.to_N n) <> Nil).
  { destruct (Z.to_N n) as [| p]; [split; [reflexivity | discriminate] |].
    cbn [N.to_uint]. pose proof (DecimalPos.Unsigned.to_uint_nonnil p) as Hp.
    destruct (Pos.to_uint p); [contradiction | ..]; split; try reflexivity; discriminate. }
  destruct Hnz as [-> Hnil].
  split; [| split].
  - destruct (N.to_uint (Z.to_N n)); [contradiction | ..]; discriminate.
  - apply (proj1 (uint_digits _)).
  - rewrite uint_value, Hof. lia.
Qed.

(** Strings as lists of characters. *)
Lemma list_of_append (s1 s2 : string) :
  list_ascii_of_string (s1 ++ s2) =
  (list_ascii_of_string s1 ++ list_ascii_of_string s2)%list.
Proof. induction s1 as [| c s1 IH]; simpl; [reflexivity | rewrite IH; reflexivity]. Qed.

Lemma list_of_substring (s : string) :
  forall i j, list_ascii_of_string (substring i j s) =
              firstn j (skipn i (list_ascii_of_string s)).
Proof.
  induction s as [| c s IH]; intros i j.
  - destruct i, j; reflexivity.
  - destruct i as [| i].
    + destruct j as [| j]; [reflexivity |]. cbn. rewrite IH. reflexivity.
    + cbn. apply IH.
Qed.

Lemma length_list_of_string (s : string) :
  List.length (list_ascii_of_string s) = String.length s.
Proof. induction s as [| c s IH]; cbn; [reflexivity | rewrite IH; reflexivity]. Qed.

Lemma list_of_zeros (k : nat) :
  list_ascii_of_string (zeros k) = repeat "0"%char k.
Proof. induction k as [| k IH]; cbn; [reflexivity | rewrite IH; reflexivity]. Qed.

Lemma zeros_digits (k : nat) :
  forallb dec_digit (repeat "0"%char k) = true /\
  digits_value (repeat "0"%char k) 0 = 0.
Proof.
  induction k as [| k [IH1 IH2]]; [split; reflexivity |].
  split; [cbn [repeat forallb]; rewrite IH1; reflexivity |].
  cbn [repeat]. exact IH2.
Qed.

(** [n] printed with two decimals: digits, a point, two digits. *)
Lemma fixed_digits_spec (n : Z) :
  (0 <= n)%Z ->
  exists a b : list ascii,
    list_ascii_of_string (fixed_digits 2 n) = (a ++ "."%char :: b)%list /\
    a <> [] /\ forallb dec_digit a = true /\ forallb dec_digit b = true /\
    List.length b = 2%nat /\ digits_value (a ++ b) 0 = n.
Proof.
  intros Hn. destruct (digits_of_Z_spec n Hn) as (Hne & Hdec & Hval).
  unfold fixed_digits.
  set (m := digits_of_Z n) in *.
  set (m' := if (String.length m <=? 2)%nat then zeros (2 + 1 - String.length m) ++ m else m).
  set (l' := list_ascii_of_string m').
  assert (Hl' : (3 <= List.length l')%nat /\ forallb dec_digit l' = true /\
                digits_value l' 0 = n).
  { unfold l', m'. destruct (Nat.leb_spec (String.length m) 2) as [Hle | Hgt].
    - rewrite list_of_append, list_of_zeros.
      destruct (zeros_digits (2 + 1 - String.length m)) as [Hz1 Hz2].
      rewrite length_app, repeat_length, length_list_of_string, forallb_app,
        digits_value_app, Hz1, Hz2, Hdec, Hval.
      split; [lia | split; reflexivity].
    - rewrite length_list_of_string. split; [lia | split; assumption]. }
  destruct Hl' as (Hlen & Hdec' & Hval').
  rewrite <- (length_list_of_string m'). fold l'.
  exists (firstn (List.length l' - 2) l'), (skipn (List.length l' - 2) l').
  rewrite !list_of_append, !list_of_substring. fold l'.
  cbn [skipn list_ascii_of_string app].
  assert (Hb : List.length (skipn (List.length l' - 2) l') = 2%nat)
    by (rewrite length_skipn; lia).
  rewrite (firstn_all2 (n := 2) (skipn (List.length l' - 2) l')) by lia.
  rewrite firstn_skipn.
  rewrite <- (firstn_skipn (List.length l' - 2) l'), forallb_app in Hdec'.
  apply andb_true_iff in Hdec'. destruct Hdec' as [Ha Hbd].
  repeat split; try assumption.
  intros Hnil. apply (f_equal (@List.length ascii)) in Hnil.
  rewrite length_firstn in Hnil. cbn in Hnil. lia.
Qed.

Lemma white_prefix_digit (c : ascii) (r : list ascii) :
  dec_digit c = true \/ c = "-"%char -> white_prefix (c :: r) = None.
Proof.
  intros [H | ->]; [| reflexivity].
  apply dec_digit_cases in H. cbn [In] in H.
  repeat (destruct H as [<- | H]; [reflexivity |]). contradiction.
Qed.

Lemma skip_white_digit (c : ascii) (r : list ascii) :
  dec_digit c = true \/ c = "-"%char ->
  skip_white (List.length (c :: r)) (c :: r) = c :: r.
Proof.
  intros H. cbn [List.length skip_white]. rewrite (white_prefix_digit c r H).
  reflexivity.
Qed.

Lemma not_infinity_digit (c : ascii) (r : list ascii) :
  dec_digit c = true ->
  String.eqb (string_of_list_ascii (firstn 8 (c :: r))) "Infinity" = false.
Proof.
  intros H. apply dec_digit_cases in H. cbn [In] in H.
  cbn [firstn string_of_list_ascii].
  repeat (destruct H as [<- | H]; [reflexivity |]). contradiction.
Qed.

(** Reading digits, a point and digits. *)
Lemma read_unsigned_decimal_point (sg : bool) (a b : list ascii) :
  a <> [] -> forallb dec_digit a = true -> forallb dec_digit b = true ->
  read_unsigned_decimal sg (a ++ "."%char :: b) =
  of_decimal sg (digits_value (a ++ b) 0) (- Z.of_nat (List.length b)).
Proof.
  intros Ha Hda Hdb. unfold read_unsigned_decimal.
  destruct a as [| c0 a']; [contradiction |].
  assert (Hc0 : dec_digit c0 = true).
  { cbn [forallb] in Hda. apply andb_true_iff in Hda. apply Hda. }
  rewrite <- app_comm_cons, (not_infinity_digit c0 _ Hc0), app_comm_cons.
  rewrite (read_digits_all (c0 :: a') ("."%char :: b) Hda eq_refl).
  rewrite <- (app_nil_r b) at 1.
  rewrite (read_digits_all b [] Hdb I).
  cbn [Nat.add List.length]. cbv [read_exponent only_white skip_white List.length].
  rewrite digits_value_app. f_equal; lia.
Qed.

Lemma Number_of_digit_list (sg : bool) (s : string) (c0 : ascii) (r : list ascii) :
  list_ascii_of_string s = ((if sg then ["-"%char] else []) ++ c0 :: r)%list ->
  dec_digit c0 = true ->
  match r with
  | [] => True
  | c1 :: _ => dec_digit c1 = true \/ c1 = "."%char
  end ->
  Number s = read_unsigned_decimal sg (c0 :: r).
Proof.
  intros Hs Hc0 Hr. unfold Number. rewrite Hs.
  destruct sg.
  - change (["-"%char] ++ c0 :: r)%list with ("-"%char :: c0 :: r).
    rewrite skip_white_digit by (right; reflexivity). reflexivity.
  - change ([] ++ c0 :: r)%list with (c0 :: r).
    rewrite skip_white_digit by (left; exact Hc0).
    apply dec_digit_cases in Hc0. cbn [In] in Hc0.
    destruct Hc0 as [<- | Hc0].
    + destruct r as [| c1 r']; [reflexivity |].
      destruct Hr as [Hc1 | ->]; [| reflexivity].
      apply dec_digit_cases in Hc1. cbn [In] in Hc1.
      repeat (destruct Hc1 as [<- | Hc1]; [reflexivity |]). contradiction.
    + repeat (destruct Hc0 as [<- | Hc0]; [reflexivity |]). contradiction.
Qed.

(** Reading back what [toFixed] prints with two decimals. *)
Lemma Number_fixed_digits (sg : bool) (n : Z) :
  (0 <= n)%Z ->
  Number ((if sg then "-" else "") ++ fixed_digits 2 n) = of_decimal sg n (-2).
Proof.
  intros Hn. destruct (fixed_digits_spec n Hn) as (a & b & Hl & Ha & Hda & Hdb & Hlen & Hval).
  destruct a as [| c0 a']; [contradiction |].
  assert (Hc0 : dec_digit c0 = true).
  { cbn [forallb] in Hda. apply andb_true_iff in Hda. apply Hda. }
  rewrite (Number_of_digit_list sg _ c0 (a' ++ "."%char :: b)).
  - rewrite app_comm_cons, (read_unsigned_decimal_point sg (c0 :: a') b Ha Hda Hdb).
    rewrite Hval, Hlen. reflexivity.
  - rewrite list_of_append, Hl. destruct sg; reflexivity.
  - exact Hc0.
  - destruct a' as [| c1 a'']; [right; reflexivity |].
    left. cbn [forallb] in Hda. apply andb_true_iff in Hda. destruct Hda as [_ Hda].
    apply andb_true_iff in Hda. apply Hda.
Qed.

Lemma fixed_scaled_nonneg (f : nat) (m : positive) (e : Z) : (0 <= fixed_scaled f m e)%Z.
Proof.
  unfold fixed_scaled. destruct e as [| p | p].
  - apply Z.mul_nonneg_nonneg; [| lia]. apply Z.mul_nonneg_nonneg; [lia |].
    apply Z.pow_nonneg. lia.
  - apply Z.mul_nonneg_nonneg; [| apply Z.pow_nonneg; lia].
    apply Z.mul_nonneg_nonneg; [lia |]. apply Z.pow_nonneg. lia.
  - apply Z.div_pos; [| apply Z.pow_pos_nonneg; lia].
    assert (0 <= Zpos m * 10 ^ Z.of_nat f)%Z
      by (apply Z.mul_nonneg_nonneg; [lia |]; apply Z.pow_nonneg; lia).
    assert (0 <= 2 ^ Zpos p)%Z by (apply Z.pow_nonneg; lia). lia.
Qed.

(** The number a point of the history carries, from the unrounded sum. *)
Lemma Number_toFixed_finite (sg : bool) (m : positive) (e : Z) :
  ge_1e21 m e = false ->
  Number (toFixed 2 (S754_finite sg m e)) = of_decimal sg (fixed_scaled 2 m e) (-2).
Proof.
  intros Hbig. unfold toFixed. rewrite Hbig.
  apply Number_fixed_digits, fixed_scaled_nonneg.
Qed.

(** ** Distance of a history point from the base rate *)

Open Scope R_scope.

Lemma bpow_m53_tiny : bpow (-53) <= / 1000000000000000.
Proof.
  change (-53)%Z with (Z.opp 53). rewrite bpow_opp, bpow_IZR by lia.
  apply Rinv_le_contravar; [lra |]. apply IZR_le. vm_compute. discriminate.
Qed.

Lemma bpow_m1075_tiny : bpow (-1075) <= / 1000000000000000.
Proof.
  apply Rle_trans with (bpow (-53)); [apply bpow_le; lia | exact bpow_m53_tiny].
Qed.

Lemma bpow_971_big : 1000000000 <= bpow 971.
Proof.
  apply Rle_trans with (bpow 30); [| apply bpow_le; lia].
  rewrite bpow_IZR by lia. apply IZR_le. vm_compute. discriminate.
Qed.

Lemma SF2R_half : SF2R (lit "0.5") = / 2.
Proof.
  change (lit "0.5") with (S754_finite false 4503599627370496 (-53)).
  cbn [SF2R]. unfold F2R. change (-53)%Z with (Z.opp 53).
  rewrite bpow_opp, bpow_IZR by lia.
  change (2 ^ 53)%Z with (2 * 4503599627370496)%Z. rewrite mult_IZR. field.
Qed.

Lemma SF2R_fifth : 0 <= SF2R (lit "0.2") <= 2000000001 / 10000000000.
Proof.
  change (lit "0.2") with (S754_finite false 7205759403792794 (-55)).
  cbn [SF2R]. unfold F2R. change (-55)%Z with (Z.opp 55).
  rewrite bpow_opp, bpow_IZR by lia.
  assert (Hp : 0 < IZR (2 ^ 55)) by (apply IZR_lt; reflexivity).
  split.
  - apply Rmult_le_pos; [apply IZR_le; lia | apply Rlt_le, Rinv_0_lt_compat, Hp].
  - apply Rmult_le_reg_r with (IZR (2 ^ 55)); [exact Hp |].
    rewrite Rmult_assoc, Rinv_l, Rmult_1_r by lra.
    unfold Rdiv. rewrite (Rmult_comm 2000000001), Rmult_assoc.
    apply Rmult_le_reg_l with 10000000000; [lra |].
    rewrite <- Rmult_assoc, Rinv_r, Rmult_1_l by lra.
    rewrite <- !mult_IZR. apply IZR_le. vm_compute. discriminate.
Qed.

Lemma Rabs_le_inv (x a : R) : Rabs x <= a -> - a <= x <= a.
Proof. unfold Rabs. destruct (Rcase_abs x); lra. Qed.

Lemma rounding_slack (v a : R) :
  Rabs v <= a -> Rabs v * bpow (-53) + bpow (-1075) <= (a + 1) / 1000000000000000.
Proof.
  intros H. pose proof (Rabs_pos v) as Hv.
  pose proof (bpow_pos (-53)) as H53. pose proof bpow_m53_tiny as Hu.
  pose proof bpow_m1075_tiny as He.
  assert (Rabs v * bpow (-53) <= a * / 1000000000000000)
    by (apply Rmult_le_compat; lra).
  lra.
Qed.

Lemma ge_1e21_small (m : positive) (e : Z) :
  F2R m e <= 1000000000 -> ge_1e21 m e = false.
Proof.
  intros H. unfold ge_1e21, F2R in *.
  assert (H21 : (10 ^ 21 = 1000000000000000000000)%Z) by reflexivity.
  destruct e as [| p | p]; apply Z.leb_gt.
  - rewrite bpow_0, Rmult_1_r in H. apply lt_IZR. rewrite H21.
    change (2 ^ 0)%Z with 1%Z. rewrite Z.mul_1_r. lra.
  - rewrite bpow_IZR, <- mult_IZR in H by lia. apply lt_IZR. rewrite H21. lra.
  - change (Z.neg p) with (- Zpos p)%Z in H. rewrite bpow_opp, bpow_IZR in H by lia.
    assert (Hp : 0 < IZR (2 ^ Zpos p)) by (apply IZR_lt, Z.pow_pos_nonneg; lia).
    apply lt_IZR. rewrite H21, mult_IZR.
    apply (Rmult_le_compat_r (IZR (2 ^ Zpos p))) in H; [| lra].
    rewrite Rmult_assoc, Rinv_l, Rmult_1_r in H by lra.
    assert (1 <= IZR (2 ^ Zpos p)) by (apply IZR_le; lia).
    nra.
Qed.

Lemma Number_toFixed_zero (s : bool) : Number (toFixed 2 (S754_zero s)) = pos_zero.
Proof. destruct s; vm_compute; reflexivity. Qed.

(** The number printed with two decimals and read back is within 0.005
    (and the rounding of the reading) of the number printed. *)
Lemma Number_toFixed_near (x : spec_float) :
  is_finite x = true -> Rabs (SF2R x) <= 1000001 ->
  is_finite (Number (toFixed 2 x)) = true /\
  Rabs (SF2R (Number (toFixed 2 x)) - SF2R x) <= 5000002 / 1000000000.
Proof.
  intros Hx Hb.
  destruct x as [s | s | | sg m e]; try discriminate Hx.
  - rewrite Number_toFixed_zero. split; [reflexivity |].
    cbn [SF2R pos_zero]. rewrite Rminus_diag, Rabs_R0. lra.
  - pose proof (F2R_pos m e) as HF.
    assert (HFb : F2R m e <= 1000001).
    { cbn [SF2R] in Hb. destruct sg; [rewrite Rabs_Ropp in Hb |];
        rewrite Rabs_pos_eq in Hb; lra. }
    rewrite (Number_toFixed_finite sg m e) by (apply ge_1e21_small; lra).
    pose proof (fixed_scaled_near 2 m e) as Hn.
    pose proof (fixed_scaled_nonneg 2 m e) as Hn0.
    change (IZR (10 ^ Z.of_nat 2)) with 100 in Hn.
    destruct (fixed_scaled 2 m e) as [| p | p]; [| | lia].
    + cbn [of_decimal]. split; [reflexivity |].
      cbn [SF2R]. apply Rabs_le. destruct sg; lra.
    + cbn [of_decimal]. change (Pos.pow 10 2) with 100%positive.
      assert (Hp1 : 1 <= IZR (Zpos p)) by (apply IZR_le; lia).
      assert (Hlo : bpow (-1000) <= IZR (Zpos p) / IZR 100).
      { apply Rle_trans with (bpow (-7)); [apply bpow_le; lia |].
        change (-7)%Z with (Z.opp 7). rewrite bpow_opp, bpow_7. lra. }
      assert (Hhi : IZR (Zpos p) / IZR 100 <= bpow 900).
      { apply Rle_trans with (bpow 30); [| apply bpow_le; lia].
        rewrite bpow_IZR by lia. change (IZR (2 ^ 30)) with 1073741824. lra. }
      destruct (of_ratio_error sg p 100 Hlo Hhi) as [Hfin Herr].
      split; [exact Hfin |].
      assert (Hslack : IZR (Zpos p) / IZR 100 * bpow (-53) <= 2 / 1000000000).
      { pose proof bpow_m53_tiny as Hu. pose proof (bpow_pos (-53)) as H53.
        assert (IZR (Zpos p) / IZR 100 * bpow (-53) <= 1000002 * / 1000000000000000)
          by (apply Rmult_le_compat; lra).
        lra. }
      apply Rabs_le_inv in Herr. apply Rabs_le.
      cbn [SF2R]. unfold signed in Herr. destruct sg; lra.
Qed.

(** A point of the history is within 0.1051 of the base rate. *)
Lemma history_rate_near (base r : spec_float) :
  is_finite base = true -> Rabs (SF2R base) <= 1000000 ->
  is_finite r = true -> 0 <= SF2R r < 1 ->
  let rate := Number (toFixed 2 (add base (mul (sub r (lit "0.5")) (lit "0.2")))) in
  is_finite rate = true /\ Rabs (SF2R rate - SF2R base) <= 1051 / 10000.
Proof.
  intros Hbase Hb Hr Hr01 rate. subst rate.
  pose proof bpow_971_big as Hbig.
  (* t = r - 0.5 *)
  assert (Hv1 : Rabs (SF2R r - SF2R (lit "0.5")) <= / 2).
  { rewrite SF2R_half. apply Rabs_le. lra. }
  destruct (sub_error r (lit "0.5") Hr eq_refl) as [[Ht Het] | [_ Hover]]; [| lra].
  pose proof (rounding_slack _ _ Hv1) as Hs1.
  set (t := sub r (lit "0.5")) in *.
  assert (HT : Rabs (SF2R t) <= 500000001 / 1000000000).
  { apply Rabs_le_inv in Het. apply Rabs_le_inv in Hv1. apply Rabs_le. lra. }
  (* u = t * 0.2 *)
  pose proof SF2R_fifth as Hc.
  assert (Hv2 : Rabs (SF2R t * SF2R (lit "0.2")) <= 1000000003 / 10000000000).
  { rewrite Rabs_mult, (Rabs_pos_eq (SF2R (lit "0.2"))) by lra.
    pose proof (Rabs_pos (SF2R t)).
    assert (Rabs (SF2R t) * SF2R (lit "0.2") <=
            500000001 / 1000000000 * (2000000001 / 10000000000))
      by (apply Rmult_le_compat; lra).
    lra. }
  destruct (mul_error t (lit "0.2") Ht eq_refl) as [[Hu Heu] | [_ Hover]]; [| lra].
  pose proof (rounding_slack _ _ Hv2) as Hs2.
  set (u := mul t (lit "0.2")) in *.
  assert (HU : Rabs (SF2R u) <= 100000001 / 1000000000).
  { apply Rabs_le_inv in Heu. apply Rabs_le_inv in Hv2. apply Rabs_le. lra. }
  (* x = base + u *)
  assert (Hv3 : Rabs (SF2R base + SF2R u) <= 1000001).
  { apply Rabs_le_inv in Hb. apply Rabs_le_inv in HU. apply Rabs_le. lra. }
  destruct (add_error base u Hbase Hu) as [[Hx Hex] | [_ Hover]]; [| lra].
  pose proof (rounding_slack _ _ Hv3) as Hs3.
  set (x := add base u) in *.
  assert (HX : Rabs (SF2R x) <= 1000001).
  { apply Rabs_le_inv in Hex. apply Rabs_le_inv in Hv3. apply Rabs_le_inv in Hb.
    apply Rabs_le_inv in HU. apply Rabs_le. lra. }
  destruct (Number_toFixed_near x Hx HX) as [Hfin Hnear].
  split; [exact Hfin |].
  apply Rabs_le_inv in Hnear. apply Rabs_le_inv in Hex. apply Rabs_le_inv in HU.
  apply Rabs_le. lra.
Qed.

Lemma SF2R_one : SF2R (lit "1") = 1.
Proof.
  change (lit "1") with (S754_finite false 4503599627370496 (-52)).
  cbn [SF2R]. unfold F2R. change (-52)%Z with (Z.opp 52).
  rewrite bpow_opp, bpow_IZR by lia.
  change (IZR (2 ^ 52)) with (IZR 4503599627370496). field.
Qed.

Lemma SF2R_million :
  SF2R (lit "1000000") = 1000000 /\ SF2R (lit "-1000000") = - 1000000.
Proof.
  change (lit "1000000") with (S754_finite false 8589934592000000 (-33)).
  change (lit "-1000000") with (S754_finite true 8589934592000000 (-33)).
  cbn [SF2R]. unfold F2R. change (-33)%Z with (Z.opp 33).
  rewrite bpow_opp, bpow_IZR by lia.
  change (IZR (2 ^ 33)) with (IZR 8589934592).
  replace (IZR 8589934592000000) with (1000000 * IZR 8589934592)
    by (rewrite <- mult_IZR; reflexivity).
  split; field.
Qed.

(** A draw of [Math.random]: a binary64 value in [0, 1). *)
Lemma unit_interval_real (r : spec_float) :
  valid_binary prec emax r = true ->
  leb (lit "0") r = true -> ltb r (lit "1") = true ->
  is_finite r = true /\ 0 <= SF2R r < 1.
Proof.
  intros V H0 H1.
  assert (F : is_finite r = true).
  { destruct r as [s | [|] | | s m e]; try reflexivity; discriminate. }
  split; [exact F |].
  pose proof (compare_real (lit "0") r eq_refl V eq_refl F) as C0.
  pose proof (compare_real r (lit "1") V eq_refl F eq_refl) as C1.
  unfold leb, SFleb in H0. unfold ltb, SFltb in H1.
  rewrite SF2R_one in C1. change (SF2R (lit "0")) with 0 in C0.
  destruct (SFcompare (lit "0") r) as [[| |] |]; try discriminate H0;
    destruct (SFcompare r (lit "1")) as [[| |] |]; try discriminate H1; lra.
Qed.

(** A base rate of magnitude at most one million. *)
Lemma million_range_real (b : spec_float) :
  valid_binary prec emax b = true ->
  leb (lit "-1000000") b = true -> leb b (lit "1000000") = true ->
  is_finite b = true /\ Rabs (SF2R b) <= 1000000.
Proof.
  intros V H0 H1.
  assert (F : is_finite b = true).
  { destruct b as [s | [|] | | s m e]; try reflexivity; discriminate. }
  split; [exact F |].
  pose proof (compare_real (lit "-1000000") b eq_refl V eq_refl F) as C0.
  pose proof (compare_real b (lit "1000000") V eq_refl F eq_refl) as C1.
  unfold leb, SFleb in H0, H1.
  destruct SF2R_million as [Hp Hn]. rewrite Hn in C0. rewrite Hp in C1.
  apply Rabs_le.
  destruct (SFcompare (lit "-1000000") b) as [[| |] |]; try discriminate H0;
    destruct (SFcompare b (lit "1000000")) as [[| |] |]; try discriminate H1; lra.
Qed.

Close Scope R_scope.

(** ** What [toFixed(2)] prints below 10^21 *)

Lemma ge_1e21_below (m : positive) (e : Z) :
  (F2R m e < 1000000000000000000000)%R -> ge_1e21 m e = false.
Proof.
  intros H. unfold ge_1e21, F2R in *.
  assert (H21 : (10 ^ 21 = 1000000000000000000000)%Z) by reflexivity.
  destruct e as [| p | p]; apply Z.leb_gt.
  - rewrite bpow_0, Rmult_1_r in H. apply lt_IZR. rewrite H21.
    change (2 ^ 0)%Z with 1%Z. rewrite Z.mul_1_r. exact H.
  - rewrite bpow_IZR, <- mult_IZR in H by lia. apply lt_IZR. rewrite H21. exact H.
  - change (Z.neg p) with (- Zpos p)%Z in H. rewrite bpow_opp, bpow_IZR in H by lia.
    assert (Hp : (0 < IZR (2 ^ Zpos p))%R) by (apply IZR_lt, Z.pow_pos_nonneg; lia).
    apply lt_IZR. rewrite H21, mult_IZR.
    apply (Rmult_lt_compat_r (IZR (2 ^ Zpos p))) in H; [| exact Hp].
    rewrite Rmult_assoc, Rinv_l, Rmult_1_r in H by lra. exact H.
Qed.

(** A finite number below 10^21 in magnitude is printed as an optional
    minus sign, digits, a point and two digits; the digits are those of
    the integer nearest to a hundred times its magnitude. *)
Lemma toFixed_rounds (x : spec_float) :
  is_finite x = true ->
  (Rabs (SF2R x) < 1000000000000000000000)%R ->
  exists (negative : bool) (a b : list ascii) (n : Z),
    list_ascii_of_string (toFixed 2 x) =
      ((if negative then ["-"%char] else []) ++ a ++ "."%char :: b)%list /\
    a <> [] /\ forallb dec_digit a = true /\ forallb dec_digit b = true /\
    List.length b = 2%nat /\
    digits_value (a ++ b) 0 = n /\
    (Rabs (IZR n - 100 * Rabs (SF2R x)) <= / 2)%R /\
    (negative = true -> (SF2R x < 0)%R).
Proof.
  intros Fx Hb. destruct x as [sg | sg | | sg m e]; try discriminate Fx.
  - destruct (fixed_digits_spec 0 ltac:(lia)) as (a & b & Hl & Ha & Hda & Hdb & Hlen & Hv).
    exists false, a, b, 0%Z. cbn [toFixed app SF2R].
    rewrite Rabs_R0, Rmult_0_r, Rminus_diag, Rabs_R0.
    repeat split; try assumption; [lra | discriminate].
  - pose proof (F2R_pos m e) as HP.
    assert (Habs : Rabs (SF2R (S754_finite sg m e)) = F2R m e).
    { cbn [SF2R]. destruct sg; [rewrite Rabs_Ropp |]; apply Rabs_pos_eq; lra. }
    rewrite Habs in *.
    destruct (fixed_digits_spec (fixed_scaled 2 m e) (fixed_scaled_nonneg 2 m e))
      as (a & b & Hl & Ha & Hda & Hdb & Hlen & Hv).
    exists sg, a, b, (fixed_scaled 2 m e).
    unfold toFixed. rewrite (ge_1e21_below m e Hb), list_of_append, Hl.
    split; [destruct sg; reflexivity |].
    repeat split; try assumption.
    + pose proof (fixed_scaled_near 2 m e) as Hn.
      change (IZR (10 ^ Z.of_nat 2)) with 100%R in Hn.
      apply Rabs_le. lra.
    + intros ->. cbn [SF2R]. lra.
Qed.

(** ** Claims C1 to C10 *)




(** C2: after a successful fetch the snapshot has one record per supported
    currency, in the order USD, EUR, GBP, BRL; the rate of each non-home
    record is 1 / conversion_rates[code] and the rate of the BRL record is
    exactly 1, whatever conversion_rates holds for BRL. *)
Theorem C2_snapshot_records (s : AppState) (d : APIResponse)
    (entries : gmap string number) :
  result d = "success" ->
  conversion_rates d = Table entries ->
  let rs := rates (fetch (inr d) s) in
  map currency rs = ["USD"; "EUR"; "GBP"; "BRL"] /\
  (forall r, In r rs -> currency r <> "BRL" ->
     rate r = div one (to_number (entries !! currency r))) /\
  (forall r, In r rs -> currency r = "BRL" -> rate r = one).
Proof.
  intros H Ht rs. subst rs. rewrite (fetch_success s d entries H Ht).
  cbn [rates setLoading setLastUpdate setRates].
  rewrite normalize_supported, lit_1.
  split; [reflexivity |]. split.
  - intros r [<- | [<- | [<- | [<- | []]]]] Hne; cbn [currency rate];
      try reflexivity.
    exfalso. apply Hne. reflexivity.
  - intros r [<- | [<- | [<- | [<- | []]]]] He; cbn [currency rate] in *;
      try reflexivity; discriminate He.
Qed.

Lemma C2_snapshot_records_witness :
  result goodResponse = "success" /\
  map currency (rates (fetch (inr goodResponse) initialState)) =
    ["USD"; "EUR"; "GBP"; "BRL"].
Proof.
  split; [reflexivity |].
  exact (proj1 (C2_snapshot_records initialState goodResponse _ eq_refl eq_refl)).
Defined.

(** C3, as stated, fails on the interval.  After the quote USD = 0.19976
    the base rate of USD is about 5.006007; with the draw 511/512 the
    variation u is about 0.0996, inside [-0.1, 0.1), the sum is about
    5.105617 and its two-decimal rounding is 5.11, above baseRate + 0.1
    (about 5.106007).  The 8 points of the 7d range all carry that rate. *)
Lemma C3_counterexample :
  let r := draws highDraws 0 in
  let u := mul (sub r (lit "0.5")) (lit "0.2") in
  let base := baseRate skewedState in
  let data := fst (synthesize (fun _ => mkDate NaN) (fun d _ => d) (fun _ p => p)
                     base (timeRange skewedState) highDraws) in
  leb (lit "0") r = true /\ ltb r (lit "1") = true /\
  leb (lit "-0.1") u = true /\ ltb u (lit "0.1") = true /\
  List.length data = 8%nat /\
  (forall p, In p data -> HistoricalData.rate p = lit "5.11") /\
  leb (lit "5.11") (add base (lit "0.1")) = false /\
  ltb (add base (lit "0.1")) (lit "5.11") = true /\
  ~ (forall p, In p data ->
       leb (sub base (lit "0.1")) (HistoricalData.rate p) = true /\
       leb (HistoricalData.rate p) (add base (lit "0.1")) = true).
Proof.
  cbv zeta.
  assert (Hd : map HistoricalData.rate
                 (fst (synthesize (fun _ => mkDate NaN) (fun d _ => d) (fun _ p => p)
                         (baseRate skewedState) (timeRange skewedState) highDraws)) =
               repeat (lit "5.11") 8) by (vm_compute; reflexivity).
  assert (Hbase : leb (lit "5.11") (add (baseRate skewedState) (lit "0.1")) = false)
    by (vm_compute; reflexivity).
  assert (Hin : forall p,
             In p (fst (synthesize (fun _ => mkDate NaN) (fun d _ => d) (fun _ p => p)
                          (baseRate skewedState) (timeRange skewedState) highDraws)) ->
             HistoricalData.rate p = lit "5.11").
  { intros p Hp. apply (in_map HistoricalData.rate) in Hp. rewrite Hd in Hp.
    apply repeat_spec in Hp. exact Hp. }
  split; [vm_compute; reflexivity |]. split; [vm_compute; reflexivity |].
  split; [vm_compute; reflexivity |]. split; [vm_compute; reflexivity |].
  split; [vm_compute; reflexivity |]. split; [exact Hin |].
  split; [exact Hbase |]. split; [vm_compute; reflexivity |].
  intros Hall.
  destruct (fst (synthesize (fun _ => mkDate NaN) (fun d _ => d) (fun _ p => p)
                   (baseRate skewedState) (timeRange skewedState) highDraws))
    as [| p0 rest] eqn:E; [discriminate Hd |].
  destruct (Hall p0 (or_introl eq_refl)) as [_ Hle].
  rewrite (Hin p0 (or_introl eq_refl)), Hbase in Hle. discriminate Hle.
Qed.

(** C3, amended: for every range and every baseRate the synthesizer returns
    exactly N+1 points, N = 1, 7, 30, 365 for 24h, 7d, 30d, 1y; the rate of
    the j-th point is baseRate + u, with u = (draw - 0.5) * 0.2 and draw the
    j-th value of Math.random, rounded to two decimals: printed by
    toFixed(2) and read back by Number.  The rounding can carry the rate
    outside [baseRate - 0.1, baseRate + 0.1]; for a draw in [0, 1) and a
    baseRate of magnitude at most 10^6 the rate is a finite number within
    0.1051 of baseRate. *)
Theorem C3_history_points
    (new_Date : nat -> Date) (subDays : Date -> number -> Date)
    (format : Date -> string -> string)
    (baseRate : number) (timeRange : TimeRange) (g : Random) :
  let data := fst (synthesize new_Date subDays format baseRate timeRange g) in
  let draw j := draws g (position g + j)%nat in
  let sum j := add baseRate (mul (sub (draw j) (lit "0.5")) (lit "0.2")) in
  List.length data = S (days timeRange) /\
  (days R24h = 1 /\ days R7d = 7 /\ days R30d = 30 /\ days R1y = 365)%nat /\
  (forall j, (j <= days timeRange)%nat ->
     exists p, nth_error data j = Some p /\
               HistoricalData.rate p = Number (toFixed 2 (sum j))) /\
  (forall j p, nth_error data j = Some p ->
     valid_binary prec emax baseRate = true ->
     leb (lit "-1000000") baseRate = true -> leb baseRate (lit "1000000") = true ->
     valid_binary prec emax (draw j) = true ->
     leb (lit "0") (draw j) = true -> ltb (draw j) (lit "1") = true ->
     is_finite (HistoricalData.rate p) = true /\
     (Rabs (SF2R (HistoricalData.rate p) - SF2R baseRate) <= 1051 / 10000)%R).
Proof.
  intros data draw sum. subst data. rewrite synthesize_spec.
  assert (Hnth : forall j, (j <= days timeRange)%nat ->
            nth_error
              (map (fun j => history_point new_Date subDays format timeRange baseRate
                               (days timeRange - j)%nat (draws g (position g + j)%nat))
                   (seq 0 (S (days timeRange)))) j =
            Some (history_point new_Date subDays format timeRange baseRate
                    (days timeRange - j)%nat (draw j))).
  { intros j Hj. rewrite nth_error_map, nth_error_seq.
    destruct (Nat.ltb_spec j (S (days timeRange))) as [_ | Hge]; [| lia].
    reflexivity. }
  split; [rewrite length_map, length_seq; reflexivity |].
  split; [repeat split |]. split.
  - intros j Hj. eexists. split; [apply (Hnth j Hj) | reflexivity].
  - intros j p Hp Vb Hb1 Hb2 Vr Hr0 Hr1.
    assert (Hj : (j <= days timeRange)%nat).
    { assert (Hsome : nth_error
                (map (fun j => history_point new_Date subDays format timeRange baseRate
                                 (days timeRange - j)%nat (draws g (position g + j)%nat))
                     (seq 0 (S (days timeRange)))) j <> None)
        by (rewrite Hp; discriminate).
      apply nth_error_Some in Hsome. rewrite length_map, length_seq in Hsome. lia. }
    rewrite (Hnth j Hj) in Hp. injection Hp as <-.
    destruct (million_range_real baseRate Vb Hb1 Hb2) as [Fb Hbase].
    destruct (unit_interval_real (draw j) Vr Hr0 Hr1) as [Fr Hdraw].
    exact (history_rate_near baseRate (draw j) Fb Hbase Fr Hdraw).
Qed.

Lemma C3_history_points_witness :
  (1 <= days R7d)%nat /\
  valid_binary prec emax five = true /\
  leb (lit "-1000000") five = true /\ leb five (lit "1000000") = true /\
  valid_binary prec emax (draws highDraws 1) = true /\
  leb (lit "0") (draws highDraws 1) = true /\ ltb (draws highDraws 1) (lit "1") = true /\
  exists p,
    nth_error (fst (synthesize (fun _ => mkDate NaN) (fun d _ => d) (fun _ p => p)
                      five R7d highDraws)) 1 = Some p /\
    HistoricalData.rate p =
      Number (toFixed 2
                (add five (mul (sub (draws highDraws 1) (lit "0.5")) (lit "0.2")))) /\
    is_finite (HistoricalData.rate p) = true /\
    (Rabs (SF2R (HistoricalData.rate p) - SF2R five) <= 1051 / 10000)%R.
Proof.
  assert (H7 : (1 <= days R7d)%nat) by (cbn; lia).
  destruct (C3_history_points (fun _ => mkDate NaN) (fun d _ => d) (fun _ p => p)
              five R7d highDraws) as (_ & _ & Hpoint & Hnear).
  destruct (Hpoint 1%nat H7) as (p & Hp & Hrate).
  split; [exact H7 |].
  split; [reflexivity |]. split; [vm_compute; reflexivity |].
  split; [vm_compute; reflexivity |]. split; [reflexivity |].
  split; [vm_compute; reflexivity |]. split; [vm_compute; reflexivity |].
  exists p. split; [exact Hp |]. split; [exact Hrate |].
  apply (Hnear 1%nat p Hp); vm_compute; reflexivity.
Defined.






(** C6, as stated, fails when 100 * rate overflows: with the quote
    USD = 2^-1023 the fetched USD rate is 2^1023, a positive finite number;
    100 * 2^1023 is Infinity, and converting 100 USD to USD gives
    "Infinity". *)
Lemma C6_counterexample :
  let s := fetch (inr tinyResponse) initialState in
  let r := S754_finite false 4503599627370496 971 in
  rate_of (rates s) "USD" = Some r /\
  valid_binary prec emax r = true /\
  ltb pos_zero r = true /\
  ltb r Infinity = true /\
  mul hundred r = Infinity /\
  calculateConversion (withConversion "100" "USD" "USD" s) = "Infinity" /\
  calculateConversion (withConversion "100" "USD" "USD" s) <> "100.00".
Proof.
  repeat split; try (vm_compute; reflexivity).
  vm_compute. intros H. discriminate H.
Qed.

(** C6, amended: for every snapshot in which the rate looked up for the
    code is a positive finite number whose product by 100 does not overflow
    to Infinity, converting an amount of 100 from the currency to itself
    returns exactly "100.00". *)
Theorem C6_self_conversion (s : AppState) (code : string) (r : number) :
  rate_of (rates s) code = Some r ->
  valid_binary prec emax r = true ->
  ltb pos_zero r = true ->
  ltb (mul hundred r) Infinity = true ->
  calculateConversion (withConversion "100" code code s) = "100.00".
Proof.
  intros Hrate Hvalid Hpos Hfin.
  rewrite calculateConversion_guard.
  cbn [convertAmount convertFrom convertTo rates withConversion].
  rewrite Number_100, Hrate. cbn [truthy hundred or_default].
  assert (Ht : truthy r = true).
  { destruct r as [sg | sg | | sg m e]; try destruct sg; try discriminate Hpos;
      reflexivity. }
  rewrite Ht. apply self_conversion_of_hundred; assumption.
Qed.

Lemma C6_self_conversion_witness :
  rate_of (rates loadedState) "USD" = Some five /\
  valid_binary prec emax five = true /\
  ltb pos_zero five = true /\
  ltb (mul hundred five) Infinity = true /\
  calculateConversion (withConversion "100" "USD" "USD" loadedState) = "100.00".
Proof.
  split; [| split; [| split; [| split]]];
    [vm_compute; reflexivity | reflexivity | reflexivity | vm_compute; reflexivity |].
  apply (C6_self_conversion loadedState "USD" five); vm_compute; reflexivity.
Defined.

(** C7: whatever fromCode, toCode and the snapshot are, an amount that is
    absent (the empty text), non-numeric or NaN (the text does not read as
    a number), or zero gives the literal "0.00". *)
Theorem C7_invalid_amount_gives_zero (s : AppState) :
  (convertAmount s = "" \/
   Number (convertAmount s) = NaN \/
   exists sg, Number (convertAmount s) = S754_zero sg) ->
  calculateConversion s = "0.00".
Proof.
  intros H. rewrite calculateConversion_guard.
  destruct H as [H | [H | [sg H]]]; rewrite H; reflexivity.
Qed.

Lemma C7_invalid_amount_gives_zero_witness :
  (convertAmount (withConversion "abc" "USD" "EUR" loadedState) = "" \/
   Number (convertAmount (withConversion "abc" "USD" "EUR" loadedState)) = NaN \/
   exists sg, Number (convertAmount (withConversion "abc" "USD" "EUR" loadedState))
              = S754_zero sg) /\
  calculateConversion (withConversion "abc" "USD" "EUR" loadedState) = "0.00".
Proof.
  split; [right; left; vm_compute; reflexivity |].
  apply (C7_invalid_amount_gives_zero (withConversion "abc" "USD" "EUR" loadedState)).
  right. left. vm_compute. reflexivity.
Defined.



(** C9: removing at an index that is out of range (negative, or at least
    the length of the list) is a no-op: the alert list, and the whole
    state, are unchanged.  The handler is a total function. *)
Theorem C9_remove_out_of_range (s : AppState) (index : Z) :
  (index < 0 \/ Z.of_nat (List.length (alerts s)) <= index)%Z ->
  alerts (removeAlert index s) = alerts s /\ removeAlert index s = s.
Proof.
  intros H. unfold removeAlert.
  rewrite filter_indexed_miss by lia.
  rewrite setAlerts_same. split; reflexivity.
Qed.

Lemma C9_remove_out_of_range_witness :
  List.length (alerts threeAlerts) = 3%nat /\
  alerts (removeAlert 3 threeAlerts) =
    [Alert.mk "USD" five above; Alert.mk "EUR" one below; Alert.mk "GBP" hundred above] /\
  removeAlert 3 threeAlerts = threeAlerts /\
  alerts (removeAlert (-1) threeAlerts) =
    [Alert.mk "USD" five above; Alert.mk "EUR" one below; Alert.mk "GBP" hundred above] /\
  removeAlert (-1) threeAlerts = threeAlerts.
Proof.
  unfold threeAlerts. split; [reflexivity |].
  destruct (C9_remove_out_of_range
              (setAlerts [Alert.mk "USD" five above; Alert.mk "EUR" one below;
                          Alert.mk "GBP" hundred above] initialState) 3)
    as [Ha3 Hs3]; [right; cbn; lia |].
  destruct (C9_remove_out_of_range
              (setAlerts [Alert.mk "USD" five above; Alert.mk "EUR" one below;
                          Alert.mk "GBP" hundred above] initialState) (-1))
    as [Ha1 Hs1]; [left; lia |].
  split; [exact Ha3 |]. split; [exact Hs3 |]. split; [exact Ha1 | exact Hs1].
Defined.

(** C10: when the targetRate field of the alert form is empty, creating an
    alert appends nothing: the alert list and the whole state are
    unchanged, and nothing is raised. *)
Theorem C10_empty_target_is_noop (s : AppState) :
  AlertForm.targetRate (alertForm s) = "" ->
  alerts (handleCreateAlert s) = alerts s /\ handleCreateAlert s = s.
Proof.
  intros H. unfold handleCreateAlert. rewrite H. split; reflexivity.
Qed.

Lemma C10_empty_target_is_noop_witness :
  AlertForm.targetRate (alertForm loadedState) = "" /\
  handleCreateAlert loadedState = loadedState.
Proof.
  split; [reflexivity |].
  apply (C10_empty_target_is_noop loadedState). reflexivity.
Defined.

(** * Further properties of the component *)

(** ** Both sides of the [await] *)

Lemma fetch_phases (o : AxiosOutcome) (s : AppState) :
  fetch o s = snd (fetchExchangeRates_resume o (snd (fetchExchangeRates_call s))).
Proof.
  unfold fetch, fetchExchangeRates, fetchExchangeRates_resume, fetchExchangeRates_call,
    try_catch_finally, bind, update, axios_get, throw.
  cbn [fst snd].
  destruct o as [t | d]; cbn [fst snd]; [reflexivity |].
  destruct (String.eqb (result d) "success"); [| reflexivity].
  destruct (conversion_rates d); reflexivity.
Qed.

Lemma fetch_cases (o : AxiosOutcome) (s : AppState) :
  fetch o s =
    if fetch_fails o
    then setLoading false (setError (Some (errorText o)) (setError None (setLoading true s)))
    else setLoading false
           (setLastUpdate
              (Some (mkDate (mul (time_last_update_unix
                                    match o with inr d => d | inl _ => rejectedResponse end)
                                 (lit "1000"))))
              (setRates
                 (map (normalize (entries_of
                                    match o with inr d => d | inl _ => rejectedResponse end))
                      SUPPORTED_CURRENCIES)
                 (setError None (setLoading true s)))).
Proof.
  destruct o as [t | d]; cbn [fetch_fails].
  - rewrite fetch_rejected. destruct t; reflexivity.
  - unfold errorText, entries_of.
    destruct (String.eqb (result d) "success") eqn:E; cbn [negb andb].
    + apply String.eqb_eq in E.
      destruct (conversion_rates d) as [entries | typeError] eqn:Ht; cbn [negb].
      * apply (fetch_success s d entries E Ht).
      * apply (fetch_absent s d typeError E Ht).
    + rewrite (fetch_not_success s d E).
      destruct (conversion_rates d); reflexivity.
Qed.

(** ** The fetcher, seen from the page *)

(** X1: a fetch cycle that runs alone is the call of fetchExchangeRates
    followed by the settlement of its request, and it decides the screen:
    the error screen with the text "Erro ao carregar taxas de câmbio:
    <cause>" when it fails, even if an older snapshot is kept, and the
    dashboard when it succeeds, whatever the state was. *)
Theorem fetch_decides_screen (s : AppState) (o : AxiosOutcome) :
  fetch o s = handle (Settle o) (handle Tick s) /\
  view (fetch o s) =
    if fetch_fails o then ErrorScreen (errorText o) else Dashboard.
Proof.
  split; [apply fetch_phases |].
  rewrite fetch_cases. destruct (fetch_fails o); reflexivity.
Qed.

Lemma lastSuccess_snoc (os : list AxiosOutcome) (o : AxiosOutcome) :
  lastSuccess (os ++ [o]) =
    if fetch_fails o then lastSuccess os
    else match o with inr d => Some d | inl _ => None end.
Proof.
  unfold lastSuccess. rewrite fold_left_app.
  destruct o as [t | d]; cbn [fold_left]; [reflexivity |].
  destruct (fetch_fails (inr d)); reflexivity.
Qed.

Lemma poll_snoc (os : list AxiosOutcome) (o : AxiosOutcome) (s : AppState) :
  poll (os ++ [o]) s = fetch o (poll os s).
Proof. unfold poll. rewrite fold_left_app. reflexivity. Qed.

(** X3: after any sequence of fetch cycles the snapshot and lastUpdate are
    those of the last fetch that did not fail, that is, whose response
    reported success and carried conversion_rates (the prior ones when
    there is none); the error is decided by the last cycle alone, and the
    alerts are untouched. *)
Theorem poll_keeps_last_success (os : list AxiosOutcome) (s : AppState) :
  let s' := poll os s in
  rates s' = match lastSuccess os with
             | Some d => map (normalize (entries_of d)) SUPPORTED_CURRENCIES
             | None => rates s
             end /\
  lastUpdate s' = match lastSuccess os with
                  | Some d => Some (mkDate (mul (time_last_update_unix d) (lit "1000")))
                  | None => lastUpdate s
                  end /\
  error s' = match rev os with
             | [] => error s
             | o :: _ => if fetch_fails o then Some (errorText o) else None
             end /\
  alerts s' = alerts s.
Proof.
  cbv zeta. induction os as [| o os IH] using rev_ind.
  - repeat split.
  - destruct IH as (Hr & Hl & _ & Ha).
    rewrite poll_snoc, lastSuccess_snoc, rev_app_distr. cbn [rev app].
    rewrite fetch_cases.
    destruct (fetch_fails o) eqn:Hf.
    + cbn [rates lastUpdate error alerts setLoading setError]. auto.
    + destruct o as [t | d]; [discriminate Hf |].
      cbn [rates lastUpdate error alerts setLoading setError setLastUpdate setRates].
      auto.
Qed.

(** ** The history effect *)

Section HistoryEffect.

Variable new_Date : nat -> Date.
Variable subDays : Date -> number -> Date.
Variable format : Date -> string -> string.

Lemma synthesize_random (base : number) (range : TimeRange) (g : Random) :
  snd (synthesize new_Date subDays format base range g) =
    mkRandom (draws g) (position g + S (days range)).
Proof. unfold synthesize. rewrite history_loop_spec. reflexivity. Qed.

Lemma synthesize_length (base : number) (range : TimeRange) (g : Random) :
  List.length (fst (synthesize new_Date subDays format base range g)) = S (days range).
Proof. rewrite synthesize_spec, length_map, length_seq. reflexivity. Qed.

Lemma historyEffect_cases (s : AppState) (g : Random) :
  historyEffect new_Date subDays format s g =
    match rates s with
    | [] => (s, g)
    | _ :: _ =>
        (setHistoricalData
           (fst (synthesize new_Date subDays format
                   (baseRate s) (timeRange s) g)) s,
         mkRandom (draws g) (position g + S (days (timeRange s))))
    end.
Proof.
  unfold historyEffect, generateHistoricalData.
  destruct (rates s) as [| r rs] eqn:E; cbn [List.length Nat.ltb Nat.leb]; [reflexivity |].
  pose proof (synthesize_random (baseRate s) (timeRange s) g) as H.
  destruct (synthesize new_Date subDays format (baseRate s) (timeRange s) g) as [data g'].
  cbn [fst snd] in *. rewrite H. reflexivity.
Qed.

(** X5: one run of the synthesizer consumes exactly N+1 draws of
    Math.random, in order, and a run that follows starts on the next draw:
    its point j is computed from draw number N+1+j after the start. *)
Theorem synthesize_consumes_draws (base base' : number) (range range' : TimeRange)
    (g : Random) :
  let run1 := synthesize new_Date subDays format base range g in
  let run2 := synthesize new_Date subDays format base' range' (snd run1) in
  draws (snd run1) = draws g /\
  position (snd run1) = (position g + S (days range))%nat /\
  position (snd run2) = (position g + S (days range) + S (days range'))%nat /\
  forall j, (j <= days range')%nat ->
    exists p, nth_error (fst run2) j = Some p /\
      HistoricalData.rate p =
        Number (toFixed 2
          (add base' (mul (sub (draws g (position g + S (days range) + j)%nat)
                               (lit "0.5")) (lit "0.2")))).
Proof.
  cbv zeta. rewrite !synthesize_random. cbn [draws position].
  split; [reflexivity |]. split; [reflexivity |]. split; [reflexivity |].
  intros j Hj. rewrite synthesize_spec, nth_error_map, nth_error_seq.
  destruct (Nat.ltb_spec j (S (days range'))) as [_ | Hge]; [| lia].
  cbn [option_map Nat.add draws position]. eexists. split; reflexivity.
Qed.

(** X6: the history effect writes historicalData and nothing else.
    Without rates it changes neither the state nor the generator; with
    rates the chart gets N+1 points for the range of the state and N+1
    draws are consumed. *)
Theorem historyEffect_touches_chart_only (s : AppState) (g : Random) :
  let s' := fst (historyEffect new_Date subDays format s g) in
  let g' := snd (historyEffect new_Date subDays format s g) in
  s' = setHistoricalData (historicalData s') s /\
  draws g' = draws g /\
  match rates s with
  | [] => s' = s /\ g' = g
  | _ :: _ =>
      List.length (historicalData s') = S (days (timeRange s)) /\
      position g' = (position g + S (days (timeRange s)))%nat
  end.
Proof.
  cbv zeta. rewrite historyEffect_cases.
  destruct (rates s) as [| r rs]; cbn [fst snd draws position historicalData setHistoricalData].
  - split; [destruct s; reflexivity |]. repeat split.
  - split; [reflexivity |]. split; [reflexivity |].
    split; [apply synthesize_length | reflexivity].
Qed.

End HistoryEffect.

(** ** The alert list *)

Lemma filter_indexed_remove {A : Type} (l : list A) (k : Z) (i : nat) :
  filter_indexed (fun _ j => negb (j =? k + Z.of_nat i)%Z) k l =
    (firstn i l ++ skipn (S i) l)%list.
Proof.
  revert k i. induction l as [| x l IH]; intros k i.
  - destruct i; reflexivity.
  - cbn [filter_indexed]. destruct i as [| i].
    + rewrite Z.add_0_r, Z.eqb_refl. cbn [negb firstn skipn app].
      rewrite filter_indexed_miss by lia. reflexivity.
    + destruct (Z.eqb_spec k (k + Z.of_nat (S i))) as [E | _]; [lia |].
      cbn [negb firstn skipn]. rewrite <- app_comm_cons. f_equal.
      replace (k + Z.of_nat (S i))%Z with (k + 1 + Z.of_nat i)%Z by lia.
      rewrite IH. reflexivity.
Qed.

Lemma removeAlert_alerts (s : AppState) (index : nat) :
  alerts (removeAlert (Z.of_nat index) s) =
    (firstn index (alerts s) ++ skipn (S index) (alerts s))%list.
Proof.
  unfold removeAlert. cbn [alerts setAlerts].
  pose proof (filter_indexed_remove (alerts s) 0 index) as H.
  change (0 + Z.of_nat index)%Z with (Z.of_nat index) in H. exact H.
Qed.

(** X7: removing at a position keeps the alerts before it and after it,
    in order; only the alert list changes, and its length drops by one
    exactly when the position is in range. *)
Theorem removeAlert_drops_one (s : AppState) (index : nat) :
  alerts (removeAlert (Z.of_nat index) s) =
    (firstn index (alerts s) ++ skipn (S index) (alerts s))%list /\
  removeAlert (Z.of_nat index) s = setAlerts (alerts (removeAlert (Z.of_nat index) s)) s /\
  List.length (alerts (removeAlert (Z.of_nat index) s)) =
    (if (index <? List.length (alerts s))%nat
     then Nat.pred (List.length (alerts s)) else List.length (alerts s)).
Proof.
  split; [apply removeAlert_alerts |]. split; [reflexivity |].
  rewrite removeAlert_alerts, length_app, length_firstn, length_skipn.
  destruct (Nat.ltb_spec index (List.length (alerts s))); lia.
Qed.

(** X8: creating an alert twice in a row creates one alert, because the
    first creation empties the target field; a creation adds at most one
    alert, and removing at the old length right after it restores the
    list. *)
Theorem handleCreateAlert_once (s : AppState) :
  handleCreateAlert (handleCreateAlert s) = handleCreateAlert s /\
  (List.length (alerts (handleCreateAlert s)) <= S (List.length (alerts s)))%nat /\
  AlertForm.targetRate (alertForm (handleCreateAlert s)) = "" /\
  alerts (removeAlert (Z.of_nat (List.length (alerts s))) (handleCreateAlert s)) =
    alerts s.
Proof.
  destruct (AlertForm.targetRate (alertForm s)) as [| c t] eqn:E.
  - assert (H : handleCreateAlert s = s)
      by (unfold handleCreateAlert; rewrite E; reflexivity).
    rewrite !H. split; [reflexivity |]. split; [lia |]. split; [exact E |].
    unfold removeAlert. cbn [alerts setAlerts].
    apply filter_indexed_miss. lia.
  - assert (H : handleCreateAlert s =
                setAlertForm
                  (AlertForm.mk (AlertForm.currency (alertForm s)) ""
                                (AlertForm.type (alertForm s)))
                  (setAlerts
                     (alerts s ++ [Alert.mk (AlertForm.currency (alertForm s))
                                            (Number (String c t))
                                            (AlertForm.type (alertForm s))])%list s))
      by (unfold handleCreateAlert; rewrite E; reflexivity).
    rewrite !H. split; [reflexivity |].
    cbn [alerts alertForm setAlertForm setAlerts AlertForm.targetRate].
    split; [rewrite length_app; cbn; lia |]. split; [reflexivity |].
    unfold removeAlert. cbn [alerts setAlerts setAlertForm].
    pose proof (filter_indexed_remove
                  (alerts s ++ [Alert.mk (AlertForm.currency (alertForm s))
                                         (Number (String c t))
                                         (AlertForm.type (alertForm s))])%list
                  0 (List.length (alerts s))) as Hf.
    change (0 + Z.of_nat (List.length (alerts s)))%Z
      with (Z.of_nat (List.length (alerts s))) in Hf.
    rewrite Hf.
    rewrite firstn_app, Nat.sub_diag, firstn_all, skipn_app, skipn_all2 by lia.
    replace (S (List.length (alerts s)) - List.length (alerts s))%nat with 1%nat by lia.
    cbn [firstn skipn app]. rewrite !app_nil_r. reflexivity.
Qed.

(** ** The mounted component *)

Lemma resume_cases (o : AxiosOutcome) (s : AppState) :
  snd (fetchExchangeRates_resume o s) =
    if fetch_fails o
    then setLoading false (setError (Some (errorText o)) s)
    else setLoading false
           (setLastUpdate
              (Some (mkDate (mul (time_last_update_unix
                                    match o with inr d => d | inl _ => rejectedResponse end)
                                 (lit "1000"))))
              (setRates
                 (map (normalize (entries_of
                                    match o with inr d => d | inl _ => rejectedResponse end))
                      SUPPORTED_CURRENCIES) s)).
Proof.
  unfold fetchExchangeRates_resume, try_catch_finally, bind, update, axios_get, throw,
    read, ret, errorText, entries_of.
  destruct o as [t | d]; cbn [fst snd fetch_fails].
  - destruct t; reflexivity.
  - destruct (String.eqb (result d) "success"); cbn [negb andb].
    + destruct (conversion_rates d); reflexivity.
    + destruct (conversion_rates d); reflexivity.
Qed.

Lemma option_in_supported (quotes : gmap string number) (c : string) :
  existsb (String.eqb c) (map currency (map (normalize quotes) SUPPORTED_CURRENCIES)) = true ->
  In c SUPPORTED_CURRENCIES.
Proof.
  rewrite map_map. cbn [map normalize currency SUPPORTED_CURRENCIES existsb].
  intros H. repeat (apply orb_true_iff in H; destruct H as [H | H]);
    try (apply String.eqb_eq in H; subst c; cbn; tauto).
  discriminate H.
Qed.

Lemma dashboard_snapshot (s : AppState) :
  (loading s = false -> error s = None -> rates s <> []) ->
  (error s = None \/
   exists cause, error s = Some ("Erro ao carregar taxas de câmbio: " ++ cause)) ->
  view s = Dashboard -> rates s <> [] /\ error s = None.
Proof.
  intros Hd He Hv. unfold view in Hv.
  assert (Hnone : error s = None).
  { destruct He as [He | [cause He]]; [exact He |].
    rewrite He in Hv. cbn [String.append truthy_string] in Hv.
    destruct (loading s && (List.length (rates s) =? 0)%nat); discriminate Hv. }
  split; [| exact Hnone].
  destruct (loading s) eqn:L.
  - cbn [andb] in Hv. destruct (rates s); [discriminate Hv | discriminate].
  - apply Hd; [reflexivity | exact Hnone].
Qed.

Lemma in_firstn_in {A : Type} (a : A) (n : nat) (l : list A) :
  In a (firstn n l) -> In a l.
Proof.
  revert l. induction n as [| n IH]; intros [| x l] H; cbn in *; try tauto.
  destruct H as [H | H]; [left; exact H | right; apply IH; exact H].
Qed.

Lemma in_skipn_in {A : Type} (a : A) (n : nat) (l : list A) :
  In a (skipn n l) -> In a l.
Proof.
  revert l. induction n as [| n IH]; intros [| x l] H; cbn in *; try tauto.
  right. apply IH. exact H.
Qed.

Lemma TimeRange_eqb_refl (a : TimeRange) : TimeRange_eqb a a = true.
Proof. destruct a; reflexivity. Qed.

Lemma TimeRange_eqb_eq (a b : TimeRange) : TimeRange_eqb a b = true -> a = b.
Proof. destruct a, b; intros H; try discriminate H; reflexivity. Qed.

Ltac project_state :=
  cbn [fst snd rates lastUpdate historicalData loading error selectedCurrency
       convertFrom convertTo alertForm alerts timeRange AlertForm.currency
       setRates setHistoricalData setAlerts setLoading setError setLastUpdate
       setAlertForm setDarkMode setSelectedCurrency setTimeRange setShowConverter
       setConvertAmount setConvertFrom setConvertTo].

Ltac quiet_step :=
  unfold depsChanged; project_state;
  rewrite String.eqb_refl, TimeRange_eqb_refl; cbn [negb orb]; project_state.

Section Reachability.

Variable now : nat -> nat -> Date.
Variable subDays : Date -> number -> Date.
Variable format : Date -> string -> string.

Lemma mount_consistent (g : Random) : consistent (mount now subDays format g).
Proof.
  unfold consistent, mount. rewrite historyEffect_cases.
  cbn. repeat split; auto; try discriminate; try tauto.
Qed.



Lemma step_consistent (w : World) (e : Event) :
  consistent w -> offered w e = true -> consistent (step now subDays format e w).
Proof.
  intros (Hshape & Hstamp & Hchart & Hdash & Herr & Hspin & Hsel & Hfrom & Hto & Hform & Hal)
    Hoff.
  assert (Hopt : forall c, existsb (String.eqb c) (currencyOptions (state w)) = true ->
                           In c SUPPORTED_CURRENCIES).
  { intros c Hc. unfold currencyOptions in Hc.
    destruct Hshape as [Hnil | [quotes Hq]].
    - rewrite Hnil in Hc. discriminate Hc.
    - rewrite Hq in Hc. exact (option_in_supported quotes c Hc). }
  unfold consistent, step. cbn [state random pending elapsed].
  destruct w as [s g p t]. cbn [state random pending elapsed] in *.
  destruct e as [| o | | | | v | v | v | c | r | v | v | v | | i];
    cbn [handle offered] in *.
  - (* Tick *)
    cbn [fetchExchangeRates_call update bind snd]. quiet_step.
    repeat split; auto; try tauto; try lia.
  - (* Settle *)
    rewrite resume_cases. unfold depsChanged.
    destruct (fetch_fails o) eqn:Hf; cbn [negb orb].
    + project_state.
      rewrite String.eqb_refl, TimeRange_eqb_refl. cbn [negb orb]. project_state.
      repeat split; auto; try tauto; try discriminate.
      right. eexists. unfold errorText. reflexivity.
    + rewrite historyEffect_cases.
      project_state. cbn [map SUPPORTED_CURRENCIES]. project_state.
      split; [right; eexists; reflexivity |].
      split; [split; intros H; discriminate H |].
      split; [apply synthesize_length |].
      split; [intros _ _ H; discriminate H |].
      split; [exact Herr |].
      split; [intros H; discriminate H |].
      repeat split; assumption.
  - (* ClickRetry *)
    cbn [fetchExchangeRates_call update bind snd]. quiet_step.
    repeat split; auto; try tauto; try lia.
  - (* ClickConverter *)
    quiet_step. repeat split; auto; tauto.
  - (* ClickDarkMode *)
    quiet_step. repeat split; auto; tauto.
  - (* ChangeAmount *)
    quiet_step. repeat split; auto; tauto.
  - (* ChangeFrom *)
    apply andb_true_iff in Hoff. destruct Hoff as [_ Hv]. apply Hopt in Hv.
    quiet_step. repeat split; auto; tauto.
  - (* ChangeTo *)
    apply andb_true_iff in Hoff. destruct Hoff as [_ Hv]. apply Hopt in Hv.
    quiet_step. repeat split; auto; tauto.
  - (* ClickCard *)
    apply andb_true_iff in Hoff. destruct Hoff as [_ Hc]. apply Hopt in Hc.
    unfold depsChanged. project_state. cbn [orb].
    destruct (negb (String.eqb (selectedCurrency s) c) ||
              negb (TimeRange_eqb (timeRange s) (timeRange s))).
    + rewrite historyEffect_cases. project_state.
      destruct (rates s) as [| r0 rs] eqn:Er; project_state;
        rewrite ?Er; repeat split; auto; try tauto.
      apply synthesize_length.
    + project_state. repeat split; auto; tauto.
  - (* ClickRange *)
    unfold depsChanged. project_state.
    rewrite String.eqb_refl. cbn [negb orb].
    destruct (TimeRange_eqb (timeRange s) r) eqn:Er; cbn [negb].
    + apply TimeRange_eqb_eq in Er. subst r. project_state.
      repeat split; auto; tauto.
    + rewrite historyEffect_cases. project_state.
      destruct (rates s) as [| r0 rs] eqn:Es; project_state;
        rewrite ?Es; repeat split; auto; try tauto.
      apply synthesize_length.
  - (* ChangeAlertCurrency *)
    apply andb_true_iff in Hoff. destruct Hoff as [_ Hv]. apply Hopt in Hv.
    quiet_step. repeat split; auto; tauto.
  - (* ChangeAlertType *)
    quiet_step. repeat split; auto; tauto.
  - (* ChangeAlertTarget *)
    quiet_step. repeat split; auto; tauto.
  - (* ClickCreate *)
    unfold handleCreateAlert.
    destruct (truthy_string (AlertForm.targetRate (alertForm s)));
      quiet_step; repeat split; auto; try tauto.
    apply Forall_app. split; [exact Hal |].
    constructor; [exact Hform | constructor].
  - (* ClickRemove *)
    pose proof (removeAlert_alerts s i) as Ha.
    unfold removeAlert in *. project_state. cbn [alerts setAlerts] in Ha.
    quiet_step. rewrite Ha.
    repeat split; auto; try tauto.
    apply Forall_app. split.
    + apply List.Forall_forall. intros a Hin. rewrite List.Forall_forall in Hal.
      apply Hal. apply (in_firstn_in a i _ Hin).
    + apply List.Forall_forall. intros a Hin. rewrite List.Forall_forall in Hal.
      apply Hal. apply (in_skipn_in a (S i) _ Hin).
Qed.

Lemma reachable_consistent (w : World) :
  reachable now subDays format w -> consistent w.
Proof.
  induction 1 as [g | w e _ IH Hoff].
  - apply mount_consistent.
  - apply step_consistent; assumption.
Qed.

End Reachability.

Section Sessions.

Variable now : nat -> nat -> Date.
Variable subDays : Date -> number -> Date.
Variable format : Date -> string -> string.

Lemma run_reachable (es : list Event) (w : World) :
  reachable now subDays format w ->
  allowed now subDays format es w = true ->
  reachable now subDays format (run now subDays format es w).
Proof.
  revert w. induction es as [| e es IH]; intros w Hw Ha; cbn [run fold_left].
  - exact Hw.
  - cbn [allowed] in Ha. apply andb_true_iff in Ha. destruct Ha as [He Hes].
    apply IH; [apply reachable_step; assumption | exact Hes].
Qed.

End Sessions.

Lemma sampleSession_reachable :
  reachable sampleClock sampleSubDays sampleFormat sampleSession.
Proof.
  apply run_reachable; [apply reachable_mount | vm_compute; reflexivity].
Qed.

Lemma failedSession_reachable :
  reachable sampleClock sampleSubDays sampleFormat failedSession.
Proof.
  apply run_reachable; [apply reachable_mount | vm_compute; reflexivity].
Qed.

Lemma normalize_change (quotes : gmap string number) (c : string) :
  change (normalize quotes c) = lit "0".
Proof. reflexivity. Qed.

(** X9: in every world of the mounted component the snapshot is either
    empty, with lastUpdate null, or complete: the four records USD, EUR,
    GBP, BRL in this order with their symbols, each with change 0, the BRL
    rate 1, and lastUpdate set. *)
Theorem snapshot_empty_or_complete
    (now : nat -> nat -> Date) (subDays : Date -> number -> Date)
    (format : Date -> string -> string) (w : World) :
  reachable now subDays format w ->
  let rs := rates (state w) in
  (rs = [] /\ lastUpdate (state w) = None) \/
  (map currency rs = ["USD"; "EUR"; "GBP"; "BRL"] /\
   map symbol rs = [Some "$"; Some "€"; Some "£"; Some "R$"] /\
   map change rs = [lit "0"; lit "0"; lit "0"; lit "0"] /\
   rate_of rs "BRL" = Some (lit "1") /\
   lastUpdate (state w) <> None).
Proof.
  intros H. apply reachable_consistent in H.
  destruct H as (Hshape & Hstamp & _). cbv zeta.
  destruct Hshape as [Hnil | [quotes Hq]].
  - left. split; [exact Hnil | apply Hstamp; exact Hnil].
  - right. rewrite Hq.
    split; [reflexivity |]. split; [reflexivity |]. split; [reflexivity |].
    split; [reflexivity |].
    intros Hn. apply Hstamp in Hn. rewrite Hq in Hn. discriminate Hn.
Qed.

Lemma snapshot_empty_or_complete_witness :
  let rs := rates (state sampleSession) in
  (rs = [] /\ lastUpdate (state sampleSession) = None) \/
  (map currency rs = ["USD"; "EUR"; "GBP"; "BRL"] /\
   map symbol rs = [Some "$"; Some "€"; Some "£"; Some "R$"] /\
   map change rs = [lit "0"; lit "0"; lit "0"; lit "0"] /\
   rate_of rs "BRL" = Some (lit "1") /\
   lastUpdate (state sampleSession) <> None).
Proof.
  exact (snapshot_empty_or_complete sampleClock sampleSubDays sampleFormat
           sampleSession sampleSession_reachable).
Defined.

(** X10: in every world of the mounted component the chart has no point
    while there are no rates, and N+1 points for the range that is
    selected otherwise: the effect keeps it in step with the range. *)
Theorem chart_follows_range
    (now : nat -> nat -> Date) (subDays : Date -> number -> Date)
    (format : Date -> string -> string) (w : World) :
  reachable now subDays format w ->
  List.length (historicalData (state w)) =
    match rates (state w) with
    | [] => 0%nat
    | _ :: _ => S (days (timeRange (state w)))
    end.
Proof.
  intros H. apply reachable_consistent in H. apply H.
Qed.

Lemma chart_follows_range_witness :
  List.length (historicalData (state sampleSession)) =
    match rates (state sampleSession) with
    | [] => 0%nat
    | _ :: _ => S (days (timeRange (state sampleSession)))
    end.
Proof.
  exact (chart_follows_range sampleClock sampleSubDays sampleFormat
           sampleSession sampleSession_reachable).
Defined.

Lemma rate_of_complete (quotes : gmap string number) (c : string) :
  In c SUPPORTED_CURRENCIES ->
  exists r, rate_of (map (normalize quotes) SUPPORTED_CURRENCIES) c = Some r.
Proof.
  intros [<- | [<- | [<- | [<- | []]]]]; eexists; reflexivity.
Qed.

(** X11: whenever the dashboard is shown the snapshot is loaded: the
    currency selects offer USD, EUR, GBP, BRL, lastUpdate is set, and
    rates.find succeeds for the selected currency, for both converter
    currencies, for the currency of the alert form and for the currency of
    every alert. *)
Theorem dashboard_lookups_succeed
    (now : nat -> nat -> Date) (subDays : Date -> number -> Date)
    (format : Date -> string -> string) (w : World) :
  reachable now subDays format w ->
  view (state w) = Dashboard ->
  let s := state w in
  currencyOptions s = ["USD"; "EUR"; "GBP"; "BRL"] /\
  lastUpdate s <> None /\
  (exists r, rate_of (rates s) (selectedCurrency s) = Some r) /\
  (exists r, rate_of (rates s) (convertFrom s) = Some r) /\
  (exists r, rate_of (rates s) (convertTo s) = Some r) /\
  (exists r, rate_of (rates s) (AlertForm.currency (alertForm s)) = Some r) /\
  Forall (fun a => exists r, rate_of (rates s) (Alert.currency a) = Some r) (alerts s).
Proof.
  intros H Hv. apply reachable_consistent in H.
  destruct H as (Hshape & Hstamp & _ & Hdash & Herr & _ & Hsel & Hfrom & Hto & Hform & Hal).
  destruct (dashboard_snapshot (state w) Hdash Herr Hv) as [Hne _]. cbv zeta.
  destruct Hshape as [Hnil | [quotes Hq]]; [contradiction |].
  unfold currencyOptions. rewrite Hq.
  split; [reflexivity |].
  split; [intros Hn; apply Hstamp in Hn; contradiction |].
  split; [apply rate_of_complete; exact Hsel |].
  split; [apply rate_of_complete; exact Hfrom |].
  split; [apply rate_of_complete; exact Hto |].
  split; [apply rate_of_complete; exact Hform |].
  apply List.Forall_forall. intros a Ha. rewrite List.Forall_forall in Hal.
  apply rate_of_complete, Hal, Ha.
Qed.

Lemma dashboard_lookups_succeed_witness :
  view (state sampleSession) = Dashboard /\
  currencyOptions (state sampleSession) = ["USD"; "EUR"; "GBP"; "BRL"] /\
  exists r, rate_of (rates (state sampleSession))
              (selectedCurrency (state sampleSession)) = Some r.
Proof.
  assert (Hv : view (state sampleSession) = Dashboard) by (vm_compute; reflexivity).
  destruct (dashboard_lookups_succeed sampleClock sampleSubDays sampleFormat
              sampleSession sampleSession_reachable Hv) as (Ho & _ & Hs & _).
  split; [exact Hv |]. split; [exact Ho | exact Hs].
Defined.

(** X12: every alert of the list, the alert form, the selected currency
    and both converter currencies name one of USD, EUR, GBP, BRL, in every
    world of the mounted component. *)
Theorem alerts_name_supported_currencies
    (now : nat -> nat -> Date) (subDays : Date -> number -> Date)
    (format : Date -> string -> string) (w : World) :
  reachable now subDays format w ->
  Forall (fun a => In (Alert.currency a) ["USD"; "EUR"; "GBP"; "BRL"])
         (alerts (state w)) /\
  In (AlertForm.currency (alertForm (state w))) ["USD"; "EUR"; "GBP"; "BRL"] /\
  In (selectedCurrency (state w)) ["USD"; "EUR"; "GBP"; "BRL"] /\
  In (convertFrom (state w)) ["USD"; "EUR"; "GBP"; "BRL"] /\
  In (convertTo (state w)) ["USD"; "EUR"; "GBP"; "BRL"].
Proof.
  intros H. apply reachable_consistent in H.
  destruct H as (_ & _ & _ & _ & _ & _ & Hsel & Hfrom & Hto & Hform & Hal).
  repeat split; assumption.
Qed.

Lemma alerts_name_supported_currencies_witness :
  alerts (state sampleSession) <> [] /\
  Forall (fun a => In (Alert.currency a) ["USD"; "EUR"; "GBP"; "BRL"])
         (alerts (state sampleSession)).
Proof.
  split; [vm_compute; discriminate |].
  exact (proj1 (alerts_name_supported_currencies sampleClock sampleSubDays sampleFormat
                  sampleSession sampleSession_reachable)).
Defined.

(** X13: while loading is true a request is pending, so its settlement
    can occur; the loading screen is shown only without rates, and then a
    request is pending. *)
Theorem loading_has_pending_request
    (now : nat -> nat -> Date) (subDays : Date -> number -> Date)
    (format : Date -> string -> string) (w : World) :
  reachable now subDays format w ->
  (loading (state w) = true -> forall o, offered w (Settle o) = true) /\
  (view (state w) = LoadingScreen ->
   rates (state w) = [] /\ forall o, offered w (Settle o) = true).
Proof.
  intros H. apply reachable_consistent in H.
  destruct H as (_ & _ & _ & _ & _ & Hspin & _).
  assert (Hl : loading (state w) = true -> forall o, offered w (Settle o) = true).
  { intros L o. cbn [offered]. apply Nat.ltb_lt. apply Hspin. exact L. }
  split; [exact Hl |].
  unfold view. intros Hv.
  destruct (loading (state w)) eqn:L.
  - cbn [andb] in Hv. destruct (rates (state w)) as [| r rs].
    + split; [reflexivity | apply Hl; reflexivity].
    + cbn [List.length Nat.eqb] in Hv.
      destruct (error (state w)) as [m |]; [destruct (truthy_string m) |];
        discriminate Hv.
  - cbn [andb] in Hv.
    destruct (error (state w)) as [m |]; [destruct (truthy_string m) |];
      discriminate Hv.
Qed.

Lemma loading_has_pending_request_witness :
  loading (state (mount sampleClock sampleSubDays sampleFormat
                    (constantRandom (lit "0.5")))) = true /\
  offered (mount sampleClock sampleSubDays sampleFormat (constantRandom (lit "0.5")))
          (Settle (inr goodResponse)) = true.
Proof.
  split; [reflexivity |].
  apply (loading_has_pending_request sampleClock sampleSubDays sampleFormat
           (mount sampleClock sampleSubDays sampleFormat (constantRandom (lit "0.5")))
           (reachable_mount _ _ _ _)).
  reflexivity.
Defined.

(** X14: the text of the error screen always starts with "Erro ao
    carregar taxas de câmbio: "; on that screen the retry button is
    offered and the converter and the alert button are not.  A retry
    clears the error at once: the loading screen is shown when no snapshot
    is kept, the dashboard with the kept snapshot otherwise. *)
Theorem error_screen_offers_retry
    (now : nat -> nat -> Date) (subDays : Date -> number -> Date)
    (format : Date -> string -> string) (w : World) (message : string) :
  reachable now subDays format w ->
  view (state w) = ErrorScreen message ->
  (exists cause, message = "Erro ao carregar taxas de câmbio: " ++ cause) /\
  offered w ClickRetry = true /\
  (forall v, offered w (ChangeAmount v) = false) /\
  offered w ClickCreate = false /\
  let s' := state (step now subDays format ClickRetry w) in
  rates s' = rates (state w) /\
  view s' = match rates (state w) with
            | [] => LoadingScreen
            | _ :: _ => Dashboard
            end.
Proof.
  intros H Hv. apply reachable_consistent in H.
  destruct H as (_ & _ & _ & _ & Herr & _).
  split.
  { unfold view in Hv.
    destruct (loading (state w) && (List.length (rates (state w)) =? 0)%nat);
      [discriminate Hv |].
    destruct Herr as [He | [cause He]]; rewrite He in Hv; [discriminate Hv |].
    cbn [String.append truthy_string] in Hv. injection Hv as <-.
    exists cause. reflexivity. }
  cbn [offered]. rewrite Hv.
  split; [reflexivity |]. split; [reflexivity |]. split; [reflexivity |].
  unfold step. cbn [handle fetchExchangeRates_call update bind snd state].
  unfold depsChanged. project_state.
  rewrite String.eqb_refl, TimeRange_eqb_refl. cbn [negb orb]. project_state.
  split; [reflexivity |].
  unfold view. project_state. cbn [andb].
  destruct (rates (state w)); reflexivity.
Qed.

Lemma error_screen_offers_retry_witness :
  view (state failedSession) =
    ErrorScreen "Erro ao carregar taxas de câmbio: Failed to fetch exchange rates" /\
  offered failedSession ClickRetry = true /\
  view (state (step sampleClock sampleSubDays sampleFormat ClickRetry failedSession)) =
    LoadingScreen.
Proof.
  assert (Hv : view (state failedSession) =
               ErrorScreen "Erro ao carregar taxas de câmbio: Failed to fetch exchange rates")
    by (vm_compute; reflexivity).
  destruct (error_screen_offers_retry sampleClock sampleSubDays sampleFormat
              failedSession _ failedSession_reachable Hv) as (_ & Hr & _ & _ & _ & Hview).
  split; [exact Hv |]. split; [exact Hr |]. exact Hview.
Defined.

(** X15: every card ever rendered shows the change "0.00%" in the red
    class: never a plus sign, never the green class. *)
Theorem cards_show_no_change
    (now : nat -> nat -> Date) (subDays : Date -> number -> Date)
    (format : Date -> string -> string) (w : World) :
  reachable now subDays format w ->
  Forall (fun r => changeLabel r = "0.00%" /\ changeClass r = "text-red-600")
         (rates (state w)).
Proof.
  intros H. apply reachable_consistent in H. destruct H as (Hshape & _).
  destruct Hshape as [-> | [quotes ->]]; [constructor |].
  apply List.Forall_forall. intros r Hr. apply in_map_iff in Hr.
  destruct Hr as (c & <- & _). unfold changeLabel, changeClass.
  rewrite normalize_change. split; vm_compute; reflexivity.
Qed.

Lemma cards_show_no_change_witness :
  List.length (rates (state sampleSession)) = 4%nat /\
  Forall (fun r => changeLabel r = "0.00%" /\ changeClass r = "text-red-600")
         (rates (state sampleSession)).
Proof.
  split; [vm_compute; reflexivity |].
  exact (cards_show_no_change sampleClock sampleSubDays sampleFormat
           sampleSession sampleSession_reachable).
Defined.

(** ** Cards and conversions on unusual quotes *)

Lemma fetch_rates (s : AppState) (d : APIResponse) (entries : gmap string number) :
  result d = "success" ->
  conversion_rates d = Table entries ->
  rates (fetch (inr d) s) = map (normalize entries) SUPPORTED_CURRENCIES.
Proof. intros H Ht. rewrite (fetch_success s d entries H Ht). reflexivity. Qed.

Lemma or_default_falsy (v : option number) (d : number) :
  match v with Some x => truthy x = false | None => True end ->
  or_default v d = d.
Proof. destruct v as [x |]; cbn; [intros -> |]; reflexivity. Qed.

(** X17: after a successful fetch in which a currency is missing from
    conversion_rates (or is quoted NaN or infinite), the converter treats
    that currency as BRL, on either side: its rate is falsy, so the default
    1 is used. *)
Theorem conversion_treats_missing_quote_as_home
    (s : AppState) (d : APIResponse) (entries : gmap string number)
    (c amount other : string) :
  result d = "success" ->
  conversion_rates d = Table entries ->
  In c ["USD"; "EUR"; "GBP"] ->
  (entries !! c = None \/
   entries !! c = Some NaN \/
   exists sg, entries !! c = Some (S754_infinity sg)) ->
  let s' := fetch (inr d) s in
  calculateConversion (withConversion amount other c s') =
    calculateConversion (withConversion amount other "BRL" s') /\
  calculateConversion (withConversion amount c other s') =
    calculateConversion (withConversion amount "BRL" other s').
Proof.
  intros H Ht Hc Hq. cbv zeta.
  rewrite !calculateConversion_guard.
  cbn [convertAmount convertFrom convertTo rates withConversion].
  rewrite (fetch_rates s d entries H Ht).
  assert (Hbrl : or_default (rate_of (map (normalize entries)
                                          SUPPORTED_CURRENCIES) "BRL") one = one).
  { rewrite normalize_supported, lit_1. reflexivity. }
  assert (Hmiss : or_default (rate_of (map (normalize entries)
                                           SUPPORTED_CURRENCIES) c) one = one).
  { rewrite (rate_of_supported _ c Hc). apply or_default_falsy.
    destruct Hq as [-> | [-> | [sg ->]]]; reflexivity. }
  rewrite Hbrl, Hmiss. split; reflexivity.
Qed.

Lemma conversion_treats_missing_quote_as_home_witness :
  result badResponse = "success" /\
  entries_of badResponse !! "GBP" = None /\
  calculateConversion (withConversion "10" "BRL" "GBP" (fetch (inr badResponse) initialState)) =
    "10.00".
Proof.
  split; [reflexivity |]. split; [vm_compute; reflexivity |].
  rewrite (proj1 (conversion_treats_missing_quote_as_home initialState badResponse
                    _ "GBP" "10" "BRL" eq_refl eq_refl
                    ltac:(cbn; tauto) ltac:(left; vm_compute; reflexivity))).
  vm_compute. reflexivity.
Defined.

(** X18: after a successful fetch in which a currency is quoted zero, its
    rate is infinite: converting a non-zero amount to it gives "0.00" when
    amount * fromRate is finite, and converting from it to a currency with
    a finite rate gives "Infinity" or "-Infinity". *)
Theorem conversion_with_zero_quote
    (s : AppState) (d : APIResponse) (entries : gmap string number)
    (c amount other : string) (sg : bool) :
  result d = "success" ->
  conversion_rates d = Table entries ->
  In c ["USD"; "EUR"; "GBP"] ->
  entries !! c = Some (S754_zero sg) ->
  truthy (Number amount) = true ->
  let s' := fetch (inr d) s in
  let otherRate := or_default (rate_of (rates s') other) (lit "1") in
  (is_finite (mul (Number amount) otherRate) = true ->
   calculateConversion (withConversion amount other c s') = "0.00") /\
  (is_finite otherRate = true ->
   calculateConversion (withConversion amount c other s') = "Infinity" \/
   calculateConversion (withConversion amount c other s') = "-Infinity").
Proof.
  intros H Ht Hc Hq Ha. cbv zeta.
  rewrite !calculateConversion_guard.
  cbn [convertAmount convertFrom convertTo rates withConversion].
  rewrite (fetch_rates s d entries H Ht), Ha, lit_1.
  assert (Hinf : or_default (rate_of (map (normalize entries)
                                          SUPPORTED_CURRENCIES) c) one =
                 S754_infinity sg).
  { rewrite (rate_of_supported _ c Hc), Hq. destruct sg; reflexivity. }
  rewrite Hinf.
  set (r := or_default (rate_of (map (normalize entries)
                                     SUPPORTED_CURRENCIES) other) one).
  assert (Hr : truthy r = true).
  { unfold r, or_default.
    destruct (rate_of (map (normalize entries) SUPPORTED_CURRENCIES) other)
      as [v |]; [destruct (truthy v) eqn:Tv; [exact Tv |] |]; reflexivity. }
  clearbody r. split.
  - intros Hf.
    destruct (mul (Number amount) r) as [s1 | s1 | | s1 m1 e1]; try discriminate Hf;
      reflexivity.
  - intros Hf.
    destruct (Number amount) as [s0 | s0 | | s0 m0 e0]; try discriminate Ha;
      destruct r as [s1 | s1 | | s1 m1 e1]; try discriminate Hr; try discriminate Hf;
      destruct s0, sg, s1; cbn; tauto.
Qed.

Lemma conversion_with_zero_quote_witness :
  result badResponse = "success" /\
  entries_of badResponse !! "USD" = Some (S754_zero false) /\
  truthy (Number "10") = true /\
  calculateConversion (withConversion "10" "BRL" "USD" (fetch (inr badResponse) initialState)) =
    "0.00".
Proof.
  split; [reflexivity |]. split; [vm_compute; reflexivity |].
  split; [vm_compute; reflexivity |].
  apply (conversion_with_zero_quote initialState badResponse _ "USD" "10" "BRL" false
           eq_refl eq_refl ltac:(cbn; tauto) ltac:(vm_compute; reflexivity)
           ltac:(vm_compute; reflexivity)).
  vm_compute. reflexivity.
Defined.

(** ** When the chart is redrawn *)

Section Redraw.

Variable now : nat -> nat -> Date.
Variable subDays : Date -> number -> Date.
Variable format : Date -> string -> string.

(** X19: a request that settles with a success response whose
    conversion_rates is an object redraws the chart even when the rates are
    the same: the new chart is synthesized around the new rate of the
    selected currency (5 when that rate is falsy) with N+1 fresh draws.  A
    failed request leaves the chart and the generator alone, and so does a
    success response without conversion_rates, which fails at line 79. *)
Theorem refresh_redraws_chart (w : World) (o : AxiosOutcome) :
  let s := state w in
  let w' := step now subDays format (Settle o) w in
  (fetch_fails o = true ->
   historicalData (state w') = historicalData s /\ random w' = random w) /\
  (forall d entries, o = inr d -> result d = "success" ->
   conversion_rates d = Table entries ->
   let base := or_default (rate_of (map (normalize entries)
                                        SUPPORTED_CURRENCIES) (selectedCurrency s))
                          (lit "5") in
   historicalData (state w') =
     fst (synthesize (now (S (elapsed w))) subDays format base (timeRange s) (random w)) /\
   draws (random w') = draws (random w) /\
   position (random w') = (position (random w) + S (days (timeRange s)))%nat) /\
  (forall d typeError, o = inr d -> result d = "success" ->
   conversion_rates d = Absent typeError ->
   historicalData (state w') = historicalData s /\ random w' = random w /\
   error (state w') = Some ("Erro ao carregar taxas de câmbio: " ++ typeError)).
Proof.
  cbv zeta. unfold step. cbn [handle]. rewrite resume_cases.
  split; [| split].
  - intros Hf. rewrite Hf. unfold depsChanged. rewrite Hf. project_state.
    rewrite String.eqb_refl, TimeRange_eqb_refl. cbn [negb orb state random].
    project_state. split; reflexivity.
  - intros d entries -> Hd Ht.
    assert (Hf : fetch_fails (inr d) = false).
    { cbn [fetch_fails]. rewrite Ht. apply String.eqb_eq in Hd. rewrite Hd. reflexivity. }
    rewrite Hf. unfold depsChanged. rewrite Hf. cbn [negb orb state random].
    rewrite historyEffect_cases.
    unfold entries_of. rewrite Ht.
    project_state. cbn [map SUPPORTED_CURRENCIES]. project_state.
    cbn [draws position]. unfold baseRate. project_state.
    repeat split.
  - intros d typeError -> Hd Ht.
    assert (Hf : fetch_fails (inr d) = true).
    { cbn [fetch_fails]. rewrite Ht. apply String.eqb_eq in Hd. rewrite Hd. reflexivity. }
    rewrite Hf. unfold depsChanged. rewrite Hf. project_state.
    rewrite String.eqb_refl, TimeRange_eqb_refl. cbn [negb orb state random].
    project_state. unfold errorText. apply String.eqb_eq in Hd. rewrite Hd, Ht.
    repeat split.
Qed.

(** X2: on the page, one polling cycle (the timer fires and its request
    settles) leaves alone what the user set: the alerts, the alert form, the
    selected currency, the range, the fields and the toggle of the
    converter, and dark mode.  The chart and the generator are left alone
    only when the cycle fails; after a cycle that succeeds the history
    effect runs again and replaces the chart by one synthesized around the
    new rate of the selected currency, with N+1 fresh draws. *)
Theorem fetch_keeps_user_state (w : World) (o : AxiosOutcome) :
  let s := state w in
  let w' := run now subDays format [Tick; Settle o] w in
  let s' := state w' in
  (alerts s' = alerts s /\ alertForm s' = alertForm s /\
   selectedCurrency s' = selectedCurrency s /\ timeRange s' = timeRange s /\
   convertAmount s' = convertAmount s /\ convertFrom s' = convertFrom s /\
   convertTo s' = convertTo s /\ showConverter s' = showConverter s /\
   darkMode s' = darkMode s) /\
  (fetch_fails o = true ->
   historicalData s' = historicalData s /\ random w' = random w) /\
  (fetch_fails o = false ->
   rates s' <> [] /\
   historicalData s' =
     fst (synthesize (now (S (S (elapsed w)))) subDays format
            (or_default (rate_of (rates s') (selectedCurrency s)) (lit "5"))
            (timeRange s) (random w)) /\
   draws (random w') = draws (random w) /\
   position (random w') = (position (random w) + S (days (timeRange s)))%nat).
Proof.
  cbv zeta. unfold run. cbn [fold_left].
  set (w1 := step now subDays format Tick w).
  assert (H1 : state w1 = setError None (setLoading true (state w)) /\
               random w1 = random w /\ elapsed w1 = S (elapsed w)).
  { unfold w1, step. cbn [handle fetchExchangeRates_call update bind snd]. quiet_step.
    cbn [state random elapsed]. repeat split. }
  destruct H1 as (Hs1 & Hr1 & He1).
  unfold step. cbn [handle]. rewrite resume_cases, Hs1, Hr1, He1.
  destruct (fetch_fails o) eqn:Hf.
  - unfold depsChanged. rewrite Hf. project_state.
    rewrite String.eqb_refl, TimeRange_eqb_refl. cbn [negb orb state random].
    project_state. cbn [darkMode showConverter convertAmount].
    repeat split; intros; try discriminate; reflexivity.
  - unfold depsChanged. rewrite Hf. cbn [negb orb state random].
    rewrite historyEffect_cases.
    project_state. cbn [map SUPPORTED_CURRENCIES]. project_state.
    cbn [draws position darkMode showConverter convertAmount].
    unfold baseRate. project_state.
    repeat split; intros; try discriminate; reflexivity.
Qed.

Lemma reselect_same (s : AppState) :
  setSelectedCurrency (selectedCurrency s) s = s /\ setTimeRange (timeRange s) s = s.
Proof. destruct s; split; reflexivity. Qed.

(** X20: clicking the card or the range that is already selected changes
    nothing and consumes no draw; clicking another one, with rates loaded,
    redraws the chart around the rate of the selected currency for the
    selected range, with N+1 fresh draws. *)
Theorem selection_redraws_on_change (w : World) :
  let s := state w in
  (state (step now subDays format (ClickCard (selectedCurrency s)) w) = s /\
   random (step now subDays format (ClickCard (selectedCurrency s)) w) = random w) /\
  (state (step now subDays format (ClickRange (timeRange s)) w) = s /\
   random (step now subDays format (ClickRange (timeRange s)) w) = random w) /\
  (forall c, c <> selectedCurrency s -> rates s <> [] ->
     let w' := step now subDays format (ClickCard c) w in
     historicalData (state w') =
       fst (synthesize (now (S (elapsed w))) subDays format
              (or_default (rate_of (rates s) c) (lit "5")) (timeRange s) (random w)) /\
     position (random w') = (position (random w) + S (days (timeRange s)))%nat) /\
  (forall r, r <> timeRange s -> rates s <> [] ->
     let w' := step now subDays format (ClickRange r) w in
     historicalData (state w') =
       fst (synthesize (now (S (elapsed w))) subDays format
              (or_default (rate_of (rates s) (selectedCurrency s)) (lit "5")) r (random w)) /\
     position (random w') = (position (random w) + S (days r))%nat).
Proof.
  cbv zeta. destruct (reselect_same (state w)) as [Hc Hr].
  unfold step. cbn [handle state random]. split; [| split; [| split]].
  - rewrite Hc. unfold depsChanged.
    rewrite String.eqb_refl, TimeRange_eqb_refl. cbn [negb orb fst snd].
    split; reflexivity.
  - rewrite Hr. unfold depsChanged.
    rewrite String.eqb_refl, TimeRange_eqb_refl. cbn [negb orb fst snd].
    split; reflexivity.
  - intros c Hne Hrs. unfold depsChanged. project_state.
    destruct (String.eqb_spec (selectedCurrency (state w)) c) as [E | _];
      [congruence |].
    cbn [negb orb]. rewrite historyEffect_cases. project_state.
    destruct (rates (state w)) as [| r0 rs] eqn:Er; [contradiction |].
    cbn [fst snd position]. project_state. unfold baseRate. project_state.
    rewrite Er. split; reflexivity.
  - intros r Hne Hrs. unfold depsChanged. project_state.
    rewrite String.eqb_refl.
    destruct (TimeRange_eqb (timeRange (state w)) r) eqn:E;
      [apply TimeRange_eqb_eq in E; congruence |].
    cbn [negb orb]. rewrite historyEffect_cases. project_state.
    destruct (rates (state w)) as [| r0 rs] eqn:Er; [contradiction |].
    cbn [fst snd position]. project_state. unfold baseRate. project_state.
    rewrite Er. split; reflexivity.
Qed.

End Redraw.

Lemma refresh_redraws_chart_witness :
  result goodResponse = "success" /\
  position (random sampleSession) = 16%nat /\
  position (random (step sampleClock sampleSubDays sampleFormat
                      (Settle (inr goodResponse)) sampleSession)) = 24%nat /\
  result bareResponse = "success" /\
  position (random (step sampleClock sampleSubDays sampleFormat
                      (Settle (inr bareResponse)) sampleSession)) = 16%nat.
Proof.
  split; [reflexivity |]. split; [vm_compute; reflexivity |].
  destruct (refresh_redraws_chart sampleClock sampleSubDays sampleFormat sampleSession
              (inr goodResponse)) as (_ & H & _).
  destruct (H goodResponse _ eq_refl eq_refl eq_refl) as (_ & _ & Hp).
  split; [rewrite Hp; vm_compute; reflexivity |].
  split; [reflexivity |].
  destruct (refresh_redraws_chart sampleClock sampleSubDays sampleFormat sampleSession
              (inr bareResponse)) as (_ & _ & H').
  destruct (H' bareResponse _ eq_refl eq_refl eq_refl) as (_ & Hg & _).
  rewrite Hg. vm_compute. reflexivity.
Defined.

Lemma selection_redraws_on_change_witness :
  "USD" <> selectedCurrency (state sampleSession) /\
  rates (state sampleSession) <> [] /\
  position (random (step sampleClock sampleSubDays sampleFormat
                      (ClickCard "USD") sampleSession)) = 24%nat.
Proof.
  assert (Hne : "USD" <> selectedCurrency (state sampleSession))
    by (vm_compute; discriminate).
  assert (Hrs : rates (state sampleSession) <> []) by (vm_compute; discriminate).
  split; [exact Hne |]. split; [exact Hrs |].
  destruct (selection_redraws_on_change sampleClock sampleSubDays sampleFormat
              sampleSession) as (_ & _ & H & _).
  destruct (H "USD" Hne Hrs) as [_ Hp].
  rewrite Hp. vm_compute. reflexivity.
Defined.

(** ** Accuracy of a conversion *)

Open Scope R_scope.

Lemma div_core_error (s : bool) (mx my : positive) (ex ey : Z) :
  let X := F2R mx ex / F2R my ey in
  let z := let '(q, e', l) := SFdiv_core_binary prec emax (Zpos mx) ex (Zpos my) ey in
           binary_round_aux prec emax s q e' l in
  (is_finite z = true /\
   Rabs (SF2R z - signed s X) <= X * bpow (-53) + bpow (-1075)) \/
  (z = S754_infinity s /\ bpow 971 <= X).
Proof.
  intros X z. subst z.
  pose proof (div_core_located mx my ex ey) as Hcore.
  destruct (SFdiv_core_binary prec emax (Zpos mx) ex (Zpos my) ey) as [[q e'] l].
  destruct Hcore as (Hq & Hloc & He').
  change (IZR (Zpos mx) * bpow ex / (IZR (Zpos my) * bpow ey)) with X in Hloc.
  pose proof (F2R_pos mx ex) as Hxpos. pose proof (F2R_pos my ey) as Hypos.
  assert (HXpos : 0 < X) by (unfold X; apply Rdiv_lt_0_compat; assumption).
  pose proof (bpow_pos (-53)) as H53. pose proof (bpow_pos (-1075)) as H1075.
  assert (HX53 : 0 <= X * bpow (-53)) by (apply Rmult_le_pos; lra).
  (* the quotient is at least 2^(dx + ex - dy - ey - 1) *)
  assert (Hquot : bpow (Zdigits2 (Zpos mx) + ex - (Zdigits2 (Zpos my) + ey) - 1) <= X).
  { replace (Zdigits2 (Zpos mx) + ex - (Zdigits2 (Zpos my) + ey) - 1)%Z
      with ((Zdigits2 (Zpos mx) - 1 + ex) + - (Zdigits2 (Zpos my) + ey))%Z by lia.
    rewrite bpow_add, bpow_opp.
    pose proof (digits_lower mx) as Hp.
    pose proof (digits_upper (Zpos my) ltac:(lia)) as Hd.
    assert (Hnum : bpow (Zdigits2 (Zpos mx) - 1 + ex) <= F2R mx ex).
    { rewrite bpow_add. unfold F2R. apply Rmult_le_compat_r; [apply Rlt_le, bpow_pos | exact Hp]. }
    assert (Hden : F2R my ey <= bpow (Zdigits2 (Zpos my) + ey)).
    { rewrite bpow_add. unfold F2R. apply Rmult_le_compat_r; [apply Rlt_le, bpow_pos | lra]. }
    pose proof (bpow_pos (Zdigits2 (Zpos my) + ey)) as Hbd.
    pose proof (bpow_pos (Zdigits2 (Zpos mx) - 1 + ex)) as Hbn.
    unfold X, Rdiv. apply Rmult_le_compat; try lra.
    - apply Rlt_le, Rinv_0_lt_compat. exact Hbd.
    - apply Rinv_le_contravar; lra. }
  pose proof (inbetween_bounds _ _ _ Hloc) as Hqb.
  destruct (binary_round_aux_spec s q e' l (X * bpow (- e')) Hq Hloc)
    as (m2 & Hm2 & Hnear & Hres).
  set (e1 := Z.max (fexp prec emax (Zdigits2 q + e')) e') in *.
  replace (X * bpow (- e') * bpow (e' - e1)) with (X * bpow (- e1)) in Hnear
    by (rewrite Rmult_assoc, <- bpow_add; do 2 f_equal; lia).
  pose proof (bpow_pos e1) as Hbe1.
  assert (Hone : bpow (- e1) * bpow e1 = 1)
    by (rewrite <- bpow_add, Z.add_opp_diag_l; reflexivity).
  assert (Hscaled : X * bpow (- e1) * bpow e1 = X) by (rewrite Rmult_assoc, Hone; lra).
  assert (Hhalf : Rabs (IZR m2 * bpow e1 - X) <= bpow e1 / 2).
  { apply Rabs_le. destruct Hnear as [Hn1 Hn2].
    apply (Rmult_le_compat_r (bpow e1)) in Hn1; [| lra].
    apply (Rmult_le_compat_r (bpow e1)) in Hn2; [| lra].
    rewrite Rmult_minus_distr_r, Hscaled in Hn1.
    rewrite Rmult_plus_distr_r, Hscaled in Hn2. lra. }
  assert (Hemin : (emin prec emax <= e1)%Z).
  { unfold e1, fexp. change IntDef.Z.max with Z.max. lia. }
  assert (Herr : Rabs (IZR m2 * bpow e1 - X) <= X * bpow (-53) + bpow (-1075) /\
                 ((971 <= e1)%Z -> bpow 971 <= X)).
  { destruct (Z.eq_dec e1 (emin prec emax)) as [Hmin | Hnorm].
    - split.
      + assert (Hb : bpow e1 = 2 * bpow (-1075)).
        { rewrite Hmin. change (emin prec emax) with (-1075 + 1)%Z. apply bpow_succ. }
        lra.
      + intros Hbig. rewrite Hmin in Hbig. unfold emin, prec, emax in Hbig. lia.
    - assert (Hlow : bpow (e1 + 52) <= X).
      { destruct (Z.eq_dec e1 e') as [Heq | Hne].
        - (* the exponent of the quotient was kept *)
          apply Rle_trans with
            (bpow (Zdigits2 (Zpos mx) + ex - (Zdigits2 (Zpos my) + ey) - 1));
            [| exact Hquot].
          apply bpow_le. unfold fexp, emin, prec, emax in He', Hnorm, Hemin.
          change IntDef.Z.max with Z.max in He'. lia.
        - (* the quotient was shifted to 53 bits *)
          assert (He1 : e1 = (Zdigits2 q + e' - 53)%Z).
          { unfold e1, fexp, emin, prec, emax in *.
            change IntDef.Z.max with Z.max in *. lia. }
          destruct q as [| pq | pq]; [| | lia].
          + exfalso. unfold e1, fexp, emin, prec, emax in *.
            change IntDef.Z.max with Z.max in *. cbn [Zdigits2] in *. lia.
          + replace (e1 + 52)%Z with ((Zdigits2 (Zpos pq) - 1) + e')%Z by lia.
            rewrite bpow_add. pose proof (digits_lower pq) as Hd.
            pose proof (bpow_pos e') as Hbe.
            assert (Hone' : bpow (- e') * bpow e' = 1)
              by (rewrite <- bpow_add, Z.add_opp_diag_l; reflexivity).
            apply Rle_trans with (X * bpow (- e') * bpow e');
              [| rewrite Rmult_assoc, Hone'; lra].
            apply Rmult_le_compat_r; lra. }
      assert (Hulp : bpow e1 / 2 = bpow (e1 + 52) * bpow (-53)).
      { rewrite <- bpow_add. replace (e1 + 52 + -53)%Z with (e1 + -1)%Z by lia.
        rewrite bpow_add, bpow_m1. lra. }
      split.
      + rewrite Hulp in Hhalf.
        apply (Rmult_le_compat_r (bpow (-53))) in Hlow; [| lra]. lra.
      + intros Hbig. pose proof (bpow_le 971 (e1 + 52) ltac:(lia)). lra. }
  destruct Herr as [Herr Hover].
  destruct (binary_round_aux prec emax s q e' l) as [s' | s' | | s' m e].
  - left. destruct Hres as [-> ->]. split; [reflexivity |].
    cbn [SF2R]. rewrite Rmult_0_l in Herr.
    unfold signed. destruct s; [| exact Herr].
    replace (0 - - X) with (- (0 - X)) by ring. rewrite Rabs_Ropp. exact Herr.
  - right. destruct Hres as [-> Hbig]. split; [reflexivity |].
    apply Hover. unfold emax, prec in Hbig. lia.
  - contradiction.
  - left. destruct Hres as (-> & Hval & _ & _). split; [reflexivity |].
    cbn [SF2R]. unfold F2R. rewrite Hval.
    unfold signed. destruct s; [| exact Herr].
    replace (- (IZR m2 * bpow e1) - - X) with (- (IZR m2 * bpow e1 - X)) by ring.
    rewrite Rabs_Ropp. exact Herr.
Qed.

Lemma div_error (x y : spec_float) :
  is_finite x = true -> is_finite y = true -> SF2R y <> 0 ->
  let V := SF2R x / SF2R y in
  (is_finite (div x y) = true /\
   Rabs (SF2R (div x y) - V) <= Rabs V * bpow (-53) + bpow (-1075)) \/
  (is_finite (div x y) = false /\ bpow 971 <= Rabs V).
Proof.
  intros Hx Hy Hy0 V. subst V.
  pose proof (bpow_pos (-1075)) as H1075. pose proof (bpow_pos (-53)) as H53.
  destruct y as [sy | sy | | sy my ey]; try discriminate Hy;
    [cbn [SF2R] in Hy0; contradiction |].
  destruct x as [sx | sx | | sx mx ex]; try discriminate Hx.
  - left. split; [reflexivity |]. cbv [div SFdiv]. cbn [SF2R].
    unfold Rdiv. rewrite Rmult_0_l, Rminus_diag, Rabs_R0, Rmult_0_l. lra.
  - unfold div, SFdiv.
    pose proof (F2R_pos mx ex) as Hxpos. pose proof (F2R_pos my ey) as Hypos.
    assert (Hpos : 0 < F2R mx ex / F2R my ey) by (apply Rdiv_lt_0_compat; assumption).
    assert (HV : SF2R (S754_finite sx mx ex) / SF2R (S754_finite sy my ey) =
                 signed (xorb sx sy) (F2R mx ex / F2R my ey)).
    { cbn [SF2R]. unfold signed. destruct sx, sy; cbn [xorb]; field; lra. }
    assert (Habs : Rabs (SF2R (S754_finite sx mx ex) / SF2R (S754_finite sy my ey)) =
                   F2R mx ex / F2R my ey).
    { rewrite HV. unfold signed. destruct (xorb sx sy).
      - rewrite Rabs_Ropp. apply Rabs_pos_eq. lra.
      - apply Rabs_pos_eq. lra. }
    rewrite Habs, HV.
    destruct (div_core_error (xorb sx sy) mx my ex ey) as [[Hf Herr] | [Hinf Hbig]].
    + left. split; assumption.
    + right. rewrite Hinf. split; [reflexivity | exact Hbig].
Qed.

Close Scope R_scope.

Open Scope R_scope.

Lemma bpow_971_huge : 10000000000000 <= bpow 971.
Proof.
  apply Rle_trans with (bpow 50); [| apply bpow_le; lia].
  rewrite bpow_IZR by lia. apply IZR_le. vm_compute. discriminate.
Qed.

(** The error of [(a * f) / t] in binary64, for a divisor between a
    millionth and a million and a quotient of at most a million. *)
Lemma quotient_error (a f t : spec_float) :
  is_finite a = true -> is_finite f = true -> is_finite t = true ->
  / 1000000 <= Rabs (SF2R t) <= 1000000 ->
  Rabs (SF2R a * SF2R f / SF2R t) <= 1000000 ->
  is_finite (div (mul a f) t) = true /\
  Rabs (SF2R (div (mul a f) t) - SF2R a * SF2R f / SF2R t) <= 4 / 1000000000.
Proof.
  intros Fa Ff Ft [Htlo Hthi] HV.
  pose proof bpow_m53_tiny as Hu. pose proof bpow_m1075_tiny as He.
  pose proof (bpow_pos (-53)) as Hu0. pose proof (bpow_pos (-1075)) as He0.
  pose proof bpow_971_huge as Hbig.
  set (P := SF2R a * SF2R f) in *. set (T := SF2R t) in *.
  assert (HT0 : T <> 0).
  { intros E. rewrite E, Rabs_R0 in Htlo. lra. }
  assert (HTpos : 0 < Rabs T) by lra.
  set (I := / Rabs T).
  assert (HI : 0 < I <= 1000000).
  { unfold I. split; [apply Rinv_0_lt_compat; exact HTpos |].
    replace 1000000 with (/ / 1000000) by lra.
    apply Rinv_le_contravar; lra. }
  assert (HabsV : Rabs (P / T) = Rabs P * I).
  { unfold Rdiv, I. rewrite Rabs_mult, Rabs_inv. reflexivity. }
  assert (HP : Rabs P <= 1000000000000).
  { assert (E : Rabs P = Rabs (P / T) * Rabs T).
    { rewrite HabsV. unfold I. field. lra. }
    rewrite E. pose proof (Rabs_pos (P / T)).
    apply Rle_trans with (1000000 * 1000000); [| lra].
    apply Rmult_le_compat; lra. }
  (* the product *)
  destruct (mul_error a f Fa Ff) as [[Fy Hy] | [_ Hover]];
    [fold P in Hy | fold P in Hover; lra].
  set (Y := SF2R (mul a f)) in *.
  assert (HYT : Rabs (Y / T - P / T) <= 2 / 1000000000).
  { replace (Y / T - P / T) with ((Y - P) * / T) by (field; exact HT0).
    rewrite Rabs_mult, Rabs_inv. fold I.
    apply Rle_trans with ((Rabs P * bpow (-53) + bpow (-1075)) * I).
    { apply Rmult_le_compat_r; [lra | exact Hy]. }
    rewrite Rmult_plus_distr_r.
    replace (Rabs P * bpow (-53) * I) with (Rabs P * I * bpow (-53)) by ring.
    rewrite <- HabsV.
    assert (Rabs (P / T) * bpow (-53) <= 1000000 * / 1000000000000000).
    { apply Rmult_le_compat; try lra. apply Rabs_pos. }
    assert (bpow (-1075) * I <= / 1000000000000000 * 1000000).
    { apply Rmult_le_compat; lra. }
    lra. }
  assert (HYTb : Rabs (Y / T) <= 1000001).
  { replace (Y / T) with ((Y / T - P / T) + P / T) by ring.
    eapply Rle_trans; [apply Rabs_triang |]. lra. }
  (* the quotient *)
  destruct (div_error (mul a f) t Fy Ft HT0) as [[Fz Hz] | [_ Hover]];
    [fold Y T in Hz | fold Y T in Hover; lra].
  split; [exact Fz |].
  set (Z := SF2R (div (mul a f) t)) in *.
  replace (Z - P / T) with ((Z - Y / T) + (Y / T - P / T)) by ring.
  eapply Rle_trans; [apply Rabs_triang |].
  assert (Rabs (Y / T) * bpow (-53) <= 1000001 * / 1000000000000000).
  { apply Rmult_le_compat; try lra. apply Rabs_pos. }
  lra.
Qed.

Close Scope R_scope.

(** X21: the converter is accurate to half a cent.  For a non-zero finite
    amount and finite rates, with toRate between a millionth and a million
    in magnitude and an exact quotient amount * fromRate / toRate of at
    most a million in magnitude, the text returned reads back as a number
    within 0.00500001 of the exact quotient. *)
Theorem conversion_accuracy (s : AppState) :
  let amount := Number (convertAmount s) in
  let fromRate := or_default (rate_of (rates s) (convertFrom s)) (lit "1") in
  let toRate := or_default (rate_of (rates s) (convertTo s)) (lit "1") in
  let exact := (SF2R amount * SF2R fromRate / SF2R toRate)%R in
  truthy amount = true -> is_finite amount = true ->
  is_finite fromRate = true -> is_finite toRate = true ->
  (/ 1000000 <= Rabs (SF2R toRate) <= 1000000)%R ->
  (Rabs exact <= 1000000)%R ->
  is_finite (Number (calculateConversion s)) = true /\
  (Rabs (SF2R (Number (calculateConversion s)) - exact) <= 500001 / 100000000)%R.
Proof.
  intros amount fromRate toRate exact Ta Fa Ff Ft Ht HV.
  rewrite calculateConversion_guard. rewrite <- lit_1.
  fold amount fromRate toRate. rewrite Ta.
  destruct (quotient_error amount fromRate toRate Fa Ff Ft Ht HV) as [Fz Hz].
  fold exact in Hz.
  assert (Hzb : (Rabs (SF2R (div (mul amount fromRate) toRate)) <= 1000001)%R).
  { replace (SF2R (div (mul amount fromRate) toRate))
      with ((SF2R (div (mul amount fromRate) toRate) - exact) + exact)%R by ring.
    eapply Rle_trans; [apply Rabs_triang |]. lra. }
  destruct (Number_toFixed_near _ Fz Hzb) as [Fn Hn].
  split; [exact Fn |].
  replace (SF2R (Number (toFixed 2 (div (mul amount fromRate) toRate))) - exact)%R
    with ((SF2R (Number (toFixed 2 (div (mul amount fromRate) toRate))) -
           SF2R (div (mul amount fromRate) toRate)) +
          (SF2R (div (mul amount fromRate) toRate) - exact))%R by ring.
  eapply Rle_trans; [apply Rabs_triang |]. lra.
Qed.

Lemma SF2R_scaled (m p : positive) (v : Z) :
  (Zpos m = v * 2 ^ Zpos p)%Z ->
  SF2R (S754_finite false m (Zneg p)) = IZR v.
Proof.
  intros H. cbn [SF2R]. unfold F2R. rewrite H, mult_IZR.
  change (Zneg p) with (- Zpos p)%Z. rewrite bpow_opp, bpow_IZR by lia.
  assert (Hp : (0 < IZR (2 ^ Zpos p))%R) by (apply IZR_lt, Z.pow_pos_nonneg; lia).
  field. lra.
Qed.

Lemma conversion_accuracy_witness :
  truthy (Number "10") = true /\
  calculateConversion (withConversion "10" "USD" "BRL" loadedState) = "50.00" /\
  (Rabs (SF2R (Number (calculateConversion
                         (withConversion "10" "USD" "BRL" loadedState))) - 10 * 5 / 1)
   <= 500001 / 100000000)%R.
Proof.
  split; [vm_compute; reflexivity |]. split; [vm_compute; reflexivity |].
  pose proof (conversion_accuracy (withConversion "10" "USD" "BRL" loadedState)) as H.
  cbv zeta in H.
  assert (Ea : Number (convertAmount (withConversion "10" "USD" "BRL" loadedState)) =
               S754_finite false 5629499534213120 (-49)) by (vm_compute; reflexivity).
  assert (Ef : or_default (rate_of (rates (withConversion "10" "USD" "BRL" loadedState))
                             (convertFrom (withConversion "10" "USD" "BRL" loadedState)))
                 (lit "1") = S754_finite false 5629499534213120 (-50))
    by (vm_compute; reflexivity).
  assert (Et : or_default (rate_of (rates (withConversion "10" "USD" "BRL" loadedState))
                             (convertTo (withConversion "10" "USD" "BRL" loadedState)))
                 (lit "1") = S754_finite false 4503599627370496 (-52))
    by (vm_compute; reflexivity).
  rewrite Ea, Ef, Et in H.
  rewrite (SF2R_scaled 5629499534213120 49 10 eq_refl),
    (SF2R_scaled 5629499534213120 50 5 eq_refl),
    (SF2R_scaled 4503599627370496 52 1 eq_refl) in H.
  apply H; try reflexivity.
  - rewrite Rabs_pos_eq; lra.
  - rewrite Rabs_pos_eq; lra.
Defined.

(** X16: the prices of the four cards after a fetch that stored a
    snapshot.  The BRL card shows "R$ 1.00"; a currency missing from
    conversion_rates, or quoted NaN, shows "R$ NaN"; one quoted zero shows
    "R$ Infinity" or "R$ -Infinity"; one quoted infinite shows "R$ 0.00";
    any other shows what toFixed(2) prints for the double 1 / quote.  For a
    quote between a millionth and a million in magnitude that text has two
    decimals: it is the computed 1 / quote rounded to the nearest
    hundredth, and reads back within 0.00500001 of the exact inverse.
    Outside that range it need not have two decimals: the quote 1e-30 is
    shown as "R$ 9.999999999999999e+29" and 1e-309 as "R$ Infinity". *)
Theorem card_prices (s : AppState) (d : APIResponse) (entries : gmap string number) :
  result d = "success" ->
  conversion_rates d = Table entries ->
  map priceLabel (rates (fetch (inr d) s)) =
    (map (fun c =>
            ("R$ " ++
             match entries !! c with
             | None | Some S754_nan => "NaN"
             | Some (S754_zero sg) => if sg then "-Infinity" else "Infinity"
             | Some (S754_infinity _) => "0.00"
             | Some q => toFixed 2 (div (lit "1") q)
             end)%string) ["USD"; "EUR"; "GBP"] ++ ["R$ 1.00"])%list /\
  (forall q, is_finite q = true ->
     (/ 1000000 <= Rabs (SF2R q) <= 1000000)%R ->
     let price := div (lit "1") q in
     is_finite price = true /\
     (Rabs (SF2R price - 1 / SF2R q) <= 4 / 1000000000)%R /\
     (exists (negative : bool) (a b : list ascii) (n : Z),
        list_ascii_of_string (toFixed 2 price) =
          ((if negative then ["-"%char] else []) ++ a ++ "."%char :: b)%list /\
        a <> [] /\ forallb dec_digit a = true /\ forallb dec_digit b = true /\
        List.length b = 2%nat /\
        digits_value (a ++ b) 0 = n /\
        (Rabs (IZR n - 100 * Rabs (SF2R price)) <= / 2)%R /\
        (negative = true -> (SF2R price < 0)%R)) /\
     is_finite (Number (toFixed 2 price)) = true /\
     (Rabs (SF2R (Number (toFixed 2 price)) - 1 / SF2R q) <= 500001 / 100000000)%R) /\
  priceLabel (normalize {[ "USD" := lit "1e-30" ]} "USD") = "R$ 9.999999999999999e+29" /\
  priceLabel (normalize {[ "USD" := lit "1e-309" ]} "USD") = "R$ Infinity".
Proof.
  intros H Ht. split; [| split; [| split; vm_compute; reflexivity]].
  - rewrite (fetch_rates s d entries H Ht), normalize_supported.
    cbn [map app]. unfold priceLabel. cbn [rate]. rewrite lit_1.
    repeat f_equal;
      match goal with
      | |- context [entries !! ?c] =>
          destruct (entries !! c) as [[sg | sg | | sg m e] |];
          try destruct sg; reflexivity
      | _ => idtac
      end.
  - intros q Fq [Hlo Hhi]. cbv zeta.
    assert (E1 : SF2R (lit "1") = 1%R).
    { change (lit "1") with (S754_finite false 4503599627370496 (-52)).
      apply (SF2R_scaled 4503599627370496 52 1 eq_refl). }
    assert (Hq0 : (0 < Rabs (SF2R q))%R) by lra.
    assert (HV : (Rabs (SF2R (lit "1") * SF2R (lit "1") / SF2R q) <= 1000000)%R).
    { rewrite E1. unfold Rdiv. rewrite Rmult_1_l, Rmult_1_l, Rabs_inv.
      replace 1000000%R with (/ / 1000000)%R by lra.
      apply Rinv_le_contravar; lra. }
    destruct (quotient_error (lit "1") (lit "1") q eq_refl eq_refl Fq (conj Hlo Hhi) HV)
      as [Fz Hz].
    change (mul (lit "1") (lit "1")) with (lit "1") in Fz, Hz.
    rewrite E1 in Hz.
    replace (1 * 1 / SF2R q)%R with (1 / SF2R q)%R in Hz by (unfold Rdiv; ring).
    rewrite E1 in HV.
    replace (1 * 1 / SF2R q)%R with (1 / SF2R q)%R in HV by (unfold Rdiv; ring).
    assert (Hzb : (Rabs (SF2R (div (lit "1") q)) <= 1000001)%R).
    { replace (SF2R (div (lit "1") q))
        with ((SF2R (div (lit "1") q) - 1 / SF2R q) + 1 / SF2R q)%R by ring.
      eapply Rle_trans; [apply Rabs_triang |]. lra. }
    destruct (Number_toFixed_near _ Fz Hzb) as [Fn Hn].
    split; [exact Fz |]. split; [exact Hz |].
    split; [apply (toFixed_rounds _ Fz); lra |].
    split; [exact Fn |].
    replace (SF2R (Number (toFixed 2 (div (lit "1") q))) - 1 / SF2R q)%R
      with ((SF2R (Number (toFixed 2 (div (lit "1") q))) - SF2R (div (lit "1") q)) +
            (SF2R (div (lit "1") q) - 1 / SF2R q))%R by ring.
    eapply Rle_trans; [apply Rabs_triang |]. lra.
Qed.

Lemma card_prices_witness :
  result badResponse = "success" /\
  map priceLabel (rates (fetch (inr badResponse) initialState)) =
    ["R$ Infinity"; "R$ -6.25"; "R$ NaN"; "R$ 1.00"].
Proof.
  split; [reflexivity |].
  rewrite (proj1 (card_prices initialState badResponse _ eq_refl eq_refl)).
  vm_compute. reflexivity.
Defined.




(** ** The alert form and the list, from the page *)

Section Page.

Variable now : nat -> nat -> Date.
Variable subDays : Date -> number -> Date.
Variable format : Date -> string -> string.

Lemma historyEffect_setAlerts (new_Date : nat -> Date) (l : list Alert.t)
    (s : AppState) (g : Random) :
  historyEffect new_Date subDays format (setAlerts l s) g =
    (setAlerts l (fst (historyEffect new_Date subDays format s g)),
     snd (historyEffect new_Date subDays format s g)).
Proof.
  rewrite !historyEffect_cases. project_state.
  destruct (rates s); reflexivity.
Qed.

Lemma handle_setAlerts (e : Event) (l : list Alert.t) (s : AppState) :
  exists l', handle e (setAlerts l s) = setAlerts l' (handle e s).
Proof.
  destruct e as [| o | | | | v | v | v | c | r | v | v | v | | i]; cbn [handle];
    try (exists l; reflexivity).
  - rewrite !resume_cases. exists l.
    destruct (fetch_fails o); reflexivity.
  - unfold handleCreateAlert. project_state.
    destruct (truthy_string (AlertForm.targetRate (alertForm s)));
      eexists; reflexivity.
  - unfold removeAlert. project_state. eexists. reflexivity.
Qed.

Lemma step_setAlerts (e : Event) (w : World) (l : list Alert.t) :
  exists l',
    step now subDays format e
      (mkWorld (setAlerts l (state w)) (random w) (pending w) (elapsed w)) =
    mkWorld (setAlerts l' (state (step now subDays format e w)))
            (random (step now subDays format e w))
            (pending (step now subDays format e w))
            (elapsed (step now subDays format e w)).
Proof.
  unfold step. cbn [state random pending elapsed].
  destruct (handle_setAlerts e l (state w)) as [l' ->]. exists l'.
  assert (Hd : depsChanged e (setAlerts l (state w)) (setAlerts l' (handle e (state w))) =
               depsChanged e (state w) (handle e (state w))) by reflexivity.
  rewrite Hd.
  destruct (depsChanged e (state w) (handle e (state w)));
    [rewrite historyEffect_setAlerts |]; reflexivity.
Qed.

Lemma run_setAlerts (es : list Event) (w : World) (l : list Alert.t) :
  exists l',
    run now subDays format es
      (mkWorld (setAlerts l (state w)) (random w) (pending w) (elapsed w)) =
    mkWorld (setAlerts l' (state (run now subDays format es w)))
            (random (run now subDays format es w))
            (pending (run now subDays format es w))
            (elapsed (run now subDays format es w)).
Proof.
  revert w l. induction es as [| e es IH]; intros w l; cbn [run fold_left].
  - exists l. reflexivity.
  - destruct (step_setAlerts e w l) as [l1 ->]. apply (IH (step now subDays format e w)).
Qed.

(** X23: the alerts are inert.  Whatever the alert list holds at the start,
    a sequence of events leads to the same state up to the alert list,
    the same generator, the same screen and the same conversion: no alert
    is ever compared with a rate. *)
Theorem alerts_are_inert (es : list Event) (w : World) (l : list Alert.t) :
  let w1 := run now subDays format es w in
  let w2 := run now subDays format es
              (mkWorld (setAlerts l (state w)) (random w) (pending w) (elapsed w)) in
  setAlerts [] (state w2) = setAlerts [] (state w1) /\
  random w2 = random w1 /\
  view (state w2) = view (state w1) /\
  historicalData (state w2) = historicalData (state w1) /\
  calculateConversion (state w2) = calculateConversion (state w1).
Proof.
  cbv zeta. destruct (run_setAlerts es w l) as [l' ->]. cbn [state random].
  repeat split.
Qed.

Lemma step_alert_event (e : Event) (w : World) :
  match e with
  | ChangeAlertCurrency _ | ChangeAlertType _ | ChangeAlertTarget _
  | ClickCreate | ClickRemove _ => True
  | _ => False
  end ->
  state (step now subDays format e w) = handle e (state w) /\
  random (step now subDays format e w) = random w.
Proof.
  intros He. unfold step. cbn [state random].
  assert (Hd : depsChanged e (state w) (handle e (state w)) = false).
  { destruct e; try contradiction; cbn [handle].
    - quiet_step. reflexivity.
    - quiet_step. reflexivity.
    - quiet_step. reflexivity.
    - unfold handleCreateAlert.
      destruct (truthy_string (AlertForm.targetRate (alertForm (state w))));
        quiet_step; reflexivity.
    - unfold removeAlert. quiet_step. reflexivity. }
  rewrite Hd. split; reflexivity.
Qed.

(** X24: choosing a currency and a type, typing a non-empty target and
    clicking the create button appends exactly the alert (currency,
    Number(target), type); the form keeps the currency and the type with an
    empty target, and nothing else changes. *)
Theorem form_then_create (w : World) (c v : string) (t : AlertType) :
  v <> "" ->
  let w' := run now subDays format
              [ChangeAlertCurrency c; ChangeAlertType t; ChangeAlertTarget v; ClickCreate] w in
  alerts (state w') = (alerts (state w) ++ [Alert.mk c (Number v) t])%list /\
  alertForm (state w') = AlertForm.mk c "" t /\
  state w' = setAlertForm (alertForm (state w')) (setAlerts (alerts (state w')) (state w)) /\
  random w' = random w.
Proof.
  intros Hv. cbv zeta. unfold run. cbn [fold_left].
  set (w1 := step now subDays format (ChangeAlertCurrency c) w).
  set (w2 := step now subDays format (ChangeAlertType t) w1).
  set (w3 := step now subDays format (ChangeAlertTarget v) w2).
  destruct (step_alert_event (ChangeAlertCurrency c) w I) as [S1 R1].
  destruct (step_alert_event (ChangeAlertType t) w1 I) as [S2 R2].
  destruct (step_alert_event (ChangeAlertTarget v) w2 I) as [S3 R3].
  destruct (step_alert_event ClickCreate w3 I) as [S4 R4].
  fold w1 in S1, R1. fold w2 in S2, R2. fold w3 in S3, R3.
  rewrite S4, R4, R3, R2, R1, S3, S2, S1. cbn [handle].
  unfold handleCreateAlert. project_state.
  cbn [AlertForm.targetRate AlertForm.type AlertForm.currency].
  destruct v as [| a v']; [contradiction |]. cbn [truthy_string]. project_state.
  repeat split.
Qed.

End Page.

Lemma form_then_create_witness :
  "5.5" <> "" /\
  alerts (state (run sampleClock sampleSubDays sampleFormat
                   [ChangeAlertCurrency "GBP"; ChangeAlertType below;
                    ChangeAlertTarget "5.5"; ClickCreate] sampleSession)) =
    (alerts (state sampleSession) ++ [Alert.mk "GBP" (Number "5.5") below])%list.
Proof.
  split; [discriminate |].
  apply (form_then_create sampleClock sampleSubDays sampleFormat sampleSession
           "GBP" "5.5" below).
  discriminate.
Defined.

Lemma toFixed_two_decimals (x : spec_float) :
  is_finite x = true -> (Rabs (SF2R x) <= 1000001)%R ->
  exists (negative : bool) (a b : list ascii),
    list_ascii_of_string (toFixed 2 x) =
      ((if negative then ["-"%char] else []) ++ a ++ "."%char :: b)%list /\
    a <> [] /\ forallb dec_digit a = true /\ forallb dec_digit b = true /\
    List.length b = 2%nat.
Proof.
  intros Fx Hb. destruct x as [sg | sg | | sg m e]; try discriminate Fx.
  - destruct (fixed_digits_spec 0 ltac:(lia)) as (a & b & Hl & Ha & Hda & Hdb & Hlen & _).
    exists false, a, b. cbn [toFixed app]. repeat split; assumption.
  - assert (HF : (F2R m e <= 1000000000)%R).
    { pose proof (F2R_pos m e) as HP. cbn [SF2R] in Hb.
      destruct sg; [rewrite Rabs_Ropp in Hb |]; rewrite Rabs_pos_eq in Hb; lra. }
    destruct (fixed_digits_spec (fixed_scaled 2 m e) (fixed_scaled_nonneg 2 m e))
      as (a & b & Hl & Ha & Hda & Hdb & Hlen & _).
    exists sg, a, b. unfold toFixed. rewrite (ge_1e21_small m e HF), list_of_append, Hl.
    split; [destruct sg; reflexivity |]. repeat split; assumption.
Qed.

(** X25: for a non-zero finite amount and finite rates, with toRate between
    a millionth and a million in magnitude and an exact quotient of at
    most a million in magnitude, the text returned by the converter is an
    optional minus sign, one or more decimal digits, a point and exactly
    two decimal digits. *)
Theorem conversion_has_two_decimals (s : AppState) :
  let amount := Number (convertAmount s) in
  let fromRate := or_default (rate_of (rates s) (convertFrom s)) (lit "1") in
  let toRate := or_default (rate_of (rates s) (convertTo s)) (lit "1") in
  let exact := (SF2R amount * SF2R fromRate / SF2R toRate)%R in
  truthy amount = true -> is_finite amount = true ->
  is_finite fromRate = true -> is_finite toRate = true ->
  (/ 1000000 <= Rabs (SF2R toRate) <= 1000000)%R ->
  (Rabs exact <= 1000000)%R ->
  exists (negative : bool) (a b : list ascii),
    list_ascii_of_string (calculateConversion s) =
      ((if negative then ["-"%char] else []) ++ a ++ "."%char :: b)%list /\
    a <> [] /\ forallb dec_digit a = true /\ forallb dec_digit b = true /\
    List.length b = 2%nat.
Proof.
  intros amount fromRate toRate exact Ta Fa Ff Ft Ht HV.
  rewrite calculateConversion_guard. rewrite <- lit_1.
  fold amount fromRate toRate. rewrite Ta.
  destruct (quotient_error amount fromRate toRate Fa Ff Ft Ht HV) as [Fz Hz].
  fold exact in Hz.
  apply toFixed_two_decimals; [exact Fz |].
  replace (SF2R (div (mul amount fromRate) toRate))
    with ((SF2R (div (mul amount fromRate) toRate) - exact) + exact)%R by ring.
  eapply Rle_trans; [apply Rabs_triang |]. lra.
Qed.

Lemma conversion_has_two_decimals_witness :
  truthy (Number "10") = true /\
  exists (negative : bool) (a b : list ascii),
    list_ascii_of_string
      (calculateConversion (withConversion "10" "USD" "BRL" loadedState)) =
      ((if negative then ["-"%char] else []) ++ a ++ "."%char :: b)%list /\
    a <> [] /\ forallb dec_digit a = true /\ forallb dec_digit b = true /\
    List.length b = 2%nat.
Proof.
  split; [vm_compute; reflexivity |].
  pose proof (conversion_has_two_decimals (withConversion "10" "USD" "BRL" loadedState)) as H.
  cbv zeta in H.
  assert (Ea : Number (convertAmount (withConversion "10" "USD" "BRL" loadedState)) =
               S754_finite false 5629499534213120 (-49)) by (vm_compute; reflexivity).
  assert (Ef : or_default (rate_of (rates (withConversion "10" "USD" "BRL" loadedState))
                             (convertFrom (withConversion "10" "USD" "BRL" loadedState)))
                 (lit "1") = S754_finite false 5629499534213120 (-50))
    by (vm_compute; reflexivity).
  assert (Et : or_default (rate_of (rates (withConversion "10" "USD" "BRL" loadedState))
                             (convertTo (withConversion "10" "USD" "BRL" loadedState)))
                 (lit "1") = S754_finite false 4503599627370496 (-52))
    by (vm_compute; reflexivity).
  rewrite Ea, Ef, Et in H.
  rewrite (SF2R_scaled 5629499534213120 49 10 eq_refl),
    (SF2R_scaled 5629499534213120 50 5 eq_refl),
    (SF2R_scaled 4503599627370496 52 1 eq_refl) in H.
  apply H; try reflexivity.
  - rewrite Rabs_pos_eq; lra.
  - rewrite Rabs_pos_eq; lra.
Defined.

(** ** Requests that overlap *)

Section Overlap.

Variable now : nat -> nat -> Date.
Variable subDays : Date -> number -> Date.
Variable format : Date -> string -> string.

Lemma step_tick (w : World) :
  step now subDays format Tick w =
    mkWorld (setError None (setLoading true (state w))) (random w)
            (S (pending w)) (S (elapsed w)).
Proof.
  unfold step. cbn [handle fetchExchangeRates_call update bind snd].
  quiet_step. reflexivity.
Qed.

Lemma step_settle_state (w : World) (o : AxiosOutcome) :
  setHistoricalData [] (state (step now subDays format (Settle o) w)) =
    setHistoricalData [] (snd (fetchExchangeRates_resume o (state w))) /\
  pending (step now subDays format (Settle o) w) = Nat.pred (pending w).
Proof.
  unfold step. cbn [handle state pending]. split; [| reflexivity].
  destruct (depsChanged (Settle o) (state w) (snd (fetchExchangeRates_resume o (state w))));
    [| reflexivity].
  rewrite historyEffect_cases.
  destruct (rates (snd (fetchExchangeRates_resume o (state w)))); reflexivity.
Qed.

(** X26: loading and error are flags, not counts.  When two requests are
    pending, the first settlement turns loading off although a request is
    still pending.  After both settlements the snapshot and lastUpdate are
    those of fetching the two outcomes one after the other in the order
    they settled; but a success does not clear the error of a failure that
    settled before it, so after a failure followed by a success the error
    screen is shown over the fresh snapshot. *)
Theorem overlapping_requests (w : World) (o1 o2 : AxiosOutcome) :
  let w1 := step now subDays format (Settle o1)
              (step now subDays format Tick (step now subDays format Tick w)) in
  let w2 := step now subDays format (Settle o2) w1 in
  loading (state w1) = false /\ (0 < pending w1)%nat /\
  offered w1 (Settle o2) = true /\
  rates (state w2) = rates (poll [o1; o2] (state w)) /\
  lastUpdate (state w2) = lastUpdate (poll [o1; o2] (state w)) /\
  error (state w2) =
    (if fetch_fails o2 then Some (errorText o2)
     else if fetch_fails o1 then Some (errorText o1) else None) /\
  view (state w2) =
    (if fetch_fails o2 then ErrorScreen (errorText o2)
     else if fetch_fails o1 then ErrorScreen (errorText o1) else Dashboard).
Proof.
  cbv zeta. rewrite !step_tick.
  set (w0 := mkWorld _ _ _ _).
  destruct (step_settle_state w0 o1) as [S1 P1].
  destruct (step_settle_state (step now subDays format (Settle o1) w0) o2) as [S2 _].
  set (w1 := step now subDays format (Settle o1) w0) in *.
  set (w2 := step now subDays format (Settle o2) w1) in *.
  assert (Hinv : forall s s', setHistoricalData [] s = setHistoricalData [] s' ->
                   s = setHistoricalData (historicalData s) s').
  { intros s s' E. destruct s, s'. unfold setHistoricalData in E. simpl in E.
    injection E. intros. subst. reflexivity. }
  apply Hinv in S1. apply Hinv in S2.
  assert (Hp : pending w1 = S (pending w)) by (rewrite P1; reflexivity).
  split.
  { rewrite S1, resume_cases. destruct (fetch_fails o1); reflexivity. }
  split; [rewrite Hp; lia |].
  split; [cbn [offered]; rewrite Hp; reflexivity |].
  unfold poll. cbn [fold_left]. rewrite !fetch_cases.
  rewrite S2, S1, !resume_cases. subst w0. cbn [state].
  unfold view.
  destruct (fetch_fails o1), (fetch_fails o2); repeat split.
Qed.

End Overlap.

(** ** The chart on screen *)

Section ChartOnScreen.

Variable now : nat -> nat -> Date.
Variable subDays : Date -> number -> Date.
Variable format : Date -> string -> string.

Lemma handle_quiet (e : Event) (s : AppState) :
  depsChanged e s (handle e s) = false ->
  rates (handle e s) = rates s /\
  selectedCurrency (handle e s) = selectedCurrency s /\
  timeRange (handle e s) = timeRange s /\
  historicalData (handle e s) = historicalData s.
Proof.
  unfold depsChanged. intros H.
  apply orb_false_iff in H. destruct H as [H Hr].
  apply orb_false_iff in H. destruct H as [Hnew Hc].
  apply negb_false_iff in Hr. apply TimeRange_eqb_eq in Hr.
  apply negb_false_iff in Hc. apply String.eqb_eq in Hc.
  split; [| split; [symmetry; exact Hc | split; [symmetry; exact Hr |]]].
  - destruct e as [| o | | | | v | v | v | c | r | v | v | v | | i]; cbn [handle];
      try reflexivity.
    + rewrite resume_cases. apply negb_false_iff in Hnew. rewrite Hnew. reflexivity.
    + unfold handleCreateAlert.
      destruct (truthy_string (AlertForm.targetRate (alertForm s))); reflexivity.
  - destruct e as [| o | | | | v | v | v | c | r | v | v | v | | i]; cbn [handle];
      try reflexivity.
    + rewrite resume_cases. destruct (fetch_fails o); reflexivity.
    + unfold handleCreateAlert.
      destruct (truthy_string (AlertForm.targetRate (alertForm s))); reflexivity.
Qed.

(** The chart of a world with rates is one that the synthesizer returns
    for the base rate and the range of that world, on draws of the
    generator of that world. *)
Lemma reachable_chart_current (w : World) :
  reachable now subDays format w ->
  rates (state w) <> [] ->
  exists (clock : nat -> Date) (g0 : Random),
    draws g0 = draws (random w) /\
    historicalData (state w) =
      fst (synthesize clock subDays format (baseRate (state w))
             (timeRange (state w)) g0).
Proof.
  induction 1 as [g | w e Hw IH Hoff].
  - intros Hr. exfalso. apply Hr. unfold mount. cbn [state].
    rewrite historyEffect_cases. reflexivity.
  - unfold step. cbn [state random].
    destruct (depsChanged e (state w) (handle e (state w))) eqn:Hd.
    + rewrite historyEffect_cases.
      destruct (rates (handle e (state w))) as [| r rs] eqn:Er; cbn [fst snd].
      * intros Hr. rewrite Er in Hr. contradiction.
      * intros _. exists (now (S (elapsed w))), (random w).
        split; [reflexivity |]. reflexivity.
    + cbn [fst snd]. destruct (handle_quiet e (state w) Hd) as (Er & Ec & Et & Eh).
      intros Hr. rewrite Er in Hr. destruct (IH Hr) as (clock & g0 & Hg & Hc).
      exists clock, g0. split; [exact Hg |].
      unfold baseRate in *. rewrite Er, Ec, Et, Eh. exact Hc.
Qed.

(** X27: the chart on screen stays near the rate of the selected card.  In
    every world of the mounted component, when the draws of Math.random
    lie in [0, 1) and the base rate (the rate of the selected currency, 5
    when it is falsy) is a number of magnitude at most 10^6, every point
    of the chart is a finite number within 0.1051 of that base rate. *)
Theorem chart_stays_near_rate (w : World) :
  reachable now subDays format w ->
  (forall k, valid_binary prec emax (draws (random w) k) = true /\
             leb (lit "0") (draws (random w) k) = true /\
             ltb (draws (random w) k) (lit "1") = true) ->
  let base := baseRate (state w) in
  valid_binary prec emax base = true ->
  leb (lit "-1000000") base = true -> leb base (lit "1000000") = true ->
  Forall (fun p => is_finite (HistoricalData.rate p) = true /\
                   (Rabs (SF2R (HistoricalData.rate p) - SF2R base) <= 1051 / 10000)%R)
         (historicalData (state w)).
Proof.
  intros Hw Hdraws base Vb Hb1 Hb2.
  destruct (rates (state w)) as [| r rs] eqn:Er.
  - pose proof (reachable_consistent now subDays format w Hw) as (_ & _ & Hlen & _).
    rewrite Er in Hlen. destruct (historicalData (state w)); [constructor | discriminate Hlen].
  - destruct (reachable_chart_current w Hw) as (clock & g0 & Hg & Hc);
      [rewrite Er; discriminate |].
    rewrite Hc, synthesize_spec. fold base.
    apply List.Forall_forall. intros p Hp. apply in_map_iff in Hp.
    destruct Hp as (j & <- & _).
    destruct (million_range_real base Vb Hb1 Hb2) as [Fb Hbase].
    destruct (Hdraws (position g0 + j)%nat) as (Vr & Hr0 & Hr1).
    rewrite <- Hg in Vr, Hr0, Hr1.
    destruct (unit_interval_real _ Vr Hr0 Hr1) as [Fr Hdraw].
    exact (history_rate_near base _ Fb Hbase Fr Hdraw).
Qed.

End ChartOnScreen.

Lemma chart_stays_near_rate_witness :
  List.length (historicalData (state sampleSession)) = 8%nat /\
  baseRate (state sampleSession) = lit "6.25" /\
  Forall (fun p => is_finite (HistoricalData.rate p) = true /\
                   (Rabs (SF2R (HistoricalData.rate p) -
                          SF2R (baseRate (state sampleSession))) <= 1051 / 10000)%R)
         (historicalData (state sampleSession)).
Proof.
  split; [vm_compute; reflexivity |]. split; [vm_compute; reflexivity |].
  apply (chart_stays_near_rate sampleClock sampleSubDays sampleFormat sampleSession
           sampleSession_reachable).
  - intros k. vm_compute. repeat split.
  - vm_compute. reflexivity.
  - vm_compute. reflexivity.
  - vm_compute. reflexivity.
Defined.
